(** * Feature engineering for insider-trading anomaly detection

    A shallow embedding of [src/features.py] and [src/ingest.py].

    A pandas [DataFrame] is a list of column labels together with a list of
    labelled rows; a row maps column labels to cells, and the row labels are
    the index of the frame.  Row labels are integers, as [read_csv],
    [pd.concat(ignore_index=True)] and [reset_index(drop=True)] number the
    rows and as sorting and filtering carry the numbers along: frames
    indexed by anything else are not modelled.  Numbers are exact rationals:
    the arithmetic of the program is modelled without the rounding of
    [float64], and the one operation that leaves the rationals, the square
    root inside the rolling standard deviation, is a parameter of the
    development.  Timestamps are [datetime64[ns]] values, i.e. integers
    counting nanoseconds. *)

From Stdlib Require Import List String Ascii Bool Arith ZArith QArith Lia.
From Stdlib Require Import Permutation Sorted Qround Lqa.
Import ListNotations.

Local Open Scope string_scope.
Local Open Scope Z_scope.

(** ** Errors *)

(** The exceptions the program can raise.  [ValueError msg] is a
    [ValueError] the source raises with the message [msg];
    [MissingColumns missing] is the [ValueError] of [clean_data], whose
    message ends in the set [missing] as Python prints it, in an order of
    its own; [PandasValueError reason] is a [ValueError] raised inside
    pandas, of which only the cause is modelled.  [TypeError] stands for
    the exceptions pandas raises when a column does not have the dtype an
    operation works on.  [Unmodelled] is no exception of the program: it
    marks an input outside the frames and dtypes this development covers,
    about which nothing is stated. *)
Inductive exn : Type :=
| ValueError (msg : string)
| MissingColumns (missing : list string)
| PandasValueError (reason : string)
| KeyError (col : string)
| TypeError (col : string)
| Unmodelled (what : string).

Inductive Result (A : Type) : Type :=
| Ok (a : A)
| Err (e : exn).

Arguments Ok {A} a.
Arguments Err {A} e.

Definition bind {A B : Type} (m : Result A) (k : A -> Result B) : Result B :=
  match m with
  | Ok a => k a
  | Err e => Err e
  end.

Notation "x <- m ;; k" := (bind m (fun x => k))
  (at level 61, m at next level, right associativity).


(** ** Strings, as Python's [str] on ASCII text *)

(** [sub in s] of Python. *)
Fixpoint contains (sub s : string) : bool :=
  String.prefix sub s
  || match s with
     | EmptyString => false
     | String _ s' => contains sub s'
     end.

Definition is_upper (c : ascii) : bool :=
  let n := nat_of_ascii c in (65 <=? n)%nat && (n <=? 90)%nat.

Definition is_lower (c : ascii) : bool :=
  let n := nat_of_ascii c in (97 <=? n)%nat && (n <=? 122)%nat.

Definition to_lower (c : ascii) : ascii :=
  if is_upper c then ascii_of_nat (nat_of_ascii c + 32) else c.

Definition to_upper (c : ascii) : ascii :=
  if is_lower c then ascii_of_nat (nat_of_ascii c - 32) else c.

(** The characters [str.strip()] removes: tab, line feed, vertical tab, form
    feed, carriage return, the four separators 28-31 and the space. *)
Definition is_space (c : ascii) : bool :=
  let n := nat_of_ascii c in
  ((9 <=? n)%nat && (n <=? 13)%nat) || ((28 <=? n)%nat && (n <=? 32)%nat).

(** [str.lower()] *)
Fixpoint lower (s : string) : string :=
  match s with
  | EmptyString => EmptyString
  | String c s' => String (to_lower c) (lower s')
  end.

Fixpoint lstrip (s : string) : string :=
  match s with
  | EmptyString => EmptyString
  | String c s' => if is_space c then lstrip s' else s
  end.

(** [rstrip s] drops the trailing white space: a character is kept when it
    is not white space or when something is kept after it. *)
Fixpoint rstrip (s : string) : string :=
  match s with
  | EmptyString => EmptyString
  | String c s' =>
      match rstrip s' with
      | EmptyString => if is_space c then EmptyString else String c EmptyString
      | t => String c t
      end
  end.

(** [str.strip()] *)
Definition strip (s : string) : string := rstrip (lstrip s).

(** [str.title()]: a cased character is upper-cased when the character
    before it is not cased, and lower-cased otherwise. *)
Fixpoint title_from (prev_cased : bool) (s : string) : string :=
  match s with
  | EmptyString => EmptyString
  | String c s' =>
      let cased := is_upper c || is_lower c in
      let c' := if prev_cased then to_lower c else to_upper c in
      String c' (title_from cased s')
  end.

Definition title (s : string) : string := title_from false s.

(** ** Cells, rows and frames *)

Inductive value : Type :=
| VStr (s : string)      (* object cell holding a str *)
| VNum (q : Q)           (* finite float64 *)
| VDate (ns : Z)         (* datetime64[ns] *)
| VInt (z : Z)           (* int64 *)
| VBool (b : bool)
| VInf                   (* what a float division by zero yields *)
| VNA.                   (* NaN, NaT, None or pd.NA *)

Definition Row : Type := list (string * value).

(** The column labels and the rows, each under its row label. *)
Record DataFrame : Type := mkDF {
  columns : list string;
  entries : list (Z * Row)
}.

(** The rows in order, and the index: the row labels in order. *)
Definition rows (df : DataFrame) : list Row := map snd (entries df).

Definition index (df : DataFrame) : list Z := map fst (entries df).

(** [RangeIndex(n)] *)
Definition range_index (n : nat) : list Z := map Z.of_nat (seq 0 n).

(** A frame with the default index, as [read_csv] builds it. *)
Definition frame (cols : list string) (rs : list Row) : DataFrame :=
  mkDF cols (combine (range_index (List.length rs)) rs).

(** The entries changed row by row, filtered, or put in another order. *)
Definition on_rows (f : Row -> Row) (es : list (Z * Row)) : list (Z * Row) :=
  map (fun e => (fst e, f (snd e))) es.

Definition keep_rows (p : Row -> bool) (es : list (Z * Row)) : list (Z * Row) :=
  filter (fun e => p (snd e)) es.

Fixpoint cell (c : string) (r : Row) : value :=
  match r with
  | [] => VNA
  | (k, v) :: r' => if String.eqb k c then v else cell c r'
  end.

Fixpoint set_cell (c : string) (v : value) (r : Row) : Row :=
  match r with
  | [] => [(c, v)]
  | (k, w) :: r' =>
      if String.eqb k c then (k, v) :: r' else (k, w) :: set_cell c v r'
  end.

Fixpoint del_cell (c : string) (r : Row) : Row :=
  match r with
  | [] => []
  | (k, w) :: r' =>
      if String.eqb k c then del_cell c r' else (k, w) :: del_cell c r'
  end.

(** [c in df.columns] *)
Definition has_column (c : string) (df : DataFrame) : bool :=
  existsb (String.eqb c) (columns df).

(** [df.empty]: one of the two axes has length 0. *)
Definition empty (df : DataFrame) : bool :=
  match columns df, rows df with
  | [], _ => true
  | _, [] => true
  | _, _ => false
  end.

(** [pd.DataFrame()] *)
Definition empty_frame : DataFrame := mkDF [] [].

(** [df[c]]: the cells of a column in row order, [KeyError] when there is
    no such column. *)
Definition column (c : string) (df : DataFrame) : Result (list value) :=
  if has_column c df then Ok (map (cell c) (rows df)) else Err (KeyError c).

(** [df[c] = s] for a series [s] aligned with the rows of [df]: an existing
    column is overwritten in place, a new one is appended. *)
Definition assign (c : string) (s : list value) (df : DataFrame) : DataFrame :=
  mkDF (if has_column c df then columns df else columns df ++ [c])
       (map (fun ev => (fst (fst ev), set_cell c (snd ev) (snd (fst ev))))
            (combine (entries df) s)).

(** [df[c] = v] for a scalar [v]. *)
Definition assign_scalar (c : string) (v : value) (df : DataFrame) : DataFrame :=
  assign c (map (fun _ => v) (rows df)) df.

(** [df.drop(columns=cs)] for labels that exist. *)
Definition drop_columns (cs : list string) (df : DataFrame) : DataFrame :=
  mkDF (filter (fun c => negb (existsb (String.eqb c) cs)) (columns df))
       (on_rows (fun r => fold_right del_cell r cs) (entries df)).

Definition is_na (v : value) : bool :=
  match v with VNA => true | _ => false end.

(** ** Looking columns up by name *)

Definition find_column (p : string -> bool) (df : DataFrame) : option string :=
  find p (columns df).

Definition _get_date_column (df : DataFrame) : Result string :=
  if has_column "date" df then Ok "date"
  else match find_column (contains "date") df with
       | Some col => Ok col
       | None => Err (ValueError "No date column found in dataframe.")
       end.

Definition _get_transaction_column (df : DataFrame) : Result string :=
  if has_column "transaction" df then Ok "transaction"
  else match find_column (contains "transaction") df with
       | Some col => Ok col
       | None => Err (ValueError "Transaction column missing from dataframe.")
       end.

Definition insider_candidates : list string :=
  ["insider"; "insider_name"; "reporting_owner"; "owner"].

Definition _get_insider_column (df : DataFrame) : option string :=
  match find (fun candidate => has_column candidate df) insider_candidates with
  | Some candidate => Some candidate
  | None => find_column (contains "insider") df
  end.

(** ** Ordering cells *)

(** Cells of one kind are compared by their content; cells of different
    kinds by kind, a missing cell after everything else
    ([na_position='last']). *)
Definition value_rank (v : value) : Z :=
  match v with
  | VStr _ => 0 | VNum _ => 1 | VDate _ => 2 | VInt _ => 3
  | VBool _ => 4 | VInf => 5 | VNA => 6
  end.

Definition value_cmp (a b : value) : comparison :=
  match a, b with
  | VStr s, VStr t => String.compare s t
  | VNum p, VNum q => Qcompare p q
  | VDate m, VDate n => Z.compare m n
  | VInt m, VInt n => Z.compare m n
  | VBool x, VBool y => Bool.compare x y
  | _, _ => Z.compare (value_rank a) (value_rank b)
  end.

(** Keys made of several cells are compared lexicographically. *)
Fixpoint keys_cmp (k1 k2 : list value) : comparison :=
  match k1, k2 with
  | [], [] => Eq
  | [], _ :: _ => Lt
  | _ :: _, [] => Gt
  | a :: k1', b :: k2' =>
      match value_cmp a b with
      | Eq => keys_cmp k1' k2'
      | c => c
      end
  end.

Definition keys_eqb (k1 k2 : list value) : bool :=
  match keys_cmp k1 k2 with Eq => true | _ => false end.

Definition keys_leb (k1 k2 : list value) : bool :=
  match keys_cmp k1 k2 with Gt => false | _ => true end.

(** The cells of a row under the labels [by]. *)
Definition key_of (by_ : list string) (r : Row) : list value :=
  map (fun c => cell c r) by_.

(** ** Stable sorting *)

Section Sorting.
Context {A : Type} (leb : A -> A -> bool).

(** [x] goes in front of the first element it is not greater than, hence
    in front of the elements it ties with. *)
Fixpoint insert_sorted (x : A) (l : list A) : list A :=
  match l with
  | [] => [x]
  | y :: l' => if leb x y then x :: l else y :: insert_sorted x l'
  end.

(** Elements are inserted from the last to the first, so elements that
    tie keep their order. *)
Fixpoint stable_sort (l : list A) : list A :=
  match l with
  | [] => []
  | x :: l' => insert_sorted x (stable_sort l')
  end.
End Sorting.

(** [df.sort_values(by)] with several labels: a stable lexicographic sort,
    [KeyError] for the first label that is no column.  The rows keep their
    labels. *)
Definition sort_values (by_ : list string) (df : DataFrame) : Result DataFrame :=
  match find (fun c => negb (has_column c df)) by_ with
  | Some c => Err (KeyError c)
  | None =>
      Ok (mkDF (columns df)
               (stable_sort (fun e1 e2 => keys_leb (key_of by_ (snd e1))
                                                   (key_of by_ (snd e2)))
                            (entries df)))
  end.

(** ** Typed views of a frame *)

Definition as_date (v : value) : option Z :=
  match v with VDate n => Some n | _ => None end.

(** The number in a cell of a [float64] or an [int64] column. *)
Definition as_num (v : value) : option Q :=
  match v with
  | VNum q => Some q
  | VInt z => Some (inject_Z z)
  | _ => None
  end.

Fixpoint traverse {A B : Type} (f : A -> option B) (l : list A) : option (list B) :=
  match l with
  | [] => Some []
  | a :: l' =>
      match f a, traverse f l' with
      | Some b, Some bs => Some (b :: bs)
      | _, _ => None
      end
  end.

(** What the grouped operations read of a row: the grouping key, the
    timestamp and a number. *)
Record obs : Type := mkObs {
  okey : list value;
  otime : Z;
  oval : Q
}.

Definition obs0 : obs := mkObs [] 0 0.

Definition row_obs (by_ : list string) (date_col val_col : string) (r : Row)
  : option obs :=
  match as_date (cell date_col r), as_num (cell val_col r) with
  | Some t, Some x => Some (mkObs (key_of by_ r) t x)
  | _, _ => None
  end.

(** The rows of a frame as observations, for the grouped operations on
    [df.groupby(by)...[val_col]] over the time axis [date_col].  A
    time-based [rolling] refuses a time axis that is no [datetime64] column
    or holds a missing timestamp.  The value column is read as numbers, the
    state [clean_data] and [add_basic_features] leave it in; a value column
    with a missing or non-numeric cell is outside the model. *)
Definition observations (by_ : list string) (date_col val_col : string)
  (df : DataFrame) : Result (list obs) :=
  match find (fun c => negb (has_column c df)) (by_ ++ [date_col]) with
  | Some c => Err (KeyError c)
  | None =>
      match traverse as_date (map (cell date_col) (rows df)) with
      | None => Err (PandasValueError "rolling over a time axis that is not datetime64 or holds NaT")
      | Some _ =>
          if has_column val_col df then
            match traverse (row_obs by_ date_col val_col) (rows df) with
            | Some os => Ok os
            | None => Err (Unmodelled val_col)
            end
          else Err (KeyError val_col)
      end
  end.

(** ** Grouping *)

Section GroupBy.
Context {A : Type} (key : A -> list value) (d : A).

Definition same_key (k : list value) (a : A) : bool := keys_eqb k (key a).

(** The group of key [k], in the order of the frame. *)
Definition group_of (k : list value) (l : list A) : list A :=
  filter (same_key k) l.

(** The place the [i]-th element has inside its group. *)
Definition pos_in_group (k : list value) (i : nat) (l : list A) : nat :=
  List.length (filter (same_key k) (firstn i l)).

(** [df.groupby(key).op()] brought back to the rows of the frame: every
    row receives what [op] computes for its place in its group; a row
    with a missing key belongs to no group ([dropna=True]) and receives
    the missing marker. *)
Definition groupby_apply (op : list A -> nat -> value) (l : list A)
  : list value :=
  map (fun i =>
         let k := key (nth i l d) in
         if existsb is_na k then VNA
         else op (group_of k l) (pos_in_group k i l))
      (seq 0 (List.length l)).
End GroupBy.

(** ** Series *)

(** A row label of a Series: an integer label of a frame, or a timestamp. *)
Inductive label : Type :=
| LInt (i : Z)
| LDate (ns : Z).

Definition label_eqb (a b : label) : bool :=
  match a, b with
  | LInt i, LInt j => Z.eqb i j
  | LDate m, LDate n => Z.eqb m n
  | _, _ => false
  end.

Fixpoint labels_eqb (l1 l2 : list label) : bool :=
  match l1, l2 with
  | [], [] => true
  | a :: l1', b :: l2' => label_eqb a b && labels_eqb l1' l2'
  | _, _ => false
  end.

Definition Series : Type := list (label * value).

Definition labels (s : Series) : list label := map fst s.

Fixpoint unique (ls : list label) : bool :=
  match ls with
  | [] => true
  | l :: ls' => negb (existsb (label_eqb l) ls') && unique ls'
  end.

(** [s.reindex([l])]: the cell under the label [l], missing without it. *)
Definition lookup (l : label) (s : Series) : value :=
  match find (fun e => label_eqb (fst e) l) s with
  | Some e => snd e
  | None => VNA
  end.

(** ** Numbers *)

Local Open Scope Q_scope.

Definition Qsum (l : list Q) : Q := fold_right Qplus 0 l.

Definition Qlen {A : Type} (l : list A) : Q := inject_Z (Z.of_nat (List.length l)).

Definition Qltb (a b : Q) : bool := negb (Qle_bool b a).

Definition mean (xs : list Q) : Q := Qsum xs / Qlen xs.

(** Sample variance ([ddof=1]). *)
Definition variance (xs : list Q) : Q :=
  Qsum (map (fun x => (x - mean xs) * (x - mean xs)) xs) / (Qlen xs - 1).

Definition day_ns : Z := 86400000000000.

Definition days (n : Z) : Z := (n * day_ns)%Z.

Fixpoint dropwhile {A : Type} (p : A -> bool) (l : list A) : list A :=
  match l with
  | [] => []
  | x :: l' => if p x then dropwhile p l' else l
  end.

(** The rows [rolling(window, on=date)] aggregates for the [p]-th row of a
    group ([closed='right']): the window ends at row [p] and starts at the
    first row whose timestamp is later than the row's timestamp minus the
    window. *)
Definition window (w : Z) (g : list obs) (p : nat) : list obs :=
  let t := otime (nth p g obs0) in
  dropwhile (fun o => (otime o <=? t - w)%Z) (firstn (S p) g).

(** [.mean()] of a rolling window ([min_periods=1]). *)
Definition rolling_mean (w : Z) (g : list obs) (p : nat) : value :=
  match window w g p with
  | [] => VNA
  | win => VNum (mean (map oval win))
  end.

(** Average rank of a value among [xs] ([method='average']): the mean of
    the ranks the values equal to it occupy. *)
Definition average_rank (x : Q) (xs : list Q) : Q :=
  let less := List.length (filter (fun y => Qltb y x) xs) in
  let ties := List.length (filter (fun y => Qeq_bool y x) xs) in
  mean (map (fun k => inject_Z (Z.of_nat (less + k))) (seq 1 ties)).

(** [.rank(pct=True)] *)
Definition rank_pct (g : list obs) (p : nat) : value :=
  let xs := map oval g in
  VNum (average_rank (oval (nth p g obs0)) xs / Qlen xs).

(** [Series.quantile(q)], linear interpolation between the two order
    statistics around position [q * (n - 1)]. *)
Definition quantile (q : Q) (xs : list Q) : value :=
  match xs with
  | [] => VNA
  | _ =>
      let s := stable_sort Qle_bool xs in
      let pos := q * (Qlen xs - 1) in
      let lo := Z.to_nat (Qfloor pos) in
      let hi := Nat.min (lo + 1) (List.length xs - 1) in
      let a := nth lo s 0 in
      let b := nth hi s 0 in
      VNum (a + (b - a) * (pos - inject_Z (Qfloor pos)))
  end.

(** Arithmetic and comparison of numeric cells, with a [float64] operand;
    a missing operand gives a missing result, and a comparison with a
    missing operand is false. *)
Definition vsub (a b : value) : value :=
  match as_num a, as_num b with
  | Some x, Some y => VNum (x - y)
  | _, _ => VNA
  end.

Definition vdiv (a b : value) : value :=
  match as_num a, as_num b with
  | Some x, Some y =>
      if Qeq_bool y 0 then (if Qeq_bool x 0 then VNA else VInf) else VNum (x / y)
  | _, _ => VNA
  end.

Definition vgt (a b : value) : bool :=
  match as_num a, as_num b with
  | Some x, Some y => Qltb y x
  | _, _ => false
  end.

(** [.replace(0, pd.NA)] *)
Definition replace_zero (v : value) : value :=
  match v with
  | VNum q => if Qeq_bool q 0 then VNA else v
  | _ => v
  end.

(** [.astype(int)] of a boolean *)
Definition int_of_bool (b : bool) : value := VInt (if b then 1 else 0)%Z.

Local Open Scope Z_scope.

(** An integer as [int64] holds it: arithmetic wraps around. *)
Definition wrap64 (z : Z) : Z := (z + 2 ^ 63) mod 2 ^ 64 - 2 ^ 63.

(** [a * b] for cells of numeric columns: two [int64] cells give an
    [int64] cell, a [float64] operand gives a [float64] cell, a missing
    operand a missing cell.  What the product of other cells is (text, flags,
    timestamps, infinities) is outside the model, which leaves the cell
    missing there. *)
Definition vmul (a b : value) : value :=
  match a, b with
  | VInt x, VInt y => VInt (wrap64 (x * y))
  | _, _ =>
      match as_num a, as_num b with
      | Some x, Some y => VNum (x * y)%Q
      | _, _ => VNA
      end
  end.

(** ** Calendar *)

(** Year, month and day of the day [z] days after 1970-01-01 (proleptic
    Gregorian calendar). *)
Definition civil_from_days (z : Z) : Z * Z * Z :=
  let z := z + 719468 in
  let era := z / 146097 in
  let doe := z - era * 146097 in
  let yoe := (doe - doe / 1460 + doe / 36524 - doe / 146096) / 365 in
  let doy := doe - (365 * yoe + yoe / 4 - yoe / 100) in
  let mp := (5 * doy + 2) / 153 in
  let d := doy - (153 * mp + 2) / 5 + 1 in
  let m := if mp <? 10 then mp + 3 else mp - 9 in
  let y := yoe + era * 400 in
  (if m <=? 2 then y + 1 else y, m, d).

Definition epoch_day (ns : Z) : Z := ns / day_ns.

Definition dt_year (ns : Z) : value :=
  VInt (fst (fst (civil_from_days (epoch_day ns)))).
Definition dt_month (ns : Z) : value :=
  VInt (snd (fst (civil_from_days (epoch_day ns)))).
Definition dt_day (ns : Z) : value :=
  VInt (snd (civil_from_days (epoch_day ns))).
(** Monday is 0; 1970-01-01 was a Thursday. *)
Definition dt_weekday (ns : Z) : value :=
  VInt ((epoch_day ns + 3) mod 7).

(** A [datetime64] column, which the [.dt] accessor requires. *)
Definition date_column (c : string) (df : DataFrame) : Result (list Z) :=
  vs <- column c df ;;
  match traverse as_date vs with
  | Some ts => Ok ts
  | None => Err (TypeError c)
  end.

(** Key and timestamp of a row, for [groupby(by)[date].diff()]. *)
Definition row_key_time (by_ : list string) (date_col : string) (r : Row)
  : option (list value * Z) :=
  match as_date (cell date_col r) with
  | Some t => Some (key_of by_ r, t)
  | None => None
  end.

Definition timed_keys (by_ : list string) (date_col : string) (df : DataFrame)
  : Result (list (list value * Z)) :=
  match find (fun c => negb (has_column c df)) (by_ ++ [date_col]) with
  | Some c => Err (KeyError c)
  | None =>
      match traverse (row_key_time by_ date_col) (rows df) with
      | Some l => Ok l
      | None => Err (TypeError date_col)
      end
  end.

(** [.diff().dt.days] inside a group: nothing for the first row, then the
    whole days between a row and the row before it. *)
Definition diff_days (g : list (list value * Z)) (p : nat) : value :=
  match p with
  | O => VNA
  | S p' =>
      VNum (inject_Z ((snd (nth p g ([], 0)) - snd (nth p' g ([], 0))) / day_ns))
  end.

(** ** Reading the input files ([src/ingest.py]) *)

(** What [pd.read_csv] does with one path. *)
Inductive read_result : Type :=
| ReadOk (df : DataFrame)
| FileNotFound
| ReadError (e : exn).

Fixpoint _load_csv_files (read_csv : string -> read_result) (paths : list string)
  : Result (list DataFrame) :=
  match paths with
  | [] => Ok []
  | csv_path :: paths' =>
      match read_csv csv_path with
      | ReadOk df => frames <- _load_csv_files read_csv paths' ;; Ok (df :: frames)
      | FileNotFound => _load_csv_files read_csv paths'
      | ReadError e => Err e
      end
  end.

(** Labels of [l2] that [l1] does not have yet, appended to [l1]. *)
Definition union_columns (l1 l2 : list string) : list string :=
  fold_left (fun acc c => if existsb (String.eqb c) acc then acc else (acc ++ [c])%list)
            l2 l1.

(** A row over the labels [cols]; a label the row does not have is missing. *)
Definition reindex_row (cols : list string) (r : Row) : Row :=
  map (fun c => (c, cell c r)) cols.

(** [pd.concat(frames, ignore_index=True)]: the union of the columns in
    order of appearance, the rows one frame after the other. *)
Definition concat (frames : list DataFrame) : DataFrame :=
  let cols := fold_left (fun acc df => union_columns acc (columns df)) frames [] in
  frame cols (map (reindex_row cols) (flat_map rows frames)).

(** [csv_files] is [sorted(directory.glob("*.csv"))]. *)
Definition load_insider_csvs (read_csv : string -> read_result)
  (csv_files : list string) : Result DataFrame :=
  frames <- _load_csv_files read_csv csv_files ;;
  match frames with
  | [] => Ok empty_frame
  | _ => Ok (concat frames)
  end.

(** ** Frame operations used by the feature functions *)

Definition zip_with {A B C : Type} (f : A -> B -> C) (l1 : list A) (l2 : list B)
  : list C :=
  map (fun ab => f (fst ab) (snd ab)) (combine l1 l2).

(** [df.columns = [f(col) for col in df.columns]] *)
Definition rename_columns (f : string -> string) (df : DataFrame) : DataFrame :=
  mkDF (map f (columns df))
       (on_rows (map (fun kv => (f (fst kv), snd kv))) (entries df)).

(** [df.dropna(subset=cs)] *)
Definition dropna (subset : list string) (df : DataFrame) : DataFrame :=
  mkDF (columns df)
       (keep_rows (fun r => negb (existsb (fun c => is_na (cell c r)) subset))
                  (entries df)).

(** [df[c] = f(df[c])] *)
Definition apply_column (f : list value -> list value) (c : string)
  (df : DataFrame) : DataFrame :=
  assign c (f (map (cell c) (rows df))) df.

(** [df[df[c].isin(allowed)]] *)
Definition isin (allowed : list string) (v : value) : bool :=
  match v with
  | VStr s => existsb (String.eqb s) allowed
  | _ => false
  end.

Definition keep_isin (c : string) (allowed : list string) (df : DataFrame)
  : DataFrame :=
  mkDF (columns df) (keep_rows (fun r => isin allowed (cell c r)) (entries df)).

(** [df.reset_index(drop=True)] *)
Definition reset_index (df : DataFrame) : DataFrame :=
  frame (columns df) (rows df).

(** [df[c]] as a Series: the cells under the row labels of the frame. *)
Definition column_series (c : string) (df : DataFrame) : Result Series :=
  vs <- column c df ;;
  Ok (combine (map LInt (index df)) vs).

(** [df[c] = s] for a Series [s].  pandas takes the cells of [s] in order
    when [s] has the index of the frame; otherwise it aligns [s] on the
    index of the frame with [s.reindex], which raises when [s] has a label
    twice and leaves a cell missing whose label [s] does not have.  A frame
    without rows receives a Series without cells as an empty column; a
    Series with cells would give the frame its own index, which the program
    never asks for and the model leaves out. *)
Definition setitem (c : string) (s : Series) (df : DataFrame) : Result DataFrame :=
  match entries df with
  | [] =>
      match s with
      | [] => Ok (assign c [] df)
      | _ => Err (Unmodelled "a Series with cells assigned to a frame without rows")
      end
  | _ =>
      if labels_eqb (labels s) (map LInt (index df))
      then Ok (assign c (map snd s) df)
      else if unique (labels s)
      then Ok (assign c (map (fun i => lookup (LInt i) s) (index df)) df)
      else Err (PandasValueError "cannot reindex on an axis with duplicate labels")
  end.

(** [s1 op s2]: cell by cell when the two Series have the same index;
    otherwise both are aligned on the union of their labels, a label of one
    Series alone meeting a missing cell.  The union is modelled for Series
    with unique labels, its labels in the order of [s1] and then [s2]:
    pandas may order them otherwise, which makes no difference to a result
    that is assigned by label. *)
Definition align_op (f : value -> value -> value) (s1 s2 : Series)
  : Result Series :=
  if labels_eqb (labels s1) (labels s2)
  then Ok (combine (labels s1) (zip_with f (map snd s1) (map snd s2)))
  else if unique (labels s1) && unique (labels s2)
  then
    let union :=
      (labels s1
       ++ filter (fun l => negb (existsb (label_eqb l) (labels s1))) (labels s2))%list
    in
    Ok (map (fun l => (l, f (lookup l s1) (lookup l s2))) union)
  else Err (Unmodelled "arithmetic on Series with repeated labels").

(** [series == s] for a string [s] *)
Definition str_eq (s : string) (v : value) : value :=
  match v with
  | VStr t => VBool (String.eqb t s)
  | _ => VBool false
  end.

(** The stages [build_feature_matrix] runs, for the record of the calls it
    makes. *)
Inductive stage : Type :=
| CleanData | BasicFeatures | StatisticalFeatures | DateFeatures.

Definition Traced (A : Type) : Type := (list stage * Result A)%type.

Definition call {A B : Type} (s : stage) (f : A -> Result B) (a : A) : Traced B :=
  ([s], f a).

Definition tbind {A B : Type} (m : Traced A) (k : A -> Traced B) : Traced B :=
  match snd m with
  | Ok a => ((fst m ++ fst (k a))%list, snd (k a))
  | Err e => (fst m, Err e)
  end.

Definition tret {A : Type} (a : A) : Traced A := ([], Ok a).

Definition stage_eqb (s1 s2 : stage) : bool :=
  match s1, s2 with
  | CleanData, CleanData | BasicFeatures, BasicFeatures
  | StatisticalFeatures, StatisticalFeatures | DateFeatures, DateFeatures => true
  | _, _ => false
  end.

(** ** The feature functions ([src/features.py]) *)

Section Features.

(** The square root inside the rolling standard deviation.  The rationals
    have none; it is left open, and the table [add_statistical_features]
    returns is the same for every function in its place
    ([add_statistical_features_any_sqrt]). *)
Variable sqrtQ : Q -> Q.
(** [pd.to_numeric(column, errors="coerce")] and
    [pd.to_datetime(column, errors="coerce")]. *)
Variable to_numeric : list value -> list value.
Variable to_datetime : list value -> list value.
(** [str(x)] for a cell that is neither a string nor missing. *)
Variable repr : value -> string.

(** [str(x)], as [.astype(str)] applies it. *)
Definition astype_str (v : value) : string :=
  match v with
  | VStr s => s
  | VNA => "nan"
  | _ => repr v
  end.

Definition normalise_label (col : string) : string := lower (strip col).

Definition clean_data (df : DataFrame) : Result DataFrame :=
  let cleaned := rename_columns normalise_label df in
  let essential :=
    filter (fun col => has_column col cleaned) ["date"; "shares"; "price"] in
  if (List.length essential <? 3)%nat
  then
    let missing :=
      filter (fun col => negb (existsb (String.eqb col) essential))
             ["date"; "shares"; "price"] in
    Err (MissingColumns missing)
  else
    let cleaned := dropna essential cleaned in
    let cleaned :=
      fold_left (fun acc num_col =>
                   if has_column num_col acc
                   then apply_column to_numeric num_col acc else acc)
                ["shares"; "price"; "value"] cleaned in
    let date_columns := filter (contains "date") (columns cleaned) in
    let cleaned :=
      fold_left (fun acc col => apply_column to_datetime col acc)
                date_columns cleaned in
    let cleaned := dropna essential cleaned in
    transaction_col <- _get_transaction_column cleaned ;;
    let cleaned :=
      apply_column (map (fun v => VStr (title (strip (astype_str v)))))
                   transaction_col cleaned in
    let cleaned := keep_isin transaction_col ["Buy"; "Sale"] cleaned in
    Ok (reset_index cleaned).

Definition _extract_role (text : value) : string :=
  let normalized := lower (astype_str text) in
  if contains "ceo" normalized then "CEO"
  else if contains "cfo" normalized then "CFO"
  else if contains "director" normalized then "Director"
  else if contains "officer" normalized then "Officer"
  else "Other".

Definition add_basic_features (df : DataFrame) : Result DataFrame :=
  let enriched := df in
  transaction_col <- _get_transaction_column enriched ;;
  shares <- column "shares" enriched ;;
  price <- column "price" enriched ;;
  let enriched := assign "trade_value" (zip_with vmul shares price) enriched in
  tx <- column transaction_col enriched ;;
  let enriched := assign "is_buy" (map (str_eq "Buy") tx) enriched in
  tx <- column transaction_col enriched ;;
  let enriched := assign "is_sell" (map (str_eq "Sale") tx) enriched in
  let relationship_col :=
    if has_column "relationship" enriched then Some "relationship"
    else find_column (contains "relationship") enriched in
  let enriched :=
    match relationship_col with
    | Some rc =>
        assign "insider_role"
               (map (fun r => VStr (_extract_role (cell rc r))) (rows enriched))
               enriched
    | None => enriched
    end in
  Ok enriched.

(** [.std()] of a rolling window: undefined below two observations. *)
Definition rolling_std (w : Z) (g : list obs) (p : nat) : value :=
  let xs := map oval (window w g p) in
  if (List.length xs <? 2)%nat then VNA else VNum (sqrtQ (variance xs)).

(** [df.groupby("ticker")["trade_value"].op()], which has the index of
    [df]: the cells in row order. *)
Definition by_ticker (date_col : string) (op : list obs -> nat -> value)
  (df : DataFrame) : Result (list value) :=
  os <- observations ["ticker"] date_col "trade_value" df ;;
  Ok (groupby_apply okey obs0 op os).

(** The cells a grouped rolling operation computes, one for each row that
    has a key, under the timestamp of the row. *)
Definition dated_series (op : list obs -> nat -> value) (os : list obs) : Series :=
  flat_map (fun i =>
              let o := nth i os obs0 in
              if existsb is_na (okey o) then []
              else [(LDate (otime o),
                     op (group_of okey (okey o) os) (pos_in_group okey (okey o) i os))])
           (seq 0 (List.length os)).

(** [df.groupby("ticker").rolling(window, on=date_col)["trade_value"].op()
     .reset_index(level=0, drop=True)].  With [on=date_col] the result is
    indexed by ticker and date; once the ticker level is dropped, the date
    alone is the row label.  The groups come in the order of their keys,
    which is the order of the rows, [df] being sorted by ticker. *)
Definition grouped_rolling (date_col : string) (op : list obs -> nat -> value)
  (df : DataFrame) : Result Series :=
  os <- observations ["ticker"] date_col "trade_value" df ;;
  Ok (dated_series op os).

Definition add_statistical_features (df : DataFrame) : Result DataFrame :=
  date_col <- _get_date_column df ;;
  transaction_col <- _get_transaction_column df ;;
  stats_df <- sort_values ["ticker"; date_col] df ;;
  rolling_7d <- grouped_rolling date_col (rolling_mean (days 7)) stats_df ;;
  rolling_30d <- grouped_rolling date_col (rolling_mean (days 30)) stats_df ;;
  stats_df <- setitem "trade_value_7d_mean" rolling_7d stats_df ;;
  stats_df <- setitem "trade_value_30d_mean" rolling_30d stats_df ;;
  rolling_mean_ <- grouped_rolling date_col (rolling_mean (days 30)) stats_df ;;
  rolling_std_ <- grouped_rolling date_col (rolling_std (days 30)) stats_df ;;
  let rolling_std_ := map (fun e => (fst e, replace_zero (snd e))) rolling_std_ in
  trade_value <- column_series "trade_value" stats_df ;;
  centred <- align_op vsub trade_value rolling_mean_ ;;
  zscore <- align_op vdiv centred rolling_std_ ;;
  stats_df <- setitem "trade_value_zscore" zscore stats_df ;;
  pct_rank <- by_ticker date_col rank_pct stats_df ;;
  let stats_df := assign "trade_value_pct_rank" pct_rank stats_df in
  percentile_95 <-
    by_ticker date_col (fun g _ => quantile (19 # 20) (map oval g)) stats_df ;;
  trade_value <- column "trade_value" stats_df ;;
  let stats_df :=
    assign "unusual_volume"
           (zip_with (fun x p => int_of_bool (vgt x p)) trade_value percentile_95)
           stats_df in
  Ok stats_df.

(** [df[name] = df[date_col].dt.part] *)
Definition assign_dt (name : string) (part : Z -> value) (date_col : string)
  (df : DataFrame) : Result DataFrame :=
  ts <- date_column date_col df ;;
  Ok (assign name (map part ts) df).

Definition add_date_features (df : DataFrame) : Result DataFrame :=
  let dated_df := df in
  date_col <- _get_date_column dated_df ;;
  let insider_col := _get_insider_column dated_df in
  dated_df <- assign_dt "year" dt_year date_col dated_df ;;
  dated_df <- assign_dt "month" dt_month date_col dated_df ;;
  dated_df <- assign_dt "day" dt_day date_col dated_df ;;
  dated_df <- assign_dt "weekday" dt_weekday date_col dated_df ;;
  match insider_col with
  | Some insider_col =>
      if has_column "ticker" dated_df then
        dated_df <- sort_values [insider_col; "ticker"; date_col] dated_df ;;
        tk <- timed_keys [insider_col; "ticker"] date_col dated_df ;;
        Ok (assign "days_since_last_trade"
                   (groupby_apply fst ([], 0) diff_days tk) dated_df)
      else Ok (assign_scalar "days_since_last_trade" VNA dated_df)
  | None => Ok (assign_scalar "days_since_last_trade" VNA dated_df)
  end.

Definition drop_list : list string :=
  ["relationship"; "insider"; "insider_name"; "reporting_owner"; "owner";
   "remarks"].

(** The body of [build_feature_matrix] below the call of
    [load_insider_csvs], whose result is [raw_df] ([None] for Python's
    [None]).  The first component of the result lists the stages that were
    called, in order. *)
Definition build_from (raw_df : option DataFrame) : Traced DataFrame :=
  match raw_df with
  | None => tret empty_frame
  | Some raw =>
      if empty raw then tret raw
      else
        tbind (call CleanData clean_data raw) (fun df =>
        tbind (call BasicFeatures add_basic_features df) (fun df =>
        tbind (call StatisticalFeatures add_statistical_features df) (fun df =>
        tbind (call DateFeatures add_date_features df) (fun df =>
        let existing_drop_cols :=
          filter (fun col => has_column col df) drop_list in
        match existing_drop_cols with
        | [] => tret df
        | _ => tret (drop_columns existing_drop_cols df)
        end))))
  end.

Definition build_feature_matrix (read_csv : string -> read_result)
  (csv_files : list string) : Traced DataFrame :=
  match load_insider_csvs read_csv csv_files with
  | Ok raw_df => build_from (Some raw_df)
  | Err e => ([], Err e)
  end.

End Features.

(** ** Reading a feature table *)

Definition ticker_of (r : Row) : value := cell "ticker" r.

Definition time_of (date_col : string) (r : Row) : Z :=
  match cell date_col r with VDate t => t | _ => 0 end.

Definition trade_value_of (r : Row) : Q :=
  match as_num (cell "trade_value" r) with Some q => q | None => 0%Q end.

(** The observation [row_obs] reads off a row of the right dtypes. *)
Definition to_obs (by_ : list string) (date_col : string) (r : Row) : obs :=
  mkObs (key_of by_ r) (time_of date_col r) (trade_value_of r).

(** Rows of one entity (ticker) group. *)
Definition same_entity (r r' : Row) : bool :=
  keys_eqb [ticker_of r] [ticker_of r'].

Definition entity_group (table : list Row) (r : Row) : list Row :=
  filter (same_entity r) table.

(** [r'] is in the group of [r] and its timestamp lies in the window
    (t - w, t] that ends at the timestamp t of [r]. *)
Definition in_trailing_window (date_col : string) (w : Z) (r r' : Row) : bool :=
  same_entity r r'
  && (time_of date_col r - w <? time_of date_col r')
  && (time_of date_col r' <=? time_of date_col r).

(** The window of the specification: every row of the table that is in
    the trailing window of row [i]. *)
Definition spec_window (date_col : string) (w : Z) (table : list Row) (i : nat)
  : list Row :=
  filter (in_trailing_window date_col w (nth i table [])) table.

(** The rows in the trailing window of row [i] among row [i] and the rows
    in front of it. *)
Definition trailing_rows (date_col : string) (w : Z) (table : list Row) (i : nat)
  : list Row :=
  filter (in_trailing_window date_col w (nth i table [])) (firstn (S i) table).

(** Rows of the group of [r] with a smaller, respectively the same,
    [trade_value]. *)
Definition count_below (table : list Row) (r : Row) : nat :=
  List.length (filter (fun r' => Qltb (trade_value_of r') (trade_value_of r))
                      (entity_group table r)).

Definition count_equal (table : list Row) (r : Row) : nat :=
  List.length (filter (fun r' => Qeq_bool (trade_value_of r') (trade_value_of r))
                      (entity_group table r)).

Definition Qnat (n : nat) : Q := inject_Z (Z.of_nat n).

(** The percentile rank as the specification writes it. *)
Definition spec_pct_rank (table : list Row) (r : Row) : Q :=
  ((Qnat (count_below table r) + (1 # 2) * Qnat (count_equal table r))
   / Qlen (entity_group table r))%Q.

(** The percentile rank with average ranks: the rows equal to [r] occupy
    the ranks below + 1 .. below + equal, whose mean is
    below + (equal + 1) / 2. *)
Definition average_pct_rank (table : list Row) (r : Row) : Q :=
  ((Qnat (count_below table r) + (1 # 2) * (Qnat (count_equal table r) + 1))
   / Qlen (entity_group table r))%Q.

(** The 95th percentile of [trade_value] over the whole group of [r]. *)
Definition percentile_95_of (table : list Row) (r : Row) : value :=
  quantile (19 # 20) (map trade_value_of (entity_group table r)).

(** Rows of one (actor, entity) group, for the actor column [ic]. *)
Definition same_actor_entity (ic : string) (r r' : Row) : bool :=
  keys_eqb (key_of [ic; "ticker"] r) (key_of [ic; "ticker"] r').

(** The rows of the group of row [i] that stand in front of it. *)
Definition earlier_trades (ic : string) (table : list Row) (i : nat) : list Row :=
  filter (same_actor_entity ic (nth i table [])) (firstn i table).

(** Whole days from [r_prev] to [r]. *)
Definition gap_days (date_col : string) (r_prev r : Row) : value :=
  VNum (inject_Z ((time_of date_col r - time_of date_col r_prev) / day_ns)).

(** Nothing for the first row of a group, then the days since the row of
    the group just in front. *)
Definition expected_gap (ic date_col : string) (table : list Row) (i : nat)
  : value :=
  match earlier_trades ic table i with
  | [] => VNA
  | earlier => gap_days date_col (last earlier []) (nth i table [])
  end.

(** The calendar columns, which depend on the row alone. *)
Definition with_calendar (dc : string) (r : Row) : Row :=
  set_cell "weekday" (dt_weekday (time_of dc r))
    (set_cell "day" (dt_day (time_of dc r))
       (set_cell "month" (dt_month (time_of dc r))
          (set_cell "year" (dt_year (time_of dc r)) r))).

(** The specification's [SchemaError]: a required column is absent. *)
Definition is_schema_error (e : exn) : bool :=
  match e with
  | ValueError _ | MissingColumns _ | KeyError _ => true
  | PandasValueError _ | TypeError _ | Unmodelled _ => false
  end.

(** An integer square root on the rationals, one possible [sqrtQ]. *)
Definition sqrt_floor (q : Q) : Q := Z.sqrt (Qnum q * Zpos (Qden q)) # Qden q.

(** * Properties *)

(** ** Comparisons that order *)

(** A comparison function that behaves as a total preorder. *)
Record ordering {A : Type} (cmp : A -> A -> comparison) : Prop := {
  ord_refl : forall x, cmp x x = Eq;
  ord_sym : forall x y, cmp y x = CompOpp (cmp x y);
  ord_lt_trans : forall x y z, cmp x y = Lt -> cmp y z = Lt -> cmp x z = Lt;
  ord_eq_compat : forall x y z, cmp x y = Eq -> cmp x z = cmp y z
}.

Lemma ord_eq_sym {A} (cmp : A -> A -> comparison) (H : ordering cmp) x y :
  cmp x y = Eq -> cmp y x = Eq.
Proof. intros E. rewrite (ord_sym _ H x y), E. reflexivity. Qed.

Lemma ord_eq_compat_r {A} (cmp : A -> A -> comparison) (H : ordering cmp) x y z :
  cmp x y = Eq -> cmp z x = cmp z y.
Proof.
  intros E. rewrite (ord_sym _ H x z), (ord_sym _ H y z).
  f_equal. apply (ord_eq_compat _ H); exact E.
Qed.

Lemma ord_le_trans {A} (cmp : A -> A -> comparison) (H : ordering cmp) x y z :
  cmp x y <> Gt -> cmp y z <> Gt -> cmp x z <> Gt.
Proof.
  intros Hxy Hyz.
  destruct (cmp x y) eqn:Exy; try congruence.
  - rewrite (ord_eq_compat _ H x y z Exy). exact Hyz.
  - destruct (cmp y z) eqn:Eyz; try congruence.
    + rewrite <- (ord_eq_compat_r _ H y z x Eyz), Exy. discriminate.
    + rewrite (ord_lt_trans _ H x y z Exy Eyz). discriminate.
Qed.

Lemma Z_ordering : ordering Z.compare.
Proof.
  split.
  - apply Z.compare_refl.
  - intros x y. apply Z.compare_antisym.
  - intros x y z. rewrite !Z.compare_lt_iff. lia.
  - intros x y z E. apply Z.compare_eq in E. now subst.
Qed.

Lemma Q_ordering : ordering Qcompare.
Proof.
  split.
  - intros x. apply Qeq_alt. reflexivity.
  - intros x y. symmetry. apply Qcompare_antisym.
  - intros x y z. rewrite <- !Qlt_alt. apply Qlt_trans.
  - intros x y z E. apply Qeq_alt in E. now rewrite E.
Qed.

Lemma ascii_ordering : ordering Ascii.compare.
Proof.
  split.
  - intros x. unfold Ascii.compare. apply N.compare_refl.
  - intros x y. apply Ascii.compare_antisym.
  - intros x y z. unfold Ascii.compare. rewrite !N.compare_lt_iff. lia.
  - intros x y z E. apply Ascii.compare_eq_iff in E. now subst.
Qed.

Lemma string_ordering : ordering String.compare.
Proof.
  split.
  - induction x as [|a x IH]; simpl; [reflexivity|].
    now rewrite (ord_refl _ ascii_ordering).
  - intros x y. apply String.compare_antisym.
  - induction x as [|a x IH]; intros [|b y] [|c z]; simpl; try congruence.
    destruct (Ascii.compare a b) eqn:Eab; try congruence.
    + apply Ascii.compare_eq_iff in Eab. subst b.
      destruct (Ascii.compare a c); try congruence. apply IH.
    + destruct (Ascii.compare b c) eqn:Ebc; try congruence.
      * apply Ascii.compare_eq_iff in Ebc. subst c. now rewrite Eab.
      * now rewrite (ord_lt_trans _ ascii_ordering a b c Eab Ebc).
  - intros x y z E. apply String.compare_eq_iff in E. now subst.
Qed.

Lemma bool_ordering : ordering Bool.compare.
Proof.
  split.
  - now intros [].
  - now intros [] [].
  - now intros [] [] [].
  - now intros [] [] [].
Qed.

Lemma value_ordering : ordering value_cmp.
Proof.
  split.
  - intros []; try reflexivity; simpl.
    + apply (ord_refl _ string_ordering).
    + apply (ord_refl _ Q_ordering).
    + apply Z.compare_refl.
    + apply Z.compare_refl.
    + apply (ord_refl _ bool_ordering).
  - intros [] []; try reflexivity; simpl.
    + apply (ord_sym _ string_ordering).
    + apply (ord_sym _ Q_ordering).
    + apply Z.compare_antisym.
    + apply Z.compare_antisym.
    + apply (ord_sym _ bool_ordering).
  - intros [] [] []; try (cbn; congruence); simpl.
    + apply (ord_lt_trans _ string_ordering).
    + apply (ord_lt_trans _ Q_ordering).
    + apply (ord_lt_trans _ Z_ordering).
    + apply (ord_lt_trans _ Z_ordering).
    + apply (ord_lt_trans _ bool_ordering).
  - intros [] [] []; try (cbn; congruence); simpl.
    + apply (ord_eq_compat _ string_ordering).
    + apply (ord_eq_compat _ Q_ordering).
    + apply (ord_eq_compat _ Z_ordering).
    + apply (ord_eq_compat _ Z_ordering).
    + apply (ord_eq_compat _ bool_ordering).
Qed.

Lemma keys_ordering : ordering keys_cmp.
Proof.
  pose proof value_ordering as V.
  split.
  - induction x as [|a x IH]; simpl; [reflexivity|].
    now rewrite (ord_refl _ V).
  - induction x as [|a x IH]; intros [|b y]; simpl; try reflexivity.
    rewrite (ord_sym _ V a b).
    destruct (value_cmp a b); simpl; [apply IH | reflexivity | reflexivity].
  - induction x as [|a x IH]; intros [|b y] [|c z]; simpl; try congruence.
    destruct (value_cmp a b) eqn:Eab; try congruence.
    + rewrite (ord_eq_compat _ V a b c Eab).
      destruct (value_cmp b c); try congruence. apply IH.
    + destruct (value_cmp b c) eqn:Ebc; try congruence.
      * now rewrite <- (ord_eq_compat_r _ V b c a Ebc), Eab.
      * now rewrite (ord_lt_trans _ V a b c Eab Ebc).
  - induction x as [|a x IH]; intros [|b y] [|c z]; simpl; try congruence.
    destruct (value_cmp a b) eqn:Eab; try congruence.
    intros E. rewrite (ord_eq_compat _ V a b c Eab).
    destruct (value_cmp b c); try reflexivity. now apply IH.
Qed.

Lemma keys_eqb_refl k : keys_eqb k k = true.
Proof. unfold keys_eqb. now rewrite (ord_refl _ keys_ordering). Qed.

Lemma keys_eqb_sym k1 k2 : keys_eqb k1 k2 = keys_eqb k2 k1.
Proof.
  unfold keys_eqb. rewrite (ord_sym _ keys_ordering k2 k1).
  now destruct (keys_cmp k2 k1).
Qed.

Lemma keys_eqb_compat k1 k2 k : keys_eqb k1 k2 = true -> keys_eqb k1 k = keys_eqb k2 k.
Proof.
  unfold keys_eqb. intros E.
  destruct (keys_cmp k1 k2) eqn:C; try discriminate.
  now rewrite (ord_eq_compat _ keys_ordering k1 k2 k C).
Qed.

Lemma keys_leb_total k1 k2 : keys_leb k1 k2 = true \/ keys_leb k2 k1 = true.
Proof.
  unfold keys_leb. rewrite (ord_sym _ keys_ordering k1 k2).
  destruct (keys_cmp k1 k2); simpl; auto.
Qed.

Lemma keys_leb_trans k1 k2 k3 :
  keys_leb k1 k2 = true -> keys_leb k2 k3 = true -> keys_leb k1 k3 = true.
Proof.
  unfold keys_leb. intros H1 H2.
  assert (keys_cmp k1 k3 <> Gt).
  { apply (ord_le_trans _ keys_ordering k1 k2 k3).
    - destruct (keys_cmp k1 k2); congruence.
    - destruct (keys_cmp k2 k3); congruence. }
  destruct (keys_cmp k1 k3); congruence.
Qed.

(** ** Stable sorting *)

Section SortingFacts.
Context {A : Type} (leb : A -> A -> bool).
Hypothesis leb_total : forall x y, leb x y = true \/ leb y x = true.
Hypothesis leb_trans :
  forall x y z, leb x y = true -> leb y z = true -> leb x z = true.

Let le (x y : A) : Prop := leb x y = true.

Lemma insert_sorted_perm x l : Permutation (insert_sorted leb x l) (x :: l).
Proof.
  induction l as [|y l IH]; simpl; [reflexivity|].
  destruct (leb x y); [reflexivity|].
  rewrite IH. apply perm_swap.
Qed.

Lemma stable_sort_perm l : Permutation (stable_sort leb l) l.
Proof.
  induction l as [|x l IH]; simpl; [reflexivity|].
  rewrite insert_sorted_perm. now constructor.
Qed.

Lemma stable_sort_length l : List.length (stable_sort leb l) = List.length l.
Proof. apply Permutation_length, stable_sort_perm. Qed.

Lemma insert_sorted_sorted x l :
  StronglySorted le l -> StronglySorted le (insert_sorted leb x l).
Proof.
  induction 1 as [|y l Hs IH Hy]; simpl.
  - repeat constructor.
  - destruct (leb x y) eqn:E.
    + constructor; [now constructor|].
      constructor; [exact E|].
      eapply Forall_impl; [|exact Hy]. intros z Hz. now apply leb_trans with y.
    + constructor; [exact IH|].
      eapply Permutation_Forall; [symmetry; apply insert_sorted_perm|].
      constructor; [|exact Hy].
      destruct (leb_total x y) as [H|H]; [congruence|exact H].
Qed.

Lemma stable_sort_sorted l : StronglySorted le (stable_sort leb l).
Proof.
  induction l as [|x l IH]; simpl; [constructor|].
  now apply insert_sorted_sorted.
Qed.

(** Sorting leaves a sorted list as it is. *)
Lemma stable_sort_id l : StronglySorted le l -> stable_sort leb l = l.
Proof.
  induction 1 as [|x l Hs IH Hx]; simpl; [reflexivity|].
  rewrite IH. destruct l as [|y l]; simpl; [reflexivity|].
  inversion Hx as [|? ? Hxy _]; subst. unfold le in Hxy. now rewrite Hxy.
Qed.


End SortingFacts.

(** ** Rows and frames *)

(** What the operations on frames do to the rows, whatever the labels. *)
Lemma rows_on_rows f es : map snd (on_rows f es) = map f (map snd es).
Proof. unfold on_rows. rewrite !map_map. reflexivity. Qed.

Lemma index_on_rows f es : map fst (on_rows f es) = map fst es.
Proof. unfold on_rows. rewrite map_map. reflexivity. Qed.

Lemma rows_keep_rows p es : map snd (keep_rows p es) = filter p (map snd es).
Proof.
  unfold keep_rows. induction es as [|e es IH]; simpl; [reflexivity|].
  destruct (p (snd e)); simpl; now rewrite IH.
Qed.

Lemma length_range_index n : List.length (range_index n) = n.
Proof. unfold range_index. now rewrite length_map, length_seq. Qed.

Lemma map_snd_combine {A B} (l1 : list A) (l2 : list B) :
  List.length l1 = List.length l2 -> map snd (combine l1 l2) = l2.
Proof.
  revert l2. induction l1 as [|a l1 IH]; intros [|b l2] L; simpl in *;
    try discriminate; [reflexivity|].
  f_equal. apply IH. lia.
Qed.

Lemma map_fst_combine {A B} (l1 : list A) (l2 : list B) :
  List.length l1 = List.length l2 -> map fst (combine l1 l2) = l1.
Proof.
  revert l2. induction l1 as [|a l1 IH]; intros [|b l2] L; simpl in *;
    try discriminate; [reflexivity|].
  f_equal. apply IH. lia.
Qed.

Lemma rows_frame cols rs : rows (frame cols rs) = rs.
Proof.
  unfold frame, rows. cbn [entries].
  apply map_snd_combine, length_range_index.
Qed.

Lemma index_frame cols rs : index (frame cols rs) = range_index (List.length rs).
Proof.
  unfold frame, index. cbn [entries].
  apply map_fst_combine, length_range_index.
Qed.

Lemma columns_frame cols rs : columns (frame cols rs) = cols.
Proof. reflexivity. Qed.

Lemma length_rows df : List.length (rows df) = List.length (entries df).
Proof. unfold rows. apply length_map. Qed.

Lemma length_index df : List.length (index df) = List.length (rows df).
Proof. unfold index, rows. now rewrite !length_map. Qed.

Lemma rows_assign c s df :
  rows (assign c s df)
  = map (fun rv => set_cell c (snd rv) (fst rv)) (combine (rows df) s).
Proof.
  unfold assign, rows. cbn [entries]. rewrite map_map. cbn [snd fst].
  generalize (entries df). intros es. revert s.
  induction es as [|e es IH]; intros [|v s]; simpl; try reflexivity.
  now rewrite IH.
Qed.

Lemma index_assign c s df :
  List.length s = List.length (rows df) -> index (assign c s df) = index df.
Proof.
  unfold assign, index, rows. cbn [entries]. rewrite map_map. cbn [fst].
  rewrite length_map. generalize (entries df). intros es. revert s.
  induction es as [|e es IH]; intros [|v s] L; simpl in *; try discriminate;
    [reflexivity|].
  f_equal. apply IH. lia.
Qed.

Lemma rows_drop_columns cs df :
  rows (drop_columns cs df) = map (fun r => fold_right del_cell r cs) (rows df).
Proof. unfold drop_columns, rows. cbn [entries]. apply rows_on_rows. Qed.

Lemma rows_rename_columns f df :
  rows (rename_columns f df)
  = map (map (fun kv => (f (fst kv), snd kv))) (rows df).
Proof. unfold rename_columns, rows. cbn [entries]. apply rows_on_rows. Qed.

Lemma rows_dropna subset df :
  rows (dropna subset df)
  = filter (fun r => negb (existsb (fun c => is_na (cell c r)) subset)) (rows df).
Proof. unfold dropna, rows. cbn [entries]. apply rows_keep_rows. Qed.

Lemma rows_keep_isin c allowed df :
  rows (keep_isin c allowed df)
  = filter (fun r => isin allowed (cell c r)) (rows df).
Proof. unfold keep_isin, rows. cbn [entries]. apply rows_keep_rows. Qed.

Lemma rows_reset_index df : rows (reset_index df) = rows df.
Proof. apply rows_frame. Qed.

Lemma cell_set_cell_same c v r : cell c (set_cell c v r) = v.
Proof.
  induction r as [|[k w] r IH]; simpl.
  - now rewrite String.eqb_refl.
  - destruct (String.eqb k c) eqn:E; simpl; now rewrite E.
Qed.

Lemma cell_set_cell_other c c' v r : c <> c' -> cell c (set_cell c' v r) = cell c r.
Proof.
  intros N. induction r as [|[k w] r IH]; simpl.
  - apply String.eqb_neq in N. rewrite String.eqb_sym in N. now rewrite N.
  - destruct (String.eqb k c') eqn:E; simpl.
    + apply String.eqb_eq in E. subst k.
      assert (String.eqb c' c = false) as -> by (apply String.eqb_neq; congruence).
      reflexivity.
    + now rewrite IH.
Qed.

Lemma key_of_set_cell by_ c v r :
  ~ In c by_ -> key_of by_ (set_cell c v r) = key_of by_ r.
Proof.
  intros N. unfold key_of. apply map_ext_in. intros a Ia.
  apply cell_set_cell_other. intros ->. contradiction.
Qed.

Lemma has_column_assign c c' s df :
  has_column c (assign c' s df) = has_column c df || String.eqb c c'.
Proof.
  unfold assign; simpl; unfold has_column.
  destruct (existsb (String.eqb c') (columns df)) eqn:E.
  - simpl. destruct (String.eqb c c') eqn:E'.
    + apply String.eqb_eq in E'. subst. now rewrite E.
    + now rewrite orb_false_r.
  - simpl. rewrite existsb_app. simpl. now rewrite orb_false_r.
Qed.

Lemma rows_assign_length c s df :
  List.length s = List.length (rows df) ->
  List.length (rows (assign c s df)) = List.length (rows df).
Proof.
  intros L. rewrite rows_assign, length_map, length_combine. lia.
Qed.

Lemma nth_map_lt {A B : Type} (f : A -> B) l i d d' :
  (i < List.length l)%nat -> nth i (map f l) d = f (nth i l d').
Proof.
  revert i. induction l as [|a l IH]; intros [|i] H; simpl in *; try lia.
  - reflexivity.
  - apply IH. lia.
Qed.

Lemma nth_rows_assign c s df i :
  List.length s = List.length (rows df) -> (i < List.length (rows df))%nat ->
  nth i (rows (assign c s df)) [] = set_cell c (nth i s VNA) (nth i (rows df) []).
Proof.
  intros L Hi. rewrite rows_assign.
  rewrite nth_map_lt with (d' := (([] : Row), VNA)) by (rewrite length_combine; lia).
  rewrite combine_nth by (symmetry; exact L). reflexivity.
Qed.

Lemma map_cell_assign_other c c' s df :
  c <> c' -> List.length s = List.length (rows df) ->
  map (cell c) (rows (assign c' s df)) = map (cell c) (rows df).
Proof.
  intros N L. rewrite rows_assign, map_map.
  revert s L. induction (rows df) as [|r l IH]; intros [|v s] L; simpl in *;
    try discriminate; [reflexivity|].
  rewrite cell_set_cell_other by exact N. f_equal. apply IH. lia.
Qed.

Lemma map_cell_assign_same c s df :
  List.length s = List.length (rows df) ->
  map (cell c) (rows (assign c s df)) = s.
Proof.
  intros L. rewrite rows_assign, map_map.
  revert s L. induction (rows df) as [|r l IH]; intros [|v s] L; simpl in *;
    try discriminate; [reflexivity|].
  rewrite cell_set_cell_same. f_equal. apply IH. lia.
Qed.

(** ** Typed views *)

Lemma traverse_map {A B : Type} (f : A -> option B) (g : A -> B) l :
  (forall a b, In a l -> f a = Some b -> b = g a) ->
  forall bs, traverse f l = Some bs -> bs = map g l.
Proof.
  induction l as [|a l IH]; intros Hfg bs; simpl.
  - intros [= <-]. reflexivity.
  - destruct (f a) as [b|] eqn:Ea; [|discriminate].
    destruct (traverse f l) as [bs'|] eqn:El; [|discriminate].
    intros [= <-]. f_equal.
    + apply Hfg; [now left | exact Ea].
    + apply IH; [|reflexivity]. intros a' b' I. apply Hfg. now right.
Qed.

Lemma traverse_some_iff {A B : Type} (f : A -> option B) l :
  (exists bs, traverse f l = Some bs) <-> Forall (fun a => exists b, f a = Some b) l.
Proof.
  induction l as [|a l IH]; simpl.
  - split; [constructor | now exists []].
  - split.
    + intros [bs H]. destruct (f a) as [b|] eqn:Ea; [|discriminate].
      destruct (traverse f l) as [bs'|] eqn:El; [|discriminate].
      constructor; [now exists b | apply IH; now exists bs'].
    + intros H. inversion H as [|? ? [b Hb] Hl]; subst.
      apply IH in Hl. destruct Hl as [bs Hbs]. rewrite Hb, Hbs. now eexists.
Qed.

Lemma traverse_ext_in {A B : Type} (f g : A -> option B) l :
  (forall a, In a l -> f a = g a) -> traverse f l = traverse g l.
Proof.
  induction l as [|a l IH]; intros H; simpl; [reflexivity|].
  rewrite (H a) by now left. rewrite IH; [reflexivity|].
  intros a' I. apply H. now right.
Qed.

Lemma row_obs_to_obs by_ dc r o :
  row_obs by_ dc "trade_value" r = Some o -> o = to_obs by_ dc r.
Proof.
  unfold row_obs, to_obs, time_of, trade_value_of.
  destruct (cell dc r); simpl; try discriminate.
  destruct (as_num (cell "trade_value" r)); simpl; try discriminate.
  now intros [= <-].
Qed.

Lemma row_obs_typed by_ dc r o :
  row_obs by_ dc "trade_value" r = Some o ->
  cell dc r = VDate (time_of dc r)
  /\ as_num (cell "trade_value" r) = Some (trade_value_of r).
Proof.
  unfold row_obs, time_of, trade_value_of.
  destruct (cell dc r); simpl; try discriminate.
  destruct (as_num (cell "trade_value" r)); simpl; try discriminate. auto.
Qed.

Lemma observations_inv by_ dc df os :
  observations by_ dc "trade_value" df = Ok os ->
  os = map (to_obs by_ dc) (rows df)
  /\ Forall (fun r => cell dc r = VDate (time_of dc r)
                      /\ as_num (cell "trade_value" r) = Some (trade_value_of r))
            (rows df)
  /\ has_column "trade_value" df = true
  /\ forallb (fun c => has_column c df) (by_ ++ [dc]) = true.
Proof.
  unfold observations.
  destruct (find _ (by_ ++ [dc])%list) eqn:F; [discriminate|].
  destruct (traverse as_date _); [|discriminate].
  destruct (has_column "trade_value" df) eqn:Hv; [|discriminate].
  destruct (traverse (row_obs _ _ _) _) as [os'|] eqn:T; [|discriminate].
  intros [= <-]. repeat split.
  - eapply traverse_map; [|exact T]. intros a b _. apply row_obs_to_obs.
  - assert (exists bs, traverse (row_obs by_ dc "trade_value") (rows df) = Some bs)
      as E by now exists os'.
    apply traverse_some_iff in E. eapply Forall_impl; [|exact E].
    intros r [o Ho]. eapply row_obs_typed; exact Ho.
  - apply forallb_forall. intros c Ic.
    pose proof (find_none _ _ F c Ic) as N. now apply negb_false_iff in N.
Qed.

Lemma traverse_rows_assign {B : Type} (f : Row -> option B) c s df :
  (forall r v, f (set_cell c v r) = f r) ->
  List.length s = List.length (rows df) ->
  traverse f (rows (assign c s df)) = traverse f (rows df).
Proof.
  intros Hf. rewrite rows_assign.
  revert s. induction (rows df) as [|r l IH]; intros [|v s] L; simpl in *;
    try discriminate; [reflexivity|].
  rewrite Hf, IH by lia. reflexivity.
Qed.

Lemma find_missing_assign cs c s df :
  ~ In c cs ->
  find (fun x => negb (has_column x (assign c s df))) cs
  = find (fun x => negb (has_column x df)) cs.
Proof.
  intros N. induction cs as [|x cs IH]; simpl; [reflexivity|].
  rewrite has_column_assign.
  assert (String.eqb x c = false) as ->
    by (apply String.eqb_neq; intros ->; apply N; now left).
  rewrite orb_false_r, IH; [reflexivity|]. intros I. apply N. now right.
Qed.

(** Assigning another column does not change what the grouped operations
    read. *)
Lemma observations_assign by_ dc c s df :
  ~ In c by_ -> c <> dc -> c <> "trade_value" ->
  List.length s = List.length (rows df) ->
  observations by_ dc "trade_value" (assign c s df)
  = observations by_ dc "trade_value" df.
Proof.
  intros Nb Nd Nv L. unfold observations.
  rewrite find_missing_assign
    by (rewrite in_app_iff; simpl; intros [I|[I|[]]]; [auto | congruence]).
  rewrite map_cell_assign_other by (auto || congruence).
  rewrite has_column_assign.
  assert (String.eqb "trade_value" c = false) as ->
    by (apply String.eqb_neq; congruence).
  rewrite orb_false_r.
  rewrite traverse_rows_assign; [reflexivity| |exact L].
  intros r v. unfold row_obs.
  rewrite !cell_set_cell_other by congruence.
  now rewrite key_of_set_cell.
Qed.

(** ** Grouped operations *)

Section GroupByFacts.
Context {A : Type} (key : A -> list value) (d : A).

Lemma groupby_apply_length op l :
  List.length (groupby_apply key d op l) = List.length l.
Proof. unfold groupby_apply. now rewrite length_map, length_seq. Qed.

Lemma groupby_apply_nth op l i :
  (i < List.length l)%nat ->
  nth i (groupby_apply key d op l) VNA
  = if existsb is_na (key (nth i l d)) then VNA
    else op (group_of key (key (nth i l d)) l)
            (pos_in_group key (key (nth i l d)) i l).
Proof.
  intros Hi. unfold groupby_apply.
  rewrite nth_map_lt with (d' := O) by now rewrite length_seq.
  now rewrite seq_nth.
Qed.

(** The place of an element in its group points at the element. *)
Lemma firstn_filter (f : A -> bool) l i :
  firstn (List.length (filter f (firstn i l))) (filter f l) = filter f (firstn i l).
Proof.
  revert i. induction l as [|a l IH]; intros [|i]; simpl; try reflexivity.
  destruct (f a); simpl; now rewrite IH.
Qed.

Lemma firstn_S_filter (f : A -> bool) l i :
  (i < List.length l)%nat -> f (nth i l d) = true ->
  firstn (S (List.length (filter f (firstn i l)))) (filter f l)
  = filter f (firstn (S i) l).
Proof.
  revert i. induction l as [|a l IH]; intros [|i] Hi Hf; simpl in *; try lia.
  - now rewrite Hf.
  - destruct (f a); simpl; rewrite <- IH by (auto; lia); reflexivity.
Qed.

Lemma nth_filter_pos (f : A -> bool) l i :
  (i < List.length l)%nat -> f (nth i l d) = true ->
  nth (List.length (filter f (firstn i l))) (filter f l) d = nth i l d.
Proof.
  revert i. induction l as [|a l IH]; intros [|i] Hi Hf; simpl in *; try lia.
  - now rewrite Hf.
  - destruct (f a); simpl; apply IH; auto; lia.
Qed.

Lemma pos_in_group_lt k l i :
  (i < List.length l)%nat -> same_key key k (nth i l d) = true ->
  (pos_in_group key k i l < List.length (group_of key k l))%nat.
Proof.
  unfold pos_in_group, group_of. generalize (same_key key k) as f. intros f.
  revert i. induction l as [|a l IH]; intros [|i] Hi Hf; simpl in *; try lia.
  - rewrite Hf. simpl. lia.
  - specialize (IH i ltac:(lia) Hf). destruct (f a); simpl; lia.
Qed.
End GroupByFacts.

(** ** The windowed statistics *)

Lemma get_date_column_contains df dc :
  _get_date_column df = Ok dc -> contains "date" dc = true.
Proof.
  unfold _get_date_column. destruct (has_column "date" df).
  - now intros [= <-].
  - unfold find_column. destruct (find _ _) as [col|] eqn:F; [|discriminate].
    intros [= <-]. now apply find_some in F.
Qed.

Lemma zip_with_length {A B C : Type} (f : A -> B -> C) l1 l2 :
  List.length (zip_with f l1 l2) = Nat.min (List.length l1) (List.length l2).
Proof. unfold zip_with. now rewrite length_map, length_combine. Qed.

Lemma zip_with_nth {A B C : Type} (f : A -> B -> C) l1 l2 i d1 d2 d :
  (i < List.length l1)%nat -> List.length l1 = List.length l2 ->
  nth i (zip_with f l1 l2) d = f (nth i l1 d1) (nth i l2 d2).
Proof.
  intros Hi L. unfold zip_with.
  rewrite nth_map_lt with (d' := (d1, d2)) by (rewrite length_combine; lia).
  now rewrite combine_nth.
Qed.

Lemma column_assign_other c c' s df :
  c <> c' -> List.length s = List.length (rows df) ->
  column c (assign c' s df) = column c df.
Proof.
  intros N L. unfold column. rewrite has_column_assign.
  assert (String.eqb c c' = false) as -> by now apply String.eqb_neq.
  rewrite orb_false_r, map_cell_assign_other by assumption. reflexivity.
Qed.

Lemma column_inv c df vs :
  column c df = Ok vs -> vs = map (cell c) (rows df) /\ has_column c df = true.
Proof.
  unfold column. destruct (has_column c df); [|discriminate].
  now intros [= <-].
Qed.

(** ** Series and their alignment *)

Definition is_date_label (l : label) : bool :=
  match l with LDate _ => true | LInt _ => false end.

Definition is_int_label (l : label) : bool :=
  match l with LInt _ => true | LDate _ => false end.

(** Every cell of the Series is missing. *)
Definition all_na (s : Series) : Prop := Forall (fun e => snd e = VNA) s.

Lemma label_eqb_eq a b : label_eqb a b = true <-> a = b.
Proof.
  destruct a, b; simpl; rewrite ?Z.eqb_eq; split; congruence.
Qed.

Lemma label_eqb_kinds a b :
  is_int_label a = true -> is_date_label b = true -> label_eqb a b = false.
Proof. destruct a, b; simpl; congruence. Qed.

Lemma label_eqb_sym a b : label_eqb a b = label_eqb b a.
Proof. destruct a, b; simpl; try reflexivity; apply Z.eqb_sym. Qed.

Lemma lookup_in l s : lookup l s = VNA \/ exists e, In e s /\ lookup l s = snd e.
Proof.
  unfold lookup. destruct (find _ s) as [e|] eqn:F; [|now left].
  right. exists e. split; [|reflexivity]. now apply find_some in F.
Qed.

Lemma lookup_absent l s :
  existsb (label_eqb l) (labels s) = false -> lookup l s = VNA.
Proof.
  intros H. unfold lookup. destruct (find _ s) as [e|] eqn:F; [|reflexivity].
  apply find_some in F. destruct F as [I E].
  assert (X : existsb (label_eqb l) (labels s) = true).
  { apply existsb_exists. exists (fst e). split; [now apply in_map|].
    now rewrite label_eqb_sym. }
  congruence.
Qed.

Lemma lookup_other_kind l s :
  is_int_label l = true -> forallb is_date_label (labels s) = true ->
  lookup l s = VNA.
Proof.
  intros Hl Hs. apply lookup_absent.
  destruct (existsb (label_eqb l) (labels s)) eqn:E; [|reflexivity].
  apply existsb_exists in E. destruct E as (x & Ix & Ex).
  rewrite forallb_forall in Hs. now rewrite (label_eqb_kinds l x Hl (Hs x Ix)) in Ex.
Qed.

Lemma lookup_date_among_ints l s :
  is_date_label l = true -> forallb is_int_label (labels s) = true ->
  lookup l s = VNA.
Proof.
  intros Hl Hs. apply lookup_absent.
  destruct (existsb (label_eqb l) (labels s)) eqn:E; [|reflexivity].
  apply existsb_exists in E. destruct E as (x & Ix & Ex).
  rewrite forallb_forall in Hs. rewrite label_eqb_sym in Ex.
  now rewrite (label_eqb_kinds x l (Hs x Ix) Hl) in Ex.
Qed.

Lemma lookup_all_na l s : all_na s -> lookup l s = VNA.
Proof.
  intros H. destruct (lookup_in l s) as [E|(e & I & E)]; [exact E|].
  rewrite E. unfold all_na in H. rewrite Forall_forall in H. now apply H.
Qed.

Lemma labels_eqb_length l1 l2 :
  labels_eqb l1 l2 = true -> List.length l1 = List.length l2.
Proof.
  revert l2. induction l1 as [|a l1 IH]; intros [|b l2]; simpl; try discriminate;
    [reflexivity|].
  intros H. apply andb_true_iff in H. destruct H as [_ H]. f_equal. now apply IH.
Qed.

Lemma labels_eqb_kinds l1 l2 :
  forallb is_date_label l1 = true -> forallb is_int_label l2 = true ->
  labels_eqb l1 l2 = true -> l1 = [] /\ l2 = [].
Proof.
  destruct l1 as [|a l1], l2 as [|b l2]; simpl; try discriminate; [auto|].
  intros Ha Hb H. apply andb_true_iff in Ha, Hb, H.
  destruct Ha as [Ha _], Hb as [Hb _], H as [H _].
  rewrite label_eqb_sym in H. now rewrite (label_eqb_kinds b a Hb Ha) in H.
Qed.

Lemma int_labels ix : forallb is_int_label (map LInt ix) = true.
Proof. induction ix as [|i ix IH]; simpl; [reflexivity | exact IH]. Qed.

Lemma labels_combine (ls : list label) (vs : list value) :
  List.length ls = List.length vs -> labels (combine ls vs) = ls.
Proof. apply map_fst_combine. Qed.

Lemma map_const_length {A B C} (c : C) (l1 : list A) (l2 : list B) :
  List.length l1 = List.length l2 ->
  map (fun _ => c) l1 = map (fun _ => c) l2.
Proof.
  revert l2. induction l1 as [|a l1 IH]; intros [|b l2] L; simpl in *;
    try discriminate; [reflexivity|].
  f_equal. apply IH. lia.
Qed.

Lemma map_all_na (s : Series) : all_na s -> map snd s = map (fun _ => VNA) s.
Proof.
  intros H. induction H as [|e s He Hs IH]; simpl; [reflexivity|].
  now rewrite He, IH.
Qed.

Lemma assign_no_rows c s df :
  entries df = [] -> assign c s df = assign_scalar c VNA df.
Proof.
  intros E. unfold assign_scalar, assign, rows. now rewrite E.
Qed.

(** Assigning a Series none of whose labels is a row label of the frame
    leaves the column missing, when it does not raise. *)
Lemma setitem_dated c s df df' :
  forallb is_date_label (labels s) = true ->
  setitem c s df = Ok df' ->
  df' = assign_scalar c VNA df
  /\ (rows df <> [] -> unique (labels s) = true).
Proof.
  intros Hs. unfold setitem.
  destruct (entries df) as [|e es] eqn:E.
  - destruct s; [|discriminate]. intros [= <-]. split.
    + now apply assign_no_rows.
    + unfold rows. rewrite E. intros N. now elim N.
  - assert (F : labels_eqb (labels s) (map LInt (index df)) = false).
    { destruct (labels_eqb _ _) eqn:L; [|reflexivity].
      destruct (labels_eqb_kinds _ _ Hs (int_labels _) L) as [_ X].
      unfold index in X. rewrite E in X. discriminate. }
    rewrite F. destruct (unique (labels s)); [|discriminate].
    intros [= <-]. split; [|reflexivity].
    unfold assign_scalar. f_equal.
    unfold index, rows. rewrite !map_map. apply map_ext. intros a.
    now apply lookup_other_kind.
Qed.

(** Assigning a Series of missing cells leaves the column missing, when it
    does not raise. *)
Lemma setitem_all_na c s df df' :
  all_na s -> setitem c s df = Ok df' -> df' = assign_scalar c VNA df.
Proof.
  intros Hs. unfold setitem.
  destruct (entries df) as [|e es] eqn:E.
  - destruct s; [|discriminate]. intros [= <-]. now apply assign_no_rows.
  - clear E.
    destruct (labels_eqb (labels s) (map LInt (index df))) eqn:L.
    + intros [= <-]. unfold assign_scalar. f_equal.
      rewrite (map_all_na s Hs). apply map_const_length.
      apply labels_eqb_length in L. unfold labels in L.
      rewrite !length_map in L. now rewrite L, length_index.
    + destruct (unique (labels s)); [|discriminate].
      intros [= <-]. unfold assign_scalar. f_equal.
      unfold index, rows. rewrite !map_map. apply map_ext. intros a.
      now apply lookup_all_na.
Qed.

Lemma all_na_combine ls vs :
  Forall (fun v => v = VNA) vs -> all_na (combine ls vs).
Proof.
  intros H. revert ls. induction H as [|v vs Hv Hvs IH]; intros [|l ls]; simpl;
    try (now constructor).
  constructor; [exact Hv | apply IH].
Qed.

(** An operation that gives a missing cell for a missing operand gives
    nothing but missing cells on a Series of integer labels and a Series of
    timestamps, and on a Series of missing cells. *)
Lemma align_op_kinds f s1 s2 s :
  (forall v, f VNA v = VNA) -> (forall v, f v VNA = VNA) ->
  forallb is_int_label (labels s1) = true ->
  forallb is_date_label (labels s2) = true ->
  align_op f s1 s2 = Ok s -> all_na s.
Proof.
  intros Fl Fr H1 H2. unfold align_op.
  destruct (labels_eqb (labels s1) (labels s2)) eqn:L.
  - intros [= <-].
    assert (labels_eqb (labels s2) (labels s1) = true) as L'.
    { clear -L. revert L. generalize (labels s2). generalize (labels s1).
      induction l as [|a l IH]; intros [|b l']; simpl; try discriminate; auto.
      intros H. apply andb_true_iff in H. destruct H as [Ha Hl].
      now rewrite label_eqb_sym, Ha, (IH _ Hl). }
    destruct (labels_eqb_kinds _ _ H2 H1 L') as [_ ->]. constructor.
  - destruct (unique (labels s1) && unique (labels s2)); [|discriminate].
    intros [= <-]. apply Forall_map, Forall_forall. intros l Il. cbn [snd].
    apply in_app_or in Il. destruct Il as [Il|Il].
    + rewrite forallb_forall in H1.
      now rewrite (lookup_other_kind l s2 (H1 l Il) H2).
    + apply filter_In in Il. destruct Il as [Il _].
      rewrite forallb_forall in H2.
      now rewrite (lookup_date_among_ints l s1 (H2 l Il) H1).
Qed.

Lemma align_op_all_na f s1 s2 s :
  (forall v, f VNA v = VNA) ->
  all_na s1 -> align_op f s1 s2 = Ok s -> all_na s.
Proof.
  intros Fl H1. unfold align_op.
  destruct (labels_eqb (labels s1) (labels s2)).
  - intros [= <-]. apply all_na_combine. unfold zip_with.
    apply Forall_map, Forall_forall. intros [a b] I. cbn [fst snd].
    apply in_combine_l in I. apply in_map_iff in I. destruct I as (e & <- & I).
    unfold all_na in H1. rewrite Forall_forall in H1. now rewrite (H1 e I).
  - destruct (unique (labels s1) && unique (labels s2)); [|discriminate].
    intros [= <-]. apply Forall_map, Forall_forall. intros l _. cbn [snd].
    now rewrite (lookup_all_na l s1 H1).
Qed.

Lemma vsub_na_l v : vsub VNA v = VNA.
Proof. reflexivity. Qed.

Lemma vsub_na_r v : vsub v VNA = VNA.
Proof. unfold vsub. now destruct (as_num v). Qed.

Lemma vdiv_na_l v : vdiv VNA v = VNA.
Proof. reflexivity. Qed.

(** ** The Series of the grouped rolling operations *)

Lemma map_nth_seq {A} (l : list A) d :
  map (fun i => nth i l d) (seq 0 (List.length l)) = l.
Proof.
  apply nth_ext with (d := d) (d' := d).
  - now rewrite length_map, length_seq.
  - intros i Hi. rewrite length_map, length_seq in Hi.
    rewrite nth_map_lt with (d' := O) by now rewrite length_seq.
    now rewrite seq_nth.
Qed.

(** The labels of a grouped rolling Series: the timestamps of the rows that
    have a key. *)
Lemma labels_dated_series op os :
  labels (dated_series op os)
  = map (fun o => LDate (otime o))
        (filter (fun o => negb (existsb is_na (okey o))) os).
Proof.
  unfold labels, dated_series.
  set (G := fun o : obs =>
              if existsb is_na (okey o) then [] else [LDate (otime o)]).
  transitivity (flat_map G (map (fun i => nth i os obs0) (seq 0 (List.length os)))).
  - generalize (seq 0 (List.length os)). intros l.
    induction l as [|i l IH]; simpl; [reflexivity|].
    rewrite map_app, IH. f_equal. unfold G.
    now destruct (existsb is_na (okey (nth i os obs0))).
  - rewrite map_nth_seq. unfold G. clear G.
    induction os as [|o os IH]; simpl; [reflexivity|].
    destruct (existsb is_na (okey o)); simpl; now rewrite IH.
Qed.

Lemma dated_series_labels_dates op os :
  forallb is_date_label (labels (dated_series op os)) = true.
Proof.
  rewrite labels_dated_series. apply forallb_forall. intros l I.
  apply in_map_iff in I. now destruct I as (o & <- & _).
Qed.

(** The Series that reach the table: the percentile rank, the percentile
    and the flag, computed from the sorted frame. *)
Section StatsSeries.
Variables (dc : string) (sorted : DataFrame).

Let os := map (to_obs ["ticker"] dc) (rows sorted).
Let tv := map (cell "trade_value") (rows sorted).
Let grouped := groupby_apply okey obs0.

Definition series_pct_rank : list value := grouped rank_pct os.
Definition series_p95 : list value :=
  grouped (fun g _ => quantile (19 # 20) (map oval g)) os.
Definition series_unusual : list value :=
  zip_with (fun x p => int_of_bool (vgt x p)) tv series_p95.

(** The table [add_statistical_features] returns: the two trailing means
    and the z-score are missing in every row. *)
Definition stats_frame : DataFrame :=
  assign "unusual_volume" series_unusual
    (assign "trade_value_pct_rank" series_pct_rank
       (assign_scalar "trade_value_zscore" VNA
          (assign_scalar "trade_value_30d_mean" VNA
             (assign_scalar "trade_value_7d_mean" VNA sorted)))).

Lemma series_lengths :
  List.length series_pct_rank = List.length (rows sorted)
  /\ List.length series_p95 = List.length (rows sorted)
  /\ List.length series_unusual = List.length (rows sorted).
Proof.
  unfold series_unusual, series_p95, series_pct_rank, grouped, os, tv.
  repeat (rewrite ?zip_with_length, ?length_map, ?groupby_apply_length).
  repeat split; lia.
Qed.
End StatsSeries.

(** The timestamps of the rows that have a ticker. *)
Definition ticker_dates (dc : string) (table : list Row) : list Z :=
  map (time_of dc) (filter (fun r => negb (is_na (ticker_of r))) table).

Lemma unique_dates (ts : list Z) : unique (map LDate ts) = true <-> NoDup ts.
Proof.
  induction ts as [|t ts IH]; simpl.
  - split; [constructor | reflexivity].
  - rewrite andb_true_iff, negb_true_iff, IH. split.
    + intros [N D]. constructor; [|exact D]. intros I.
      assert (X : existsb (label_eqb (LDate t)) (map LDate ts) = true).
      { apply existsb_exists. exists (LDate t). split; [now apply in_map|].
        now apply label_eqb_eq. }
      congruence.
    + intros D. inversion D as [|? ? N D']; subst. split; [|exact D'].
      destruct (existsb _ _) eqn:X; [|reflexivity].
      apply existsb_exists in X. destruct X as (l & I & E).
      apply label_eqb_eq in E. subst l. apply in_map_iff in I.
      destruct I as (t' & [= ->] & I). contradiction.
Qed.

Lemma dated_series_labels_rows op dc (table : list Row) :
  labels (dated_series op (map (to_obs ["ticker"] dc) table))
  = map LDate (ticker_dates dc table).
Proof.
  rewrite labels_dated_series. unfold ticker_dates. rewrite map_map.
  induction table as [|r table IH]; simpl; [reflexivity|].
  rewrite orb_false_r. fold (ticker_of r).
  destruct (is_na (ticker_of r)); simpl; now rewrite IH.
Qed.

Lemma date_column_not_derived dc c :
  contains "date" dc = true -> contains "date" c = false -> c <> dc.
Proof. intros H1 H2 ->. congruence. Qed.

Lemma by_ticker_ok dc op df os :
  observations ["ticker"] dc "trade_value" df = Ok os ->
  by_ticker dc op df = Ok (groupby_apply okey obs0 op os).
Proof. intros H. unfold by_ticker. now rewrite H. Qed.

Lemma grouped_rolling_ok dc op df os :
  observations ["ticker"] dc "trade_value" df = Ok os ->
  grouped_rolling dc op df = Ok (dated_series op os).
Proof. intros H. unfold grouped_rolling. now rewrite H. Qed.

Lemma grouped_rolling_inv dc op df s :
  grouped_rolling dc op df = Ok s ->
  observations ["ticker"] dc "trade_value" df
  = Ok (map (to_obs ["ticker"] dc) (rows df)).
Proof.
  unfold grouped_rolling.
  destruct (observations _ _ _ _) as [os|] eqn:E; [|discriminate].
  intros _. apply observations_inv in E. now destruct E as [-> _].
Qed.

Lemma rows_assign_scalar_length c v df :
  List.length (rows (assign_scalar c v df)) = List.length (rows df).
Proof.
  unfold assign_scalar. apply rows_assign_length. apply length_map.
Qed.

Ltac assign_len :=
  first [ assumption | reflexivity | apply length_map
        | rewrite rows_assign_scalar_length; assign_len
        | rewrite rows_assign_length by assign_len; assign_len ].

Ltac assign_side Hdc :=
  first
    [ assign_len
    | discriminate
    | simpl; intuition discriminate
    | apply date_column_not_derived; [exact Hdc | reflexivity] ].

Lemma observations_assign_scalar by_ dc c v df :
  ~ In c by_ -> c <> dc -> c <> "trade_value" ->
  observations by_ dc "trade_value" (assign_scalar c v df)
  = observations by_ dc "trade_value" df.
Proof.
  intros Nb Nd Nv. unfold assign_scalar.
  apply observations_assign; auto. apply length_map.
Qed.

Lemma column_assign_scalar_other c c' v df :
  c <> c' -> column c (assign_scalar c' v df) = column c df.
Proof.
  intros N. unfold assign_scalar. apply column_assign_other; [exact N|].
  apply length_map.
Qed.

Lemma index_assign_scalar c v df : index (assign_scalar c v df) = index df.
Proof. unfold assign_scalar. apply index_assign. apply length_map. Qed.

(** What [add_statistical_features] returns is the sorted frame with the
    Series assigned; when the table has rows, the rows that have a ticker
    have different timestamps. *)
Lemma add_statistical_features_inv sqrtQ df out :
  add_statistical_features sqrtQ df = Ok out ->
  exists dc sorted,
    _get_date_column df = Ok dc
    /\ sort_values ["ticker"; dc] df = Ok sorted
    /\ observations ["ticker"] dc "trade_value" sorted
       = Ok (map (to_obs ["ticker"] dc) (rows sorted))
    /\ out = stats_frame dc sorted
    /\ (rows sorted <> [] -> NoDup (ticker_dates dc (rows sorted))).
Proof.
  unfold add_statistical_features.
  destruct (_get_date_column df) as [dc|] eqn:Edc; [|discriminate].
  destruct (_get_transaction_column df) as [tc|]; [|discriminate].
  cbn [bind].
  destruct (sort_values _ df) as [sorted|] eqn:Es; [|discriminate].
  cbn [bind].
  destruct (grouped_rolling dc (rolling_mean (days 7)) sorted) as [s7|] eqn:E7;
    [|discriminate].
  pose proof (grouped_rolling_inv _ _ _ _ E7) as Hobs.
  pose proof (get_date_column_contains _ _ Edc) as Hdc.
  destruct (series_lengths dc sorted) as (Lr & Lp & Lu).
  rewrite (grouped_rolling_ok _ _ _ _ Hobs) in E7. injection E7 as <-.
  rewrite !(grouped_rolling_ok _ _ _ _ Hobs). cbn [bind].
  destruct (setitem "trade_value_7d_mean" _ sorted) as [d1|] eqn:E1; [|discriminate].
  apply setitem_dated in E1; [|apply dated_series_labels_dates].
  destruct E1 as [-> U]. cbn [bind].
  destruct (setitem "trade_value_30d_mean" _ _) as [d2|] eqn:E2; [|discriminate].
  apply setitem_dated in E2; [|apply dated_series_labels_dates].
  destruct E2 as [-> _]. cbn [bind].
  set (f2 := assign_scalar "trade_value_30d_mean" VNA
               (assign_scalar "trade_value_7d_mean" VNA sorted)).
  assert (Hobs2 : observations ["ticker"] dc "trade_value" f2
                  = Ok (map (to_obs ["ticker"] dc) (rows sorted))).
  { unfold f2. rewrite !observations_assign_scalar by assign_side Hdc. exact Hobs. }
  rewrite !(grouped_rolling_ok _ _ _ _ Hobs2). cbn [bind].
  unfold column_series.
  assert (Ctv : column "trade_value" f2 = column "trade_value" sorted)
    by (unfold f2; now rewrite !column_assign_scalar_other by discriminate).
  rewrite Ctv.
  destruct (column "trade_value" sorted) as [tv|] eqn:Etv; [|discriminate].
  destruct (column_inv _ _ _ Etv) as [-> _]. cbn [bind].
  destruct (align_op vsub _ _) as [centred|] eqn:Ec; [|discriminate]. cbn [bind].
  destruct (align_op vdiv centred _) as [zscore|] eqn:Ez; [|discriminate].
  cbn [bind].
  assert (Nc : all_na centred).
  { eapply align_op_kinds; [apply vsub_na_l | apply vsub_na_r | | | exact Ec].
    - rewrite labels_combine; [apply int_labels|].
      rewrite !length_map, length_index. unfold f2.
      now rewrite !rows_assign_scalar_length.
    - apply dated_series_labels_dates. }
  assert (Nz : all_na zscore)
    by (eapply align_op_all_na; [apply vdiv_na_l | exact Nc | exact Ez]).
  destruct (setitem "trade_value_zscore" zscore f2) as [d3|] eqn:E3; [|discriminate].
  apply setitem_all_na in E3; [|exact Nz]. subst d3. cbn [bind].
  set (f3 := assign_scalar "trade_value_zscore" VNA f2).
  assert (Hobs3 : observations ["ticker"] dc "trade_value" f3
                  = Ok (map (to_obs ["ticker"] dc) (rows sorted))).
  { unfold f3. rewrite observations_assign_scalar by assign_side Hdc. exact Hobs2. }
  rewrite (by_ticker_ok _ _ _ _ Hobs3). cbn [bind].
  fold (series_pct_rank dc sorted).
  assert (L3 : List.length (rows f3) = List.length (rows sorted))
    by (unfold f3, f2; now rewrite !rows_assign_scalar_length).
  assert (Hobs4 :
    observations ["ticker"] dc "trade_value"
      (assign "trade_value_pct_rank" (series_pct_rank dc sorted) f3)
    = Ok (map (to_obs ["ticker"] dc) (rows sorted))).
  { rewrite observations_assign; [exact Hobs3 | | | |];
      [simpl; intuition discriminate
      | apply date_column_not_derived; [exact Hdc | reflexivity]
      | discriminate
      | now rewrite L3]. }
  rewrite (by_ticker_ok _ _ _ _ Hobs4). cbn [bind].
  rewrite column_assign_other by (try discriminate; now rewrite L3).
  assert (Ctv3 : column "trade_value" f3
                 = Ok (map (cell "trade_value") (rows sorted))).
  { unfold f3. rewrite column_assign_scalar_other by discriminate.
    now rewrite Ctv. }
  rewrite Ctv3. cbn [bind].
  intros [= <-]. exists dc, sorted. repeat split; auto.
  intros N. apply unique_dates.
  rewrite <- (dated_series_labels_rows (rolling_mean (days 7))).
  exact (U N).
Qed.

Lemma int_labels_combine ix (vs : list value) :
  forallb is_int_label (labels (combine (map LInt ix) vs)) = true.
Proof.
  unfold labels. revert vs. induction ix as [|i ix IH]; intros [|v vs]; simpl;
    try reflexivity.
  apply IH.
Qed.

Lemma labels_map_snd (g : value -> value) (s : Series) :
  labels (map (fun e => (fst e, g (snd e))) s) = labels s.
Proof. unfold labels. rewrite map_map. reflexivity. Qed.

(** On a Series of missing cells an operation that gives a missing cell
    for a missing left operand sees the labels of the right operand only. *)
Lemma align_op_all_na_labels f s1 s2 s2' :
  (forall v, f VNA v = VNA) -> all_na s1 -> labels s2 = labels s2' ->
  align_op f s1 s2 = align_op f s1 s2'.
Proof.
  intros Fl H1 L. unfold align_op. rewrite <- L.
  destruct (labels_eqb (labels s1) (labels s2)).
  - do 2 f_equal. unfold zip_with.
    assert (Len : List.length s2 = List.length s2').
    { unfold labels in L. apply (f_equal (@List.length label)) in L.
      now rewrite !length_map in L. }
    clear L. revert s2 s2' Len.
    induction H1 as [|e s1 He Hs IH]; intros [|a s2] [|a' s2'] Len; simpl in *;
      try discriminate; try reflexivity.
    rewrite He, !Fl. f_equal. apply IH. lia.
  - destruct (unique (labels s1) && unique (labels s2)); [|reflexivity].
    f_equal. apply map_ext. intros l. now rewrite (lookup_all_na l s1 H1), !Fl.
Qed.

(** The square root of the rolling standard deviation has no part in the
    result: the z-score is missing whatever the deviation is. *)
Lemma add_statistical_features_any_sqrt sqrtQ sqrtQ' df :
  add_statistical_features sqrtQ df = add_statistical_features sqrtQ' df.
Proof.
  unfold add_statistical_features.
  destruct (_get_date_column df) as [dc|]; [|reflexivity]. cbn [bind].
  destruct (_get_transaction_column df) as [tc|]; [|reflexivity]. cbn [bind].
  destruct (sort_values _ df) as [sorted|]; [|reflexivity]. cbn [bind].
  destruct (grouped_rolling dc (rolling_mean (days 7)) sorted) as [s7|];
    [|reflexivity]. cbn [bind].
  destruct (grouped_rolling dc (rolling_mean (days 30)) sorted) as [s30|];
    [|reflexivity]. cbn [bind].
  destruct (setitem "trade_value_7d_mean" s7 sorted) as [d1|]; [|reflexivity].
  cbn [bind].
  destruct (setitem "trade_value_30d_mean" s30 d1) as [d2|]; [|reflexivity].
  cbn [bind].
  unfold grouped_rolling.
  destruct (observations ["ticker"] dc "trade_value" d2) as [os|]; [|reflexivity].
  cbn [bind].
  destruct (column_series "trade_value" d2) as [tv|] eqn:Etv; [|reflexivity].
  cbn [bind].
  destruct (align_op vsub tv (dated_series (rolling_mean (days 30)) os))
    as [centred|] eqn:Ec; [|reflexivity].
  cbn [bind].
  assert (Nc : all_na centred).
  { eapply align_op_kinds; [apply vsub_na_l | apply vsub_na_r | | | exact Ec].
    - unfold column_series in Etv.
      destruct (column "trade_value" d2) as [vs|]; [|discriminate].
      cbn [bind] in Etv. injection Etv as <-. apply int_labels_combine.
    - apply dated_series_labels_dates. }
  rewrite (align_op_all_na_labels vdiv centred
             (map (fun e => (fst e, replace_zero (snd e)))
                  (dated_series (rolling_std sqrtQ (days 30)) os))
             (map (fun e => (fst e, replace_zero (snd e)))
                  (dated_series (rolling_std sqrtQ' (days 30)) os))
             vdiv_na_l Nc).
  - reflexivity.
  - now rewrite !labels_map_snd, !labels_dated_series.
Qed.

Lemma cell_nth_assign c c' s df i :
  List.length s = List.length (rows df) -> (i < List.length (rows df))%nat ->
  cell c (nth i (rows (assign c' s df)) [])
  = if String.eqb c c' then nth i s VNA else cell c (nth i (rows df) []).
Proof.
  intros L Hi. rewrite nth_rows_assign by assumption.
  destruct (String.eqb c c') eqn:E.
  - apply String.eqb_eq in E. subst. apply cell_set_cell_same.
  - apply String.eqb_neq in E. now apply cell_set_cell_other.
Qed.

Lemma cell_nth_assign_scalar c c' v df i :
  (i < List.length (rows df))%nat ->
  cell c (nth i (rows (assign_scalar c' v df)) [])
  = if String.eqb c c' then v else cell c (nth i (rows df) []).
Proof.
  intros Hi. unfold assign_scalar.
  rewrite cell_nth_assign by (try apply length_map; exact Hi).
  destruct (String.eqb c c'); [|reflexivity].
  rewrite nth_map_lt with (d' := ([] : Row)) by exact Hi. reflexivity.
Qed.

Lemma stats_frame_length dc sorted :
  List.length (rows (stats_frame dc sorted)) = List.length (rows sorted).
Proof.
  destruct (series_lengths dc sorted) as (Lr & Lp & Lu).
  assert (L3 : List.length
                 (rows (assign_scalar "trade_value_zscore" VNA
                          (assign_scalar "trade_value_30d_mean" VNA
                             (assign_scalar "trade_value_7d_mean" VNA sorted))))
               = List.length (rows sorted))
    by now rewrite !rows_assign_scalar_length.
  unfold stats_frame.
  rewrite rows_assign_length; rewrite rows_assign_length; congruence.
Qed.

(** The cells of a row of the result: the Series under their labels, a
    missing cell under the labels of the trailing means and the z-score,
    and the cells of the sorted input under every other label. *)
Lemma stats_frame_cell dc sorted c i :
  (i < List.length (rows sorted))%nat ->
  cell c (nth i (rows (stats_frame dc sorted)) [])
  = if String.eqb c "unusual_volume" then nth i (series_unusual dc sorted) VNA
    else if String.eqb c "trade_value_pct_rank"
         then nth i (series_pct_rank dc sorted) VNA
    else if String.eqb c "trade_value_zscore" then VNA
    else if String.eqb c "trade_value_30d_mean" then VNA
    else if String.eqb c "trade_value_7d_mean" then VNA
    else cell c (nth i (rows sorted) []).
Proof.
  intros Hi.
  destruct (series_lengths dc sorted) as (Lr & Lp & Lu).
  assert (L3 : List.length
                 (rows (assign_scalar "trade_value_zscore" VNA
                          (assign_scalar "trade_value_30d_mean" VNA
                             (assign_scalar "trade_value_7d_mean" VNA sorted))))
               = List.length (rows sorted))
    by now rewrite !rows_assign_scalar_length.
  unfold stats_frame.
  rewrite cell_nth_assign; [|rewrite rows_assign_length; congruence
                            |rewrite rows_assign_length; congruence].
  rewrite cell_nth_assign by congruence.
  rewrite !cell_nth_assign_scalar by (rewrite ?rows_assign_scalar_length; exact Hi).
  reflexivity.
Qed.

(** ** Sorted lists *)

Lemma StronglySorted_filter {A} (R : A -> A -> Prop) (f : A -> bool) l :
  StronglySorted R l -> StronglySorted R (filter f l).
Proof.
  induction 1 as [|x l Hs IH Hx]; simpl; [constructor|].
  destruct (f x); [|exact IH]. constructor; [exact IH|].
  rewrite Forall_forall in *. intros y Hy. apply filter_In in Hy. now apply Hx.
Qed.

Lemma In_firstn {A} (x : A) n l : In x (firstn n l) -> In x l.
Proof.
  revert n. induction l as [|a l IH]; intros [|n]; simpl; try tauto.
  intros [H|H]; [now left | right; now apply (IH n)].
Qed.

Lemma StronglySorted_firstn {A} (R : A -> A -> Prop) n l :
  StronglySorted R l -> StronglySorted R (firstn n l).
Proof.
  intros H. revert n. induction H as [|x l Hs IH Hx]; intros [|n]; simpl;
    try constructor; [apply IH|].
  rewrite Forall_forall in *. intros y Hy. apply Hx. eapply In_firstn. exact Hy.
Qed.

Lemma StronglySorted_map {A B} (R : B -> B -> Prop) (f : A -> B) l :
  StronglySorted (fun x y => R (f x) (f y)) l -> StronglySorted R (map f l).
Proof.
  induction 1 as [|x l Hs IH Hx]; simpl; constructor; [exact IH|].
  rewrite Forall_forall in *. intros y Hy. apply in_map_iff in Hy.
  destruct Hy as (a & <- & Ia). now apply Hx.
Qed.

Lemma StronglySorted_impl_in {A} (R R' : A -> A -> Prop) l :
  (forall x y, In x l -> In y l -> R x y -> R' x y) ->
  StronglySorted R l -> StronglySorted R' l.
Proof.
  intros Himp H. induction H as [|x l Hs IH Hx]; constructor.
  - apply IH. intros a b Ia Ib. apply Himp; now right.
  - rewrite Forall_forall in *. intros y Hy.
    apply Himp; [now left | now right | now apply Hx].
Qed.

(** In a sorted list, an element in front of another is below it. *)
Lemma StronglySorted_nth {A} (R : A -> A -> Prop) l d i j :
  StronglySorted R l -> (i < j)%nat -> (j < List.length l)%nat ->
  R (nth i l d) (nth j l d).
Proof.
  intros H. revert i j. induction H as [|x l Hs IH Hx]; intros i j Hij Hj;
    simpl in *; [lia|].
  destruct j as [|j]; [lia|]. destruct i as [|i].
  - rewrite Forall_forall in Hx. apply Hx, nth_In. lia.
  - apply IH; lia.
Qed.

Lemma dropwhile_sorted {A} (t : A -> Z) (b : Z) l :
  StronglySorted (fun x y => t x <= t y) l ->
  dropwhile (fun x => t x <=? b) l = filter (fun x => b <? t x) l.
Proof.
  induction 1 as [|x l Hs IH Hx]; simpl; [reflexivity|].
  destruct (t x <=? b) eqn:E.
  - assert ((b <? t x) = false) as -> by lia. exact IH.
  - assert ((b <? t x) = true) as -> by lia. f_equal.
    symmetry. apply forallb_filter_id. apply forallb_forall.
    rewrite Forall_forall in Hx. intros y Hy. specialize (Hx y Hy). lia.
Qed.

Lemma filter_filter {A} (f g : A -> bool) l :
  filter f (filter g l) = filter (fun x => g x && f x) l.
Proof.
  induction l as [|x l IH]; simpl; [reflexivity|].
  destruct (g x); simpl; [destruct (f x)|]; now rewrite IH.
Qed.

Lemma filter_map_comm {A B} (f : B -> bool) (g : A -> B) l :
  filter f (map g l) = map g (filter (fun x => f (g x)) l).
Proof.
  induction l as [|x l IH]; simpl; [reflexivity|].
  destruct (f (g x)); simpl; now rewrite IH.
Qed.

(** ** Comparing keys that end in a timestamp *)

Lemma keys_cmp_app k1 k2 a b :
  keys_cmp k1 k2 = Eq -> keys_cmp (k1 ++ a) (k2 ++ b) = keys_cmp a b.
Proof.
  revert k2. induction k1 as [|x k1 IH]; intros [|y k2]; simpl; try discriminate.
  - reflexivity.
  - destruct (value_cmp x y); try discriminate. apply IH.
Qed.

Lemma keys_leb_time k1 k2 t1 t2 :
  keys_eqb k1 k2 = true ->
  keys_leb (k1 ++ [VDate t1]) (k2 ++ [VDate t2]) = true -> t1 <= t2.
Proof.
  unfold keys_eqb, keys_leb. intros E.
  destruct (keys_cmp k1 k2) eqn:C; try discriminate.
  rewrite (keys_cmp_app _ _ _ _ C). simpl.
  destruct (Z.compare_spec t1 t2); simpl; try discriminate; lia.
Qed.

(** ** Rolling windows over a sorted frame *)

(** Observations ordered by key, then by timestamp: the order
    [sort_values] leaves the frame in. *)
Definition obs_le (o o' : obs) : Prop :=
  keys_leb (okey o ++ [VDate (otime o)]) (okey o' ++ [VDate (otime o')]) = true.

(** [o'] has the key of [o] and its timestamp lies in (t - w, t]. *)
Definition in_window_obs (w : Z) (o o' : obs) : bool :=
  keys_eqb (okey o) (okey o')
  && (otime o - w <? otime o')
  && (otime o' <=? otime o).

Lemma In_firstn_nth {A} (x : A) n l d :
  In x (firstn n l) -> exists j, (j < n)%nat /\ (j < List.length l)%nat /\ nth j l d = x.
Proof.
  revert n. induction l as [|a l IH]; intros [|n]; simpl; try tauto.
  intros [<-|H].
  - exists O. repeat split; lia.
  - destruct (IH n H) as (j & Hj & Hl & E). exists (S j). repeat split; auto; lia.
Qed.

(** Among the rows up to row [i], the rows of its group are not later than
    row [i]. *)
Lemma sorted_group_prefix_time os i o' :
  StronglySorted obs_le os -> (i < List.length os)%nat ->
  In o' (firstn (S i) os) ->
  keys_eqb (okey (nth i os obs0)) (okey o') = true ->
  otime o' <= otime (nth i os obs0).
Proof.
  intros Hs Hi Hin Hk.
  destruct (In_firstn_nth _ _ _ obs0 Hin) as (j & Hj & Hl & <-).
  assert (j = i \/ j < i)%nat as [->|Hlt] by lia; [lia|].
  pose proof (StronglySorted_nth _ _ obs0 _ _ Hs Hlt Hi) as Hle.
  unfold obs_le in Hle. eapply keys_leb_time; [|exact Hle].
  now rewrite keys_eqb_sym.
Qed.

Lemma group_time_sorted os k :
  StronglySorted obs_le os ->
  StronglySorted (fun o o' => otime o <= otime o') (filter (same_key okey k) os).
Proof.
  intros Hs. apply StronglySorted_impl_in with (R := obs_le).
  - intros x y Ix Iy Hxy. apply filter_In in Ix, Iy.
    destruct Ix as [_ Kx], Iy as [_ Ky]. unfold same_key in *.
    eapply keys_leb_time; [|exact Hxy].
    rewrite <- (keys_eqb_compat k (okey x) (okey y) Kx). exact Ky.
  - now apply StronglySorted_filter.
Qed.

(** The rolling window of row [i] of a sorted frame holds the rows of its
    group, among row [i] and the rows in front of it, whose timestamp is in
    (t - w, t]. *)
Lemma window_sorted w os i :
  StronglySorted obs_le os -> (i < List.length os)%nat ->
  window w (group_of okey (okey (nth i os obs0)) os)
           (pos_in_group okey (okey (nth i os obs0)) i os)
  = filter (in_window_obs w (nth i os obs0)) (firstn (S i) os).
Proof.
  intros Hs Hi. set (o := nth i os obs0). set (k := okey o).
  assert (Hk : same_key okey k (nth i os obs0) = true)
    by (unfold same_key, k, o; apply keys_eqb_refl).
  unfold window, group_of, pos_in_group.
  rewrite (nth_filter_pos obs0 _ _ _ Hi Hk).
  rewrite (firstn_S_filter obs0 _ _ _ Hi Hk).
  rewrite dropwhile_sorted.
  - rewrite filter_filter. apply filter_ext_in. intros o' Ho'.
    unfold in_window_obs, same_key. fold o. fold k.
    destruct (keys_eqb k (okey o')) eqn:E; simpl; [|reflexivity].
    assert (otime o' <= otime o)
      by (apply sorted_group_prefix_time; auto).
    destruct (otime o - w <? otime o'); simpl; [|reflexivity]. lia.
  - rewrite <- (firstn_S_filter obs0 _ _ _ Hi Hk).
    apply StronglySorted_firstn, group_time_sorted, Hs.
Qed.

Lemma window_has_row w os i :
  0 < w -> (i < List.length os)%nat ->
  In (nth i os obs0) (filter (in_window_obs w (nth i os obs0)) (firstn (S i) os)).
Proof.
  intros Hw Hi. apply filter_In. split.
  - replace (nth i os obs0) with (nth i (firstn (S i) os) obs0)
      by (apply nth_firstn_lt || (rewrite nth_firstn; destruct (i <? S i)%nat eqn:E;
          [reflexivity | apply Nat.ltb_ge in E; lia])).
    apply nth_In. rewrite length_firstn. lia.
  - unfold in_window_obs. rewrite keys_eqb_refl. simpl.
    apply andb_true_iff. split; lia.
Qed.

Lemma rolling_mean_window w g p win :
  window w g p = win -> win <> [] ->
  rolling_mean w g p = VNum (mean (map oval win)).
Proof.
  intros E N. unfold rolling_mean. rewrite E. destruct win; congruence.
Qed.

(** ** The sorted frame *)

Definition row_leb (by_ : list string) (r1 r2 : Row) : bool :=
  keys_leb (key_of by_ r1) (key_of by_ r2).

Lemma row_leb_total by_ r1 r2 : row_leb by_ r1 r2 = true \/ row_leb by_ r2 r1 = true.
Proof. apply keys_leb_total. Qed.

Lemma row_leb_trans by_ r1 r2 r3 :
  row_leb by_ r1 r2 = true -> row_leb by_ r2 r3 = true -> row_leb by_ r1 r3 = true.
Proof. apply keys_leb_trans. Qed.

(** Sorting labelled elements by what they carry sorts what they carry. *)
Lemma map_insert_sorted {A B} (f : A -> B) (leb : B -> B -> bool) x l :
  map f (insert_sorted (fun a b => leb (f a) (f b)) x l)
  = insert_sorted leb (f x) (map f l).
Proof.
  induction l as [|y l IH]; simpl; [reflexivity|].
  destruct (leb (f x) (f y)); simpl; [reflexivity | now rewrite IH].
Qed.

Lemma map_stable_sort {A B} (f : A -> B) (leb : B -> B -> bool) l :
  map f (stable_sort (fun a b => leb (f a) (f b)) l) = stable_sort leb (map f l).
Proof.
  induction l as [|x l IH]; simpl; [reflexivity|].
  now rewrite map_insert_sorted, IH.
Qed.

(** The entries of a frame in the order of [sort_values]. *)
Definition sorted_entries (by_ : list string) (es : list (Z * Row))
  : list (Z * Row) :=
  stable_sort (fun e1 e2 => row_leb by_ (snd e1) (snd e2)) es.

Lemma rows_sorted_entries by_ es :
  map snd (sorted_entries by_ es) = stable_sort (row_leb by_) (map snd es).
Proof. apply (map_stable_sort snd (row_leb by_)). Qed.

Lemma sort_values_entries by_ df sorted :
  sort_values by_ df = Ok sorted ->
  sorted = mkDF (columns df) (sorted_entries by_ (entries df)).
Proof.
  unfold sort_values. destruct (find _ by_); [discriminate|].
  now intros [= <-].
Qed.

Lemma sort_values_ok by_ df :
  forallb (fun c => has_column c df) by_ = true ->
  sort_values by_ df = Ok (mkDF (columns df) (sorted_entries by_ (entries df))).
Proof.
  intros H. unfold sort_values.
  destruct (find _ by_) as [c|] eqn:F; [|reflexivity].
  apply find_some in F. destruct F as [I N].
  rewrite forallb_forall in H. rewrite (H c I) in N. discriminate.
Qed.

Lemma rows_sorted_frame cols by_ es :
  rows (mkDF cols (sorted_entries by_ es)) = stable_sort (row_leb by_) (map snd es).
Proof. apply rows_sorted_entries. Qed.

Lemma sort_values_inv by_ df sorted :
  sort_values by_ df = Ok sorted ->
  columns sorted = columns df
  /\ rows sorted = stable_sort (row_leb by_) (rows df)
  /\ forallb (fun c => has_column c df) by_ = true.
Proof.
  unfold sort_values. destruct (find _ by_) eqn:F; [discriminate|].
  intros [= <-]. repeat split.
  { apply (rows_sorted_entries by_ (entries df)). }
  apply forallb_forall. intros c Ic.
  pose proof (find_none _ _ F c Ic) as N. now apply negb_false_iff in N.
Qed.

Lemma sort_values_sorted by_ df sorted :
  sort_values by_ df = Ok sorted ->
  StronglySorted (fun r1 r2 => row_leb by_ r1 r2 = true) (rows sorted).
Proof.
  intros H. apply sort_values_inv in H. destruct H as (_ & -> & _).
  apply stable_sort_sorted; [apply row_leb_total | apply row_leb_trans].
Qed.

Lemma sort_values_perm by_ df sorted :
  sort_values by_ df = Ok sorted -> Permutation (rows sorted) (rows df).
Proof.
  intros H. apply sort_values_inv in H. destruct H as (_ & -> & _).
  apply stable_sort_perm.
Qed.

Lemma sorted_rows_obs_le dc l :
  Forall (fun r => cell dc r = VDate (time_of dc r)) l ->
  StronglySorted (fun r1 r2 => row_leb ["ticker"; dc] r1 r2 = true) l ->
  StronglySorted obs_le (map (to_obs ["ticker"] dc) l).
Proof.
  intros Ht Hs. apply StronglySorted_map.
  eapply StronglySorted_impl_in; [|exact Hs].
  rewrite Forall_forall in Ht. intros x y Ix Iy. unfold row_leb, obs_le, key_of.
  simpl. now rewrite (Ht x Ix), (Ht y Iy).
Qed.

(** The trailing rows, read as observations. *)
Lemma trailing_rows_obs dc w (table : list Row) i :
  (i < List.length table)%nat ->
  map trade_value_of (trailing_rows dc w table i)
  = map oval (filter (in_window_obs w (nth i (map (to_obs ["ticker"] dc) table) obs0))
                     (firstn (S i) (map (to_obs ["ticker"] dc) table))).
Proof.
  intros Hi. unfold trailing_rows.
  rewrite (nth_map_lt (to_obs ["ticker"] dc) table i obs0 ([] : Row) Hi).
  rewrite firstn_map, filter_map_comm, map_map.
  reflexivity.
Qed.

Lemma to_obs_ext dc r r' :
  cell "ticker" r = cell "ticker" r' -> cell dc r = cell dc r' ->
  cell "trade_value" r = cell "trade_value" r' ->
  to_obs ["ticker"] dc r = to_obs ["ticker"] dc r'.
Proof.
  intros H1 H2 H3. unfold to_obs, key_of, time_of, trade_value_of. simpl.
  now rewrite H1, H2, H3.
Qed.

Lemma stats_frame_cell_date dc sorted i :
  contains "date" dc = true -> (i < List.length (rows sorted))%nat ->
  cell dc (nth i (rows (stats_frame dc sorted)) [])
  = cell dc (nth i (rows sorted) []).
Proof.
  intros Hdc Hi. rewrite stats_frame_cell by exact Hi.
  repeat match goal with
  | |- context [String.eqb dc ?c] =>
      replace (String.eqb dc c) with false
        by (symmetry; apply String.eqb_neq; intros ->; discriminate)
  end.
  reflexivity.
Qed.

Lemma stats_frame_obs dc sorted :
  contains "date" dc = true ->
  map (to_obs ["ticker"] dc) (rows (stats_frame dc sorted))
  = map (to_obs ["ticker"] dc) (rows sorted).
Proof.
  intros Hdc.
  apply nth_ext with (d := to_obs ["ticker"] dc []) (d' := to_obs ["ticker"] dc []).
  - now rewrite !length_map, stats_frame_length.
  - intros i Hi. rewrite length_map, stats_frame_length in Hi.
    rewrite !map_nth. apply to_obs_ext.
    + now rewrite stats_frame_cell by exact Hi.
    + now apply stats_frame_cell_date.
    + now rewrite stats_frame_cell by exact Hi.
Qed.

(** The timestamps of the rows that have a ticker, read off the
    observations. *)
Lemma ticker_dates_obs dc (table : list Row) :
  ticker_dates dc table
  = map otime (filter (fun o => negb (existsb is_na (okey o)))
                      (map (to_obs ["ticker"] dc) table)).
Proof.
  unfold ticker_dates.
  induction table as [|r table IH]; simpl; [reflexivity|].
  rewrite orb_false_r. fold (ticker_of r).
  destruct (is_na (ticker_of r)); simpl; now rewrite IH.
Qed.

(** Everything the proofs below use about a successful run. *)
Lemma stats_context sqrtQ df out dc :
  add_statistical_features sqrtQ df = Ok out ->
  _get_date_column df = Ok dc ->
  exists sorted,
    out = stats_frame dc sorted
    /\ sort_values ["ticker"; dc] df = Ok sorted
    /\ List.length (rows out) = List.length (rows sorted)
    /\ map (to_obs ["ticker"] dc) (rows out) = map (to_obs ["ticker"] dc) (rows sorted)
    /\ StronglySorted obs_le (map (to_obs ["ticker"] dc) (rows out))
    /\ Forall (fun r => cell dc r = VDate (time_of dc r)
                        /\ as_num (cell "trade_value" r) = Some (trade_value_of r))
              (rows sorted).
Proof.
  intros H Hdc. apply add_statistical_features_inv in H.
  destruct H as (dc' & sorted & Hdc' & Hs & Hobs & -> & _).
  assert (dc' = dc) as -> by congruence.
  pose proof (get_date_column_contains _ _ Hdc) as Hc.
  apply observations_inv in Hobs. destruct Hobs as (_ & Ht & _).
  exists sorted. repeat split; auto.
  - apply stats_frame_length.
  - now apply stats_frame_obs.
  - rewrite stats_frame_obs by exact Hc. apply sorted_rows_obs_le.
    + eapply Forall_impl; [|exact Ht]. now intros r [? _].
    + now apply sort_values_sorted with (df := df).
Qed.

Lemma obs_key_na dc (table : list Row) i :
  (i < List.length table)%nat ->
  existsb is_na (okey (nth i (map (to_obs ["ticker"] dc) table) obs0))
  = is_na (ticker_of (nth i table [])).
Proof.
  intros Hi. rewrite (nth_map_lt (to_obs ["ticker"] dc) table i obs0 ([] : Row) Hi).
  simpl. apply orb_false_r.
Qed.

(** The rows of a returned table that have a ticker carry different
    timestamps, unless the table has no rows. *)
Lemma stats_dates_differ sqrtQ df out dc :
  add_statistical_features sqrtQ df = Ok out ->
  _get_date_column df = Ok dc ->
  rows out <> [] -> NoDup (ticker_dates dc (rows out)).
Proof.
  intros H Hdc Hne.
  destruct (add_statistical_features_inv _ _ _ H)
    as (dc' & sorted & Hdc' & _ & _ & -> & Hd).
  assert (dc' = dc) as -> by congruence.
  pose proof (get_date_column_contains _ _ Hdc) as Hc.
  rewrite ticker_dates_obs, stats_frame_obs, <- ticker_dates_obs by exact Hc.
  apply Hd. intros E. apply Hne.
  apply length_zero_iff_nil. rewrite stats_frame_length. now rewrite E.
Qed.

(** ** What the rolled Series hold *)

Lemma lookup_unique l v (s : Series) :
  unique (labels s) = true -> In (l, v) s -> lookup l s = v.
Proof.
  unfold lookup, labels.
  induction s as [|[l0 v0] s IH]; simpl; intros U I; [destruct I|].
  apply andb_true_iff in U. destruct U as [N U].
  destruct I as [E|I].
  - injection E as -> ->.
    assert (label_eqb l l = true) as -> by now apply label_eqb_eq.
    reflexivity.
  - destruct (label_eqb l0 l) eqn:E; [|now apply IH].
    apply label_eqb_eq in E. subst l0. apply negb_true_iff in N.
    assert (X : existsb (label_eqb l) (map fst s) = true).
    { apply existsb_exists. exists l. split; [|now apply label_eqb_eq].
      change l with (fst (l, v)). now apply in_map. }
    congruence.
Qed.

Lemma in_dated_series op os i :
  (i < List.length os)%nat ->
  existsb is_na (okey (nth i os obs0)) = false ->
  In (LDate (otime (nth i os obs0)),
      op (group_of okey (okey (nth i os obs0)) os)
         (pos_in_group okey (okey (nth i os obs0)) i os))
     (dated_series op os).
Proof.
  intros Hi Hna. unfold dated_series. apply in_flat_map. exists i. split.
  - apply in_seq. lia.
  - cbv zeta. rewrite Hna. now left.
Qed.

Lemma filter_firstn_all {A} (p : A -> bool) l n d :
  (forall j, (n <= j < List.length l)%nat -> p (nth j l d) = false) ->
  filter p (firstn n l) = filter p l.
Proof.
  revert n. induction l as [|a l IH]; intros [|n] H; simpl; try reflexivity.
  - assert (p a = false) as -> by (apply (H O); simpl; lia).
    rewrite <- (IH O); [reflexivity|].
    intros j Hj. apply (H (S j)). simpl. lia.
  - destruct (p a); [f_equal|]; apply IH; intros j Hj; apply (H (S j)); simpl; lia.
Qed.

Lemma value_cmp_na a b : value_cmp a b = Eq -> is_na a = is_na b.
Proof. destruct a, b; simpl; try discriminate; reflexivity. Qed.

Lemma same_entity_na r r' :
  same_entity r r' = true -> is_na (ticker_of r') = is_na (ticker_of r).
Proof.
  unfold same_entity, keys_eqb. simpl.
  destruct (value_cmp (ticker_of r) (ticker_of r')) eqn:C; try discriminate.
  intros _. symmetry. now apply value_cmp_na.
Qed.

Lemma NoDup_map_filter_nth {A B} (f : A -> B) (p : A -> bool) l d i j :
  NoDup (map f (filter p l)) -> (i < j)%nat -> (j < List.length l)%nat ->
  p (nth i l d) = true -> p (nth j l d) = true ->
  f (nth i l d) <> f (nth j l d).
Proof.
  revert i j. induction l as [|a l IH]; intros i j N Hij Hj Pi Pj; simpl in *; [lia|].
  destruct i as [|i], j as [|j]; try lia.
  - rewrite Pi in N. simpl in N. inversion N as [|? ? Hn _]; subst.
    intros E. apply Hn. rewrite E. apply in_map. apply filter_In.
    split; [apply nth_In; lia | exact Pj].
  - apply IH; try lia; auto. destruct (p a); [now inversion N | exact N].
Qed.

(** In a table sorted by ticker and date whose rows with a ticker have
    different timestamps, the rows in the window (t - w, t] of a row stand
    at or in front of it. *)
Lemma spec_window_trailing dc w (table : list Row) i :
  StronglySorted obs_le (map (to_obs ["ticker"] dc) table) ->
  NoDup (ticker_dates dc table) ->
  (i < List.length table)%nat ->
  is_na (ticker_of (nth i table [])) = false ->
  trailing_rows dc w table i = spec_window dc w table i.
Proof.
  intros Hs Hn Hi Hna. unfold trailing_rows, spec_window.
  apply filter_firstn_all with (d := ([] : Row)). intros j Hj.
  set (r := nth i table []) in *. set (r' := nth j table []).
  unfold in_trailing_window.
  destruct (same_entity r r') eqn:E; [|reflexivity]. simpl.
  destruct (time_of dc r' <=? time_of dc r) eqn:L; [|apply andb_false_r].
  exfalso. apply Z.leb_le in L.
  assert (Hij : (i < j)%nat) by lia.
  assert (Hle : time_of dc r <= time_of dc r').
  { assert (Hj' : (j < List.length (map (to_obs ["ticker"] dc) table))%nat)
      by (rewrite length_map; lia).
    pose proof (StronglySorted_nth _ _ obs0 i j Hs Hij Hj') as O.
    rewrite (nth_map_lt (to_obs ["ticker"] dc) table i obs0 ([] : Row)) in O
      by exact Hi.
    rewrite (nth_map_lt (to_obs ["ticker"] dc) table j obs0 ([] : Row)) in O
      by lia.
    unfold obs_le in O. cbn [okey otime to_obs] in O.
    eapply keys_leb_time; [|exact O]. exact E. }
  assert (Ne : time_of dc r <> time_of dc r').
  { unfold ticker_dates in Hn.
    apply (NoDup_map_filter_nth (time_of dc)
             (fun r => negb (is_na (ticker_of r))) table [] i j Hn Hij);
      [lia | |].
    - fold r. now rewrite Hna.
    - fold r'. rewrite (same_entity_na r r' E). now rewrite Hna. }
  lia.
Qed.

(** The window of the specification, read as observations. *)
Lemma spec_window_obs dc w (table : list Row) i :
  (i < List.length table)%nat ->
  map trade_value_of (spec_window dc w table i)
  = map oval (filter (in_window_obs w (nth i (map (to_obs ["ticker"] dc) table) obs0))
                     (map (to_obs ["ticker"] dc) table)).
Proof.
  intros Hi. unfold spec_window.
  rewrite (nth_map_lt (to_obs ["ticker"] dc) table i obs0 ([] : Row) Hi).
  rewrite filter_map_comm, map_map.
  reflexivity.
Qed.

(** The Series rolled for a trailing mean holds, under the timestamp of a
    row that has a ticker, the mean of [trade_value] over the window of
    the specification. *)
Lemma grouped_rolling_window_mean dc w sorted s i :
  0 < w ->
  grouped_rolling dc (rolling_mean w) sorted = Ok s ->
  StronglySorted (fun r1 r2 => row_leb ["ticker"; dc] r1 r2 = true) (rows sorted) ->
  NoDup (ticker_dates dc (rows sorted)) ->
  (i < List.length (rows sorted))%nat ->
  is_na (ticker_of (nth i (rows sorted) [])) = false ->
  lookup (LDate (time_of dc (nth i (rows sorted) []))) s
  = VNum (mean (map trade_value_of (spec_window dc w (rows sorted) i))).
Proof.
  intros Hw Hg Hs Hn Hi Hna.
  pose proof (grouped_rolling_inv _ _ _ _ Hg) as Hobs.
  rewrite (grouped_rolling_ok _ _ _ _ Hobs) in Hg. injection Hg as <-.
  apply observations_inv in Hobs. destruct Hobs as (_ & Ht & _).
  set (os := map (to_obs ["ticker"] dc) (rows sorted)).
  assert (Hso : StronglySorted obs_le os).
  { apply sorted_rows_obs_le; [|exact Hs].
    eapply Forall_impl; [|exact Ht]. now intros r [? _]. }
  assert (Hi' : (i < List.length os)%nat) by (unfold os; now rewrite length_map).
  assert (Hk : existsb is_na (okey (nth i os obs0)) = false)
    by (unfold os; now rewrite obs_key_na).
  assert (Et : otime (nth i os obs0) = time_of dc (nth i (rows sorted) []))
    by (unfold os;
        now rewrite (nth_map_lt (to_obs ["ticker"] dc) (rows sorted) i obs0
                       ([] : Row) Hi)).
  apply lookup_unique.
  - fold os. unfold os. rewrite dated_series_labels_rows. now apply unique_dates.
  - pose proof (in_dated_series (rolling_mean w) os i Hi' Hk) as I.
    rewrite (rolling_mean_window w _ _ _ (window_sorted w os i Hso Hi')) in I.
    2:{ intros E. pose proof (window_has_row w os i Hw Hi') as X.
        rewrite E in X. destruct X. }
    rewrite Et in I.
    rewrite <- spec_window_trailing by assumption.
    rewrite trailing_rows_obs by exact Hi. exact I.
Qed.

(** ** Sample tables *)

Definition trade_columns : list string :=
  ["ticker"; "date"; "transaction"; "trade_value"].

Definition trade (tk : string) (day : Z) (x : Q) : Row :=
  [("ticker", VStr tk); ("date", VDate (days day)); ("transaction", VStr "Buy");
   ("trade_value", VNum x)].

Definition result_frame (m : Result DataFrame) : DataFrame :=
  match m with Ok df => df | Err _ => empty_frame end.

(** Two trades of one ticker on the same day. *)
Definition tied_frame : DataFrame :=
  frame trade_columns [trade "ACME" 1 10; trade "ACME" 1 20].

(** Three tickers, one of them with a single trade; no two trades on the
    same day. *)
Definition sample_frame : DataFrame :=
  frame trade_columns
       [trade "ACME" 9 40; trade "BOLT" 2 7; trade "ACME" 1 10; trade "ACME" 3 20;
        trade "CORE" 4 5; trade "BOLT" 40 9].

Definition sample_stats : DataFrame :=
  Eval vm_compute in result_frame (add_statistical_features sqrt_floor sample_frame).

(** A single trade. *)
Definition single_frame : DataFrame := frame trade_columns [trade "ACME" 1 10].

Definition single_stats : DataFrame :=
  Eval vm_compute in result_frame (add_statistical_features sqrt_floor single_frame).

(** ** The trailing means and the z-score *)

(** C1 (defect of the code).  The rolling means are computed as the
    specification says: the Series rolled for 7 and for 30 days hold, under the timestamp
    of a row that has a ticker, the mean of [trade_value] over the rows of
    its group with a timestamp in (t - window, t].  But the Series are
    labelled by these timestamps, and the table they are assigned to is
    labelled by row numbers: the assignment aligns by label and finds no
    label of the table in the Series.  Whenever [add_statistical_features]
    returns a table, both columns [trade_value_7d_mean] and
    [trade_value_30d_mean] hold the missing marker in every row. *)
Theorem trailing_means_missing_in_every_row sqrtQ df out dc i :
  add_statistical_features sqrtQ df = Ok out ->
  _get_date_column df = Ok dc ->
  (i < List.length (rows out))%nat ->
  let r := nth i (rows out) [] in
  cell "trade_value_7d_mean" r = VNA
  /\ cell "trade_value_30d_mean" r = VNA
  /\ (is_na (ticker_of r) = false ->
      exists sorted rolling_7d rolling_30d,
        sort_values ["ticker"; dc] df = Ok sorted
        /\ grouped_rolling dc (rolling_mean (days 7)) sorted = Ok rolling_7d
        /\ grouped_rolling dc (rolling_mean (days 30)) sorted = Ok rolling_30d
        /\ lookup (LDate (time_of dc r)) rolling_7d
           = VNum (mean (map trade_value_of
                             (spec_window dc (days 7) (rows out) i)))
        /\ lookup (LDate (time_of dc r)) rolling_30d
           = VNum (mean (map trade_value_of
                             (spec_window dc (days 30) (rows out) i)))).
Proof.
  intros H Hdc Hi r.
  destruct (stats_context _ _ _ _ H Hdc) as (sorted & E & Hs & L & Hos & _ & _).
  split; [|split].
  - unfold r. rewrite E. now rewrite stats_frame_cell by lia.
  - unfold r. rewrite E. now rewrite stats_frame_cell by lia.
  - intros Hna.
    destruct (add_statistical_features_inv _ _ _ H)
      as (dc' & sorted' & Hdc' & Hs' & Hobs & _ & Hn).
    assert (dc' = dc) as -> by congruence.
    assert (sorted' = sorted) as -> by congruence.
    assert (Hi' : (i < List.length (rows sorted))%nat) by lia.
    assert (Eo : to_obs ["ticker"] dc r
                 = to_obs ["ticker"] dc (nth i (rows sorted) [])).
    { unfold r.
      rewrite <- (nth_map_lt (to_obs ["ticker"] dc) (rows out) i obs0 ([] : Row) Hi).
      rewrite Hos. now apply nth_map_lt. }
    assert (Etime : time_of dc r = time_of dc (nth i (rows sorted) []))
      by (apply (f_equal otime) in Eo; exact Eo).
    assert (Etk : ticker_of r = ticker_of (nth i (rows sorted) [])).
    { apply (f_equal okey) in Eo. cbn in Eo. now injection Eo. }
    assert (Hne : rows sorted <> [])
      by (intros X; rewrite X in Hi'; simpl in Hi'; lia).
    assert (W : forall w,
               map trade_value_of (spec_window dc w (rows out) i)
               = map trade_value_of (spec_window dc w (rows sorted) i)).
    { intros w. rewrite !spec_window_obs by assumption. now rewrite Hos. }
    assert (Hsd : StronglySorted
                    (fun r1 r2 => row_leb ["ticker"; dc] r1 r2 = true) (rows sorted))
      by now apply sort_values_sorted with (df := df).
    rewrite Etk in Hna.
    exists sorted. do 2 eexists.
    split; [exact Hs|].
    split; [exact (grouped_rolling_ok _ _ _ _ Hobs)|].
    split; [exact (grouped_rolling_ok _ _ _ _ Hobs)|].
    rewrite !W, Etime.
    split; apply grouped_rolling_window_mean; auto;
      try exact (grouped_rolling_ok _ _ _ _ Hobs); reflexivity.
Qed.

(** The table of a single trade of value 10: the group has one row, the
    window of either mean holds that row, the rolled Series hold its value,
    and both means are missing. *)
Lemma trailing_means_missing_in_every_row_witness :
  add_statistical_features sqrt_floor single_frame = Ok single_stats
  /\ map trade_value_of (spec_window "date" (days 7) (rows single_stats) 0) = [10]%Q
  /\ map trade_value_of (spec_window "date" (days 30) (rows single_stats) 0) = [10]%Q
  /\ let r := nth 0 (rows single_stats) [] in
     cell "trade_value_7d_mean" r = VNA
     /\ cell "trade_value_30d_mean" r = VNA
     /\ (is_na (ticker_of r) = false ->
         exists sorted rolling_7d rolling_30d,
           sort_values ["ticker"; "date"] single_frame = Ok sorted
           /\ grouped_rolling "date" (rolling_mean (days 7)) sorted = Ok rolling_7d
           /\ grouped_rolling "date" (rolling_mean (days 30)) sorted = Ok rolling_30d
           /\ lookup (LDate (time_of "date" r)) rolling_7d
              = VNum (mean (map trade_value_of
                                (spec_window "date" (days 7) (rows single_stats) 0)))
           /\ lookup (LDate (time_of "date" r)) rolling_30d
              = VNum (mean (map trade_value_of
                                (spec_window "date" (days 30) (rows single_stats) 0)))).
Proof.
  split; [vm_compute; reflexivity|].
  split; [vm_compute; reflexivity|].
  split; [vm_compute; reflexivity|].
  apply (trailing_means_missing_in_every_row sqrt_floor single_frame single_stats
           "date" 0).
  - vm_compute. reflexivity.
  - vm_compute. reflexivity.
  - vm_compute. lia.
Defined.

(** With two trades on one day the same assignment raises: the Series has
    the label of that day twice. *)
Lemma statistics_raise_on_shared_day :
  add_statistical_features sqrt_floor tied_frame
  = Err (PandasValueError "cannot reindex on an axis with duplicate labels").
Proof. vm_compute. reflexivity. Qed.

(** C2 (defect of the code).  The z-score is the quotient of two Series:
    [trade_value] minus the rolling mean, labelled by row numbers and by
    timestamps, over the rolling standard deviation, labelled by
    timestamps.  The operations align by label, the result is missing under
    every label, and so is the column [trade_value_zscore] in every row of
    every table [add_statistical_features] returns, also where the window
    holds different values, and whatever the standard deviation is: the
    same table is returned with any function in the place of the square
    root.  A table is returned only when the rows that have a ticker carry
    different timestamps, or there is no row at all. *)
Theorem zscore_missing_in_every_row sqrtQ df out dc :
  add_statistical_features sqrtQ df = Ok out ->
  _get_date_column df = Ok dc ->
  (forall i, (i < List.length (rows out))%nat ->
             cell "trade_value_zscore" (nth i (rows out) []) = VNA)
  /\ (forall sqrtQ', add_statistical_features sqrtQ' df = Ok out)
  /\ (rows out <> [] -> NoDup (ticker_dates dc (rows out))).
Proof.
  intros H Hdc. split; [|split].
  - intros i Hi.
    destruct (stats_context _ _ _ _ H Hdc) as (sorted & E & _ & L & _).
    rewrite E. now rewrite stats_frame_cell by lia.
  - intros sqrtQ'. rewrite <- H. apply add_statistical_features_any_sqrt.
  - now apply stats_dates_differ with (sqrtQ := sqrtQ) (df := df).
Qed.

(** The second trade of ACME in the sample: its window of 30 days holds the
    values 10 and 20, whose variance is not 0, and the z-score is
    missing. *)
Lemma zscore_missing_in_every_row_witness :
  add_statistical_features sqrt_floor sample_frame = Ok sample_stats
  /\ map trade_value_of (spec_window "date" (days 30) (rows sample_stats) 1)
     = [10; 20]%Q
  /\ ~ (variance [10; 20] == 0)%Q
  /\ (forall i, (i < List.length (rows sample_stats))%nat ->
                cell "trade_value_zscore" (nth i (rows sample_stats) []) = VNA)
  /\ (forall sqrtQ', add_statistical_features sqrtQ' sample_frame = Ok sample_stats)
  /\ (rows sample_stats <> [] -> NoDup (ticker_dates "date" (rows sample_stats))).
Proof.
  split; [vm_compute; reflexivity|].
  split; [vm_compute; reflexivity|].
  split; [vm_compute; discriminate|].
  apply (zscore_missing_in_every_row sqrt_floor sample_frame sample_stats "date").
  - vm_compute. reflexivity.
  - vm_compute. reflexivity.
Defined.

(** ** Percentile ranks *)

Lemma Qlen_pos {A} (l : list A) : l <> [] -> (0 < Qlen l)%Q.
Proof.
  intros N. destruct l as [|a l]; [congruence|].
  unfold Qlen. replace 0%Q with (inject_Z 0) by reflexivity.
  rewrite <- Zlt_Qlt. simpl List.length. lia.
Qed.

Lemma stats_frame_trade_value dc sorted i :
  (i < List.length (rows sorted))%nat ->
  cell "trade_value" (nth i (rows (stats_frame dc sorted)) [])
  = cell "trade_value" (nth i (rows sorted) []).
Proof. intros Hi. now rewrite stats_frame_cell by exact Hi. Qed.

Lemma Qnat_S n : (Qnat (S n) == Qnat n + 1)%Q.
Proof. unfold Qnat. now rewrite Nat2Z.inj_succ, <- Z.add_1_r, inject_Z_plus. Qed.

Lemma Qnat_add a b : (Qnat (a + b) == Qnat a + Qnat b)%Q.
Proof. unfold Qnat. now rewrite Nat2Z.inj_add, inject_Z_plus. Qed.

Lemma Qnat_le a b : (a <= b)%nat -> (Qnat a <= Qnat b)%Q.
Proof. intros H. unfold Qnat. rewrite <- Zle_Qle. lia. Qed.

Lemma Qnat_nonneg a : (0 <= Qnat a)%Q.
Proof. apply (Qnat_le 0 a). lia. Qed.

(** The sum of the ranks less + s, ..., less + s + t - 1. *)
Lemma sum_ranks less s t :
  (Qsum (map (fun k => inject_Z (Z.of_nat (less + k))) (seq s t))
   == Qnat t * (Qnat less + Qnat s) + Qnat t * (Qnat t - 1) / 2)%Q.
Proof.
  revert s. induction t as [|t IH]; intros s.
  - simpl. unfold Qnat. simpl. field.
  - cbn [seq map Qsum fold_right]. fold (Qsum (map (fun k => inject_Z (Z.of_nat (less + k))) (seq (S s) t))).
    rewrite IH. fold (Qnat (less + s)).
    rewrite !Qnat_S, Qnat_add. field.
Qed.

Lemma average_rank_value x xs :
  let less := List.length (filter (fun y => Qltb y x) xs) in
  let ties := List.length (filter (fun y => Qeq_bool y x) xs) in
  (0 < ties)%nat ->
  (average_rank x xs == Qnat less + (1 # 2) * (Qnat ties + 1))%Q.
Proof.
  intros less ties Hpos. unfold average_rank. fold less ties.
  unfold mean. rewrite sum_ranks. unfold Qlen. rewrite length_map, length_seq.
  fold (Qnat ties).
  assert (P : (0 < Qnat ties)%Q).
  { unfold Qnat. replace 0%Q with (inject_Z 0) by reflexivity.
    rewrite <- Zlt_Qlt. lia. }
  replace (Qnat 1) with 1%Q by reflexivity.
  field. intros E. rewrite E in P. now apply Qlt_irrefl in P.
Qed.

(** The group of row [i], read as observations. *)
Lemma group_values dc (table : list Row) i :
  (i < List.length table)%nat ->
  let os := map (to_obs ["ticker"] dc) table in
  let k := okey (nth i os obs0) in
  map oval (group_of okey k os)
  = map trade_value_of (entity_group table (nth i table []))
  /\ oval (nth (pos_in_group okey k i os) (group_of okey k os) obs0)
     = trade_value_of (nth i table []).
Proof.
  intros Hi os k.
  assert (Ek : k = [ticker_of (nth i table [])]).
  { unfold k, os. now rewrite (nth_map_lt (to_obs ["ticker"] dc) table i obs0 ([] : Row) Hi). }
  split.
  - unfold group_of, entity_group, os. rewrite filter_map_comm, map_map, Ek.
    reflexivity.
  - unfold pos_in_group, group_of.
    rewrite nth_filter_pos.
    + unfold os. now rewrite (nth_map_lt (to_obs ["ticker"] dc) table i obs0 ([] : Row) Hi).
    + unfold os. now rewrite length_map.
    + unfold same_key, k. apply keys_eqb_refl.
Qed.

Lemma count_values (f : Q -> bool) (l : list Row) :
  List.length (filter f (map trade_value_of l))
  = List.length (filter (fun r => f (trade_value_of r)) l).
Proof. now rewrite filter_map_comm, length_map. Qed.

Lemma row_in_own_group (table : list Row) i :
  (i < List.length table)%nat ->
  In (nth i table []) (entity_group table (nth i table [])).
Proof.
  intros Hi. apply filter_In. split; [now apply nth_In|].
  unfold same_entity. apply keys_eqb_refl.
Qed.

Lemma count_equal_pos (table : list Row) i :
  (i < List.length table)%nat -> (0 < count_equal table (nth i table []))%nat.
Proof.
  intros Hi. unfold count_equal.
  assert (I : In (nth i table [])
                 (filter (fun r' => Qeq_bool (trade_value_of r')
                                             (trade_value_of (nth i table [])))
                         (entity_group table (nth i table [])))).
  { apply filter_In. split; [now apply row_in_own_group|].
    apply Qeq_bool_iff. reflexivity. }
  destruct (filter _ _); [destruct I | simpl; lia].
Qed.

Lemma rank_pct_cell dc (table : list Row) i :
  (i < List.length table)%nat ->
  is_na (ticker_of (nth i table [])) = false ->
  exists q,
    nth i (groupby_apply okey obs0 rank_pct (map (to_obs ["ticker"] dc) table)) VNA
    = VNum q
    /\ (q == average_pct_rank table (nth i table []))%Q.
Proof.
  intros Hi Hna.
  rewrite groupby_apply_nth by now rewrite length_map.
  rewrite obs_key_na, Hna by exact Hi.
  destruct (group_values dc table i Hi) as [Hg Hx].
  unfold rank_pct. rewrite Hg, Hx. eexists. split; [reflexivity|].
  unfold average_pct_rank.
  assert (Qlen (map trade_value_of (entity_group table (nth i table [])))
          = Qlen (entity_group table (nth i table []))) as ->
    by (unfold Qlen; now rewrite length_map).
  rewrite average_rank_value.
  - rewrite !count_values. reflexivity.
  - rewrite count_values. now apply count_equal_pos.
Qed.

(** C3 (amended).  The percentile rank of a row is
    (below + 0.5 * (equal + 1)) / N, where below and equal count the rows
    of its group with a smaller, respectively the same, [trade_value] and N
    is the size of the group. *)
Theorem pct_rank_average_rank sqrtQ df out i :
  add_statistical_features sqrtQ df = Ok out ->
  (i < List.length (rows out))%nat ->
  is_na (ticker_of (nth i (rows out) [])) = false ->
  exists q,
    cell "trade_value_pct_rank" (nth i (rows out) []) = VNum q
    /\ (q == average_pct_rank (rows out) (nth i (rows out) []))%Q.
Proof.
  intros H Hi Hna.
  destruct (add_statistical_features_inv _ _ _ H) as (dc & _ & Hdc & _).
  destruct (stats_context _ _ _ _ H Hdc) as (sorted & E & _ & L & Hos & Hs & Ht).
  destruct (rank_pct_cell dc (rows out) i Hi Hna) as (q & Hq & Hq').
  exists q. split; [|exact Hq']. rewrite <- Hq, Hos.
  rewrite E. rewrite stats_frame_cell by lia. reflexivity.
Qed.

Lemma pct_rank_average_rank_witness :
  exists q,
    cell "trade_value_pct_rank" (nth 2 (rows sample_stats) []) = VNum q
    /\ (q == average_pct_rank (rows sample_stats) (nth 2 (rows sample_stats) []))%Q.
Proof.
  apply (pct_rank_average_rank sqrt_floor sample_frame sample_stats 2).
  - vm_compute. reflexivity.
  - vm_compute. lia.
  - vm_compute. reflexivity.
Defined.

(** C3, as stated, fails already for a group of one row: its rank is 1, and
    the formula of the claim gives (0 + 0.5 * 1) / 1 = 1/2. *)
Lemma pct_rank_of_single_row_is_one :
  add_statistical_features sqrt_floor single_frame = Ok single_stats
  /\ cell "trade_value_pct_rank" (nth 0 (rows single_stats) []) = VNum 1
  /\ (spec_pct_rank (rows single_stats) (nth 0 (rows single_stats) []) == 1 # 2)%Q
  /\ ~ (1 == spec_pct_rank (rows single_stats) (nth 0 (rows single_stats) []))%Q.
Proof.
  repeat split; try (vm_compute; reflexivity).
  vm_compute. discriminate.
Qed.

Lemma filter_exclusive_length {A} (f g : A -> bool) l :
  (forall x, f x = true -> g x = false) ->
  (List.length (filter f l) + List.length (filter g l) <= List.length l)%nat.
Proof.
  intros Hfg. induction l as [|a l IH]; simpl; [lia|].
  destruct (f a) eqn:Ef.
  - rewrite (Hfg a Ef). simpl. lia.
  - destruct (g a); simpl; lia.
Qed.

Lemma filter_cover_length {A} (f g : A -> bool) l :
  (forall x, f x = true -> g x = false) ->
  (forall x, In x l -> f x = true \/ g x = true) ->
  (List.length (filter f l) + List.length (filter g l) = List.length l)%nat.
Proof.
  intros Hfg Hc. induction l as [|a l IH]; simpl; [lia|].
  assert (IH' := IH (fun x Hx => Hc x (or_intror Hx))).
  destruct (f a) eqn:Ef.
  - rewrite (Hfg a Ef). simpl. lia.
  - destruct (Hc a (or_introl eq_refl)) as [Hf|Hg]; [congruence|].
    rewrite Hg. simpl. lia.
Qed.

Lemma Qltb_not_eq x y : Qltb y x = true -> Qeq_bool y x = false.
Proof.
  unfold Qltb. intros H. apply negb_true_iff in H.
  destruct (Qeq_bool y x) eqn:E; [|reflexivity].
  apply Qeq_bool_iff in E.
  assert (Qle_bool x y = true) by (apply Qle_bool_iff; rewrite E; apply Qle_refl).
  congruence.
Qed.

Lemma Qle_ltb_or_eq x y : (y <= x)%Q -> Qltb y x = true \/ Qeq_bool y x = true.
Proof.
  intros H. destruct (Qeq_bool y x) eqn:E; [now right|left].
  unfold Qltb. apply negb_true_iff. destruct (Qle_bool x y) eqn:L; [|reflexivity].
  apply Qle_bool_iff in L.
  assert (y == x)%Q by now apply Qle_antisym.
  apply Qeq_bool_iff in H0. congruence.
Qed.

Lemma count_below_equal_le (table : list Row) r :
  (count_below table r + count_equal table r
   <= List.length (entity_group table r))%nat.
Proof.
  unfold count_below, count_equal. apply filter_exclusive_length.
  intros x. apply Qltb_not_eq.
Qed.

Lemma count_below_equal_max (table : list Row) r :
  (forall r', In r' (entity_group table r) ->
              trade_value_of r' <= trade_value_of r)%Q ->
  (count_below table r + count_equal table r
   = List.length (entity_group table r))%nat.
Proof.
  intros Hmax. unfold count_below, count_equal. apply filter_cover_length.
  - intros x. apply Qltb_not_eq.
  - intros x Hx. apply Qle_ltb_or_eq. now apply Hmax.
Qed.

Lemma average_pct_rank_bounds (table : list Row) i :
  (i < List.length table)%nat ->
  let r := nth i table [] in
  (0 < average_pct_rank table r)%Q /\ (average_pct_rank table r <= 1)%Q
  /\ ((forall r', In r' (entity_group table r) ->
                  trade_value_of r' <= trade_value_of r)%Q ->
      count_equal table r = 1%nat ->
      (average_pct_rank table r == 1)%Q).
Proof.
  intros Hi r.
  pose proof (count_equal_pos table i Hi) as He. fold r in He.
  pose proof (count_below_equal_le table r) as Hle.
  pose proof (Qnat_le _ _ He) as He'.
  pose proof (Qnat_le _ _ Hle) as Hle'. rewrite Qnat_add in Hle'.
  pose proof (Qnat_nonneg (count_below table r)) as Hb.
  change (Qnat 1) with 1%Q in He'.
  unfold average_pct_rank. unfold Qlen. fold (Qnat (List.length (entity_group table r))).
  set (b := Qnat (count_below table r)) in *.
  set (e := Qnat (count_equal table r)) in *.
  set (n := Qnat (List.length (entity_group table r))) in *.
  assert (Hn : (0 < n)%Q) by lra.
  repeat split.
  - apply Qlt_shift_div_l; [exact Hn | lra].
  - apply Qle_shift_div_r; [exact Hn | lra].
  - intros Hmax H1.
    pose proof (count_below_equal_max table r Hmax) as Hsum.
    assert (Es : (b + e == n)%Q).
    { unfold b, e, n. rewrite <- Qnat_add. now rewrite Hsum. }
    assert (Ee : (e == 1)%Q) by (unfold e; now rewrite H1).
    field_simplify_eq; [lra | lra].
Qed.

(** C10 (amended).  The percentile rank of every row lies in (0, 1], and it
    is 1 for a row that holds the maximum [trade_value] of its group alone,
    with no other row of the group equal to it. *)
Theorem pct_rank_bounds sqrtQ df out i :
  add_statistical_features sqrtQ df = Ok out ->
  (i < List.length (rows out))%nat ->
  is_na (ticker_of (nth i (rows out) [])) = false ->
  let r := nth i (rows out) [] in
  exists q,
    cell "trade_value_pct_rank" r = VNum q
    /\ (0 < q)%Q /\ (q <= 1)%Q
    /\ ((forall r', In r' (entity_group (rows out) r) ->
                    trade_value_of r' <= trade_value_of r)%Q ->
        count_equal (rows out) r = 1%nat ->
        (q == 1)%Q).
Proof.
  intros H Hi Hna r.
  destruct (add_statistical_features_inv _ _ _ H) as (dc & _ & Hdc & _).
  destruct (stats_context _ _ _ _ H Hdc) as (sorted & E & _ & L & Hos & Hs & Ht).
  destruct (rank_pct_cell dc (rows out) i Hi Hna) as (q & Hq & Hq').
  destruct (average_pct_rank_bounds (rows out) i Hi) as (B0 & B1 & Bmax).
  exists q. split; [|repeat split].
  - unfold r. rewrite <- Hq, Hos.
    rewrite E. rewrite stats_frame_cell by lia. reflexivity.
  - now rewrite Hq'.
  - now rewrite Hq'.
  - intros Hmax H1. rewrite Hq'. now apply Bmax.
Qed.

(** Two trades of one ticker with the same value. *)
Definition equal_frame : DataFrame :=
  frame trade_columns [trade "ACME" 1 10; trade "ACME" 2 10].

Definition equal_stats : DataFrame :=
  Eval vm_compute in result_frame (add_statistical_features sqrt_floor equal_frame).

Lemma pct_rank_bounds_witness :
  let r := nth 2 (rows sample_stats) [] in
  exists q,
    cell "trade_value_pct_rank" r = VNum q
    /\ (0 < q)%Q /\ (q <= 1)%Q
    /\ ((forall r', In r' (entity_group (rows sample_stats) r) ->
                    trade_value_of r' <= trade_value_of r)%Q ->
        count_equal (rows sample_stats) r = 1%nat ->
        (q == 1)%Q).
Proof.
  apply (pct_rank_bounds sqrt_floor sample_frame sample_stats 2).
  - vm_compute. reflexivity.
  - vm_compute. lia.
  - vm_compute. reflexivity.
Defined.

(** C10, as stated, fails when the maximum of a group is tied: each of two
    rows with the same value holds the maximum and has the rank 3/4. *)
Lemma pct_rank_of_tied_maximum :
  add_statistical_features sqrt_floor equal_frame = Ok equal_stats
  /\ (forall r', In r' (entity_group (rows equal_stats) (nth 0 (rows equal_stats) [])) ->
                 trade_value_of r' <= trade_value_of (nth 0 (rows equal_stats) []))%Q
  /\ exists q,
       cell "trade_value_pct_rank" (nth 0 (rows equal_stats) []) = VNum q
       /\ (q == 3 # 4)%Q /\ ~ (q == 1)%Q.
Proof.
  split; [vm_compute; reflexivity|]. split.
  - intros r' Hr'. vm_compute in Hr'.
    destruct Hr' as [<-|[<-|[]]]; vm_compute; discriminate.
  - eexists. split; [vm_compute; reflexivity|].
    split; vm_compute; [reflexivity | discriminate].
Qed.

(** ** The unusual-volume flag *)

Lemma Qltb_lt a b : Qltb a b = true <-> (a < b)%Q.
Proof.
  unfold Qltb. rewrite negb_true_iff. split.
  - intros H. apply Qnot_le_lt. intros L. apply Qle_bool_iff in L. congruence.
  - intros H. destruct (Qle_bool b a) eqn:E; [|reflexivity].
    apply Qle_bool_iff in E. exfalso. now apply (Qlt_not_le a b).
Qed.

Lemma quantile_defined q xs : xs <> [] -> exists p, quantile q xs = VNum p.
Proof. intros N. destruct xs; [congruence|]. simpl. now eexists. Qed.

Lemma same_entity_group (table : list Row) r r' :
  same_entity r r' = true -> entity_group table r' = entity_group table r.
Proof.
  intros H. unfold entity_group. apply filter_ext. intros x.
  unfold same_entity in *. symmetry. now apply keys_eqb_compat.
Qed.

Lemma sorted_trade_value dc sorted i :
  Forall (fun r => cell dc r = VDate (time_of dc r)
                   /\ as_num (cell "trade_value" r) = Some (trade_value_of r))
         (rows sorted) ->
  (i < List.length (rows sorted))%nat ->
  as_num (cell "trade_value" (nth i (rows sorted) []))
  = Some (trade_value_of (nth i (rows (stats_frame dc sorted)) [])).
Proof.
  intros Ht Hi. rewrite Forall_forall in Ht.
  destruct (Ht (nth i (rows sorted) [])) as [_ Hv]; [now apply nth_In|].
  rewrite Hv. unfold trade_value_of at 2.
  rewrite stats_frame_trade_value by exact Hi. now rewrite Hv.
Qed.

(** With the exact numbers of this development, the flag [unusual_volume]
    of a row is 1 when its [trade_value] is above the 95th percentile of
    [trade_value] over its whole ticker group, and 0 otherwise; the
    threshold is the same for every row of the group.  The program compares
    binary64 numbers, and the rounding of the interpolated percentile is
    outside this development. *)
Lemma unusual_volume_exact sqrtQ df out i :
  add_statistical_features sqrtQ df = Ok out ->
  (i < List.length (rows out))%nat ->
  is_na (ticker_of (nth i (rows out) [])) = false ->
  let r := nth i (rows out) [] in
  exists p,
    percentile_95_of (rows out) r = VNum p
    /\ (cell "unusual_volume" r = VInt 1 <-> (p < trade_value_of r)%Q)
    /\ (cell "unusual_volume" r = VInt 0 <-> ~ (p < trade_value_of r)%Q)
    /\ (forall r', In r' (entity_group (rows out) r) ->
                   percentile_95_of (rows out) r' = VNum p).
Proof.
  intros H Hi Hna r.
  destruct (add_statistical_features_inv _ _ _ H) as (dc & _ & Hdc & _).
  destruct (stats_context _ _ _ _ H Hdc) as (sorted & E & _ & L & Hos & Hs & Ht).
  destruct (series_lengths dc sorted) as (Lr & Lp & Lu).
  destruct (quantile_defined (19 # 20) (map trade_value_of (entity_group (rows out) r)))
    as [p Hp].
  { pose proof (row_in_own_group (rows out) i Hi) as I. fold r in I.
    destruct (entity_group (rows out) r); [destruct I | discriminate]. }
  assert (C : cell "unusual_volume" r = int_of_bool (Qltb p (trade_value_of r))).
  { unfold r at 1. rewrite E at 1. rewrite stats_frame_cell by lia. simpl.
    unfold series_unusual.
    rewrite zip_with_nth with (d1 := VNA) (d2 := VNA)
      by (rewrite ?length_map; lia).
    rewrite nth_map_lt with (d' := ([] : Row)) by lia.
    unfold vgt.
    rewrite (sorted_trade_value dc sorted i Ht) by lia. rewrite <- E. fold r.
    unfold series_p95. rewrite <- Hos.
    rewrite groupby_apply_nth by (rewrite length_map; lia).
    rewrite obs_key_na, Hna by exact Hi.
    destruct (group_values dc (rows out) i Hi) as [Hg _]. rewrite Hg. fold r.
    rewrite Hp. reflexivity. }
  exists p. split; [exact Hp|]. rewrite C. unfold int_of_bool.
  repeat split.
  - destruct (Qltb p (trade_value_of r)) eqn:B; [intros _|discriminate].
    now apply Qltb_lt.
  - intros B. apply Qltb_lt in B. now rewrite B.
  - destruct (Qltb p (trade_value_of r)) eqn:B; [discriminate|intros _].
    intros B'. apply Qltb_lt in B'. congruence.
  - intros B. destruct (Qltb p (trade_value_of r)) eqn:B'; [|reflexivity].
    apply Qltb_lt in B'. contradiction.
  - intros r' Hr'. unfold percentile_95_of.
    apply filter_In in Hr'. destruct Hr' as [_ Hr'].
    now rewrite (same_entity_group (rows out) r r' Hr').
Qed.

(** ** The temporal gaps *)

Definition dated (dc : string) (r : Row) : Prop := cell dc r = VDate (time_of dc r).

Lemma traverse_as_date dc (l : list Row) :
  Forall (dated dc) l ->
  traverse as_date (map (cell dc) l) = Some (map (time_of dc) l).
Proof.
  induction 1 as [|r l Hr Hl IH]; simpl; [reflexivity|].
  rewrite IH, Hr. reflexivity.
Qed.

Lemma traverse_as_date_inv dc (l : list Row) ts :
  traverse as_date (map (cell dc) l) = Some ts ->
  Forall (dated dc) l /\ ts = map (time_of dc) l.
Proof.
  revert ts. induction l as [|r l IH]; intros ts; simpl.
  - intros [= <-]. split; constructor.
  - destruct (as_date (cell dc r)) as [t|] eqn:Et; [|discriminate].
    destruct (traverse as_date (map (cell dc) l)) as [ts'|]; [|discriminate].
    intros [= <-]. destruct (IH ts' eq_refl) as [Hl ->].
    assert (D : dated dc r).
    { unfold dated, time_of. destruct (cell dc r); try discriminate. reflexivity. }
    split; [now constructor|]. f_equal.
    unfold time_of. destruct (cell dc r); try discriminate. now injection Et.
Qed.

Lemma get_date_column_has df dc : _get_date_column df = Ok dc -> has_column dc df = true.
Proof.
  unfold _get_date_column. destruct (has_column "date" df) eqn:H.
  - now intros [= <-].
  - unfold find_column. destruct (find _ _) as [col|] eqn:F; [|discriminate].
    intros [= <-]. apply find_some in F. destruct F as [I _].
    unfold has_column. apply existsb_exists. exists col. split; [exact I|].
    apply String.eqb_refl.
Qed.

(** [assign_dt] on a column that has the dtype. *)
Definition add_part (name : string) (part : Z -> value) (dc : string)
  (df : DataFrame) : DataFrame :=
  assign name (map (fun r => part (time_of dc r)) (rows df)) df.

(** [assign_dt] succeeds exactly on a [datetime64] column. *)
Lemma assign_dt_inv name part dc df df' :
  assign_dt name part dc df = Ok df' ->
  has_column dc df = true /\ Forall (dated dc) (rows df)
  /\ df' = add_part name part dc df.
Proof.
  unfold assign_dt, date_column, column.
  destruct (has_column dc df); [|discriminate]. cbn [bind].
  destruct (traverse as_date _) as [ts|] eqn:T; [|discriminate]. cbn [bind].
  intros [= <-]. apply traverse_as_date_inv in T. destruct T as [Hd ->].
  unfold add_part. now rewrite map_map.
Qed.

Lemma assign_dt_ok name part dc df :
  has_column dc df = true -> Forall (dated dc) (rows df) ->
  assign_dt name part dc df = Ok (add_part name part dc df).
Proof.
  intros Hc Hd. unfold assign_dt, date_column, column. rewrite Hc. cbn [bind].
  rewrite (traverse_as_date dc _ Hd). cbn [bind]. unfold add_part. now rewrite map_map.
Qed.

(** Assigning a column computed row by row maps the rows. *)
Lemma rows_assign_map c (f : Row -> value) df :
  rows (assign c (map f (rows df)) df) = map (fun r => set_cell c (f r) r) (rows df).
Proof.
  rewrite rows_assign. induction (rows df) as [|r l IH]; simpl; [reflexivity|].
  now rewrite IH.
Qed.

Lemma time_of_set_cell dc c v r : c <> dc -> time_of dc (set_cell c v r) = time_of dc r.
Proof. intros N. unfold time_of. rewrite cell_set_cell_other by congruence. reflexivity. Qed.

Lemma dated_set_cell dc c v r : c <> dc -> dated dc r -> dated dc (set_cell c v r).
Proof.
  intros N D. unfold dated. rewrite time_of_set_cell by exact N.
  rewrite cell_set_cell_other by congruence. exact D.
Qed.

(** The frame after the four calendar columns. *)
Definition calendar_frame (dc : string) (df : DataFrame) : DataFrame :=
  add_part "weekday" dt_weekday dc
    (add_part "day" dt_day dc
       (add_part "month" dt_month dc (add_part "year" dt_year dc df))).

Lemma calendar_frame_rows dc df :
  contains "date" dc = true ->
  rows (calendar_frame dc df) = map (with_calendar dc) (rows df).
Proof.
  intros Hdc. unfold calendar_frame, add_part. rewrite !rows_assign_map, !map_map.
  apply map_ext. intros r. unfold with_calendar.
  rewrite !time_of_set_cell
    by (apply date_column_not_derived; [exact Hdc | reflexivity]).
  reflexivity.
Qed.

Lemma has_column_calendar c dc df :
  has_column c (calendar_frame dc df)
  = has_column c df || existsb (String.eqb c) ["year"; "month"; "day"; "weekday"].
Proof.
  unfold calendar_frame, add_part. rewrite !has_column_assign. simpl.
  rewrite orb_false_r, <- !orb_assoc. reflexivity.
Qed.

Lemma dated_with_calendar dc r :
  contains "date" dc = true -> dated dc r -> dated dc (with_calendar dc r).
Proof.
  intros Hdc D. unfold with_calendar.
  repeat (apply dated_set_cell;
          [apply date_column_not_derived; [exact Hdc | reflexivity]|]).
  exact D.
Qed.

Lemma get_insider_column_has df ic :
  _get_insider_column df = Some ic -> has_column ic df = true.
Proof.
  unfold _get_insider_column.
  destruct (find _ insider_candidates) as [c|] eqn:F.
  - intros [= <-]. now apply find_some in F.
  - unfold find_column. intros F'. apply find_some in F'. destruct F' as [I _].
    unfold has_column. apply existsb_exists. exists ic. split; [exact I|].
    apply String.eqb_refl.
Qed.

(** The actor column is none of the columns the function adds. *)
Lemma get_insider_column_not_derived df ic c :
  _get_insider_column df = Some ic ->
  contains "insider" c = false -> existsb (String.eqb c) insider_candidates = false ->
  c <> ic.
Proof.
  unfold _get_insider_column. intros H Hc Hn ->.
  destruct (find _ insider_candidates) as [c|] eqn:F.
  - injection H as ->. apply find_some in F. destruct F as [I _].
    assert (existsb (String.eqb ic) insider_candidates = true).
    { apply existsb_exists. exists ic. split; [exact I | apply String.eqb_refl]. }
    congruence.
  - unfold find_column in H. apply find_some in H. destruct H as [_ H]. congruence.
Qed.

Definition key_time (by_ : list string) (dc : string) (r : Row) : list value * Z :=
  (key_of by_ r, time_of dc r).

Lemma timed_keys_ok by_ dc df :
  forallb (fun c => has_column c df) (by_ ++ [dc]) = true ->
  Forall (dated dc) (rows df) ->
  timed_keys by_ dc df = Ok (map (key_time by_ dc) (rows df)).
Proof.
  intros Hc Hd. unfold timed_keys.
  destruct (find _ (by_ ++ [dc])%list) as [c|] eqn:F.
  - apply find_some in F. destruct F as [I N].
    rewrite forallb_forall in Hc. rewrite (Hc c I) in N. discriminate.
  - assert (T : traverse (row_key_time by_ dc) (rows df)
                = Some (map (key_time by_ dc) (rows df))).
    { clear F Hc. induction Hd as [|r l Hr Hl IH]; simpl; [reflexivity|].
      rewrite IH. unfold row_key_time. rewrite Hr. reflexivity. }
    now rewrite T.
Qed.

(** The frame [add_date_features] returns on a [datetime64] date column. *)
Definition gap_frame (dc : string) (df : DataFrame) : DataFrame :=
  let dated_df := calendar_frame dc df in
  match _get_insider_column df with
  | Some ic =>
      if has_column "ticker" df then
        let sorted :=
          mkDF (columns dated_df)
               (sorted_entries [ic; "ticker"; dc] (entries dated_df)) in
        assign "days_since_last_trade"
               (groupby_apply fst ([], 0) diff_days
                              (map (key_time [ic; "ticker"] dc) (rows sorted)))
               sorted
      else assign_scalar "days_since_last_trade" VNA dated_df
  | None => assign_scalar "days_since_last_trade" VNA dated_df
  end.

Lemma calendar_steps dc df :
  contains "date" dc = true ->
  has_column dc df = true -> Forall (dated dc) (rows df) ->
  (d1 <- assign_dt "year" dt_year dc df ;;
   d2 <- assign_dt "month" dt_month dc d1 ;;
   d3 <- assign_dt "day" dt_day dc d2 ;;
   assign_dt "weekday" dt_weekday dc d3)
  = Ok (calendar_frame dc df).
Proof.
  intros Hdc Hc Hd.
  assert (step : forall name part d,
             contains "date" name = false ->
             has_column dc d = true /\ Forall (dated dc) (rows d) ->
             has_column dc (add_part name part dc d) = true
             /\ Forall (dated dc) (rows (add_part name part dc d))).
  { intros name part d Hn [H1 H2]. unfold add_part. split.
    - rewrite has_column_assign, H1. reflexivity.
    - rewrite rows_assign_map. apply Forall_map.
      eapply Forall_impl; [|exact H2]. intros r Hr. apply dated_set_cell; auto.
      now apply date_column_not_derived. }
  pose proof (conj Hc Hd) as S0.
  pose proof (step "year" dt_year _ eq_refl S0) as S1.
  pose proof (step "month" dt_month _ eq_refl S1) as S2.
  pose proof (step "day" dt_day _ eq_refl S2) as S3.
  rewrite assign_dt_ok by tauto. cbn [bind].
  rewrite assign_dt_ok by tauto. cbn [bind].
  rewrite assign_dt_ok by tauto. cbn [bind].
  rewrite assign_dt_ok by tauto. reflexivity.
Qed.

Lemma add_date_features_dated df out dc :
  add_date_features df = Ok out -> _get_date_column df = Ok dc ->
  Forall (dated dc) (rows df).
Proof.
  unfold add_date_features. intros H Hdc. rewrite Hdc in H. cbn [bind] in H.
  destruct (assign_dt "year" dt_year dc df) as [d1|] eqn:E1; [|discriminate].
  apply assign_dt_inv in E1. tauto.
Qed.

Lemma add_date_features_eq df dc :
  _get_date_column df = Ok dc -> Forall (dated dc) (rows df) ->
  add_date_features df = Ok (gap_frame dc df).
Proof.
  intros Hdc Hd. unfold add_date_features. rewrite Hdc. cbn [bind].
  pose proof (get_date_column_contains _ _ Hdc) as Hc.
  pose proof (get_date_column_has _ _ Hdc) as Hh.
  pose proof (calendar_steps dc df Hc Hh Hd) as S.
  destruct (assign_dt "year" dt_year dc df) as [d1|]; [|discriminate]. cbn [bind] in *.
  destruct (assign_dt "month" dt_month dc d1) as [d2|]; [|discriminate]. cbn [bind] in *.
  destruct (assign_dt "day" dt_day dc d2) as [d3|]; [|discriminate]. cbn [bind] in *.
  rewrite S. cbn [bind]. unfold gap_frame.
  destruct (_get_insider_column df) as [ic|] eqn:Ei; [|reflexivity].
  rewrite has_column_calendar. simpl. rewrite orb_false_r.
  destruct (has_column "ticker" df) eqn:Ht; [|reflexivity].
  assert (Hcols : forallb (fun c => has_column c (calendar_frame dc df))
                          [ic; "ticker"; dc] = true).
  { simpl. rewrite !has_column_calendar, Ht, Hh, (get_insider_column_has _ _ Ei).
    reflexivity. }
  rewrite (sort_values_ok _ _ Hcols). cbn [bind].
  rewrite timed_keys_ok; [reflexivity | exact Hcols |].
  rewrite rows_sorted_frame. fold (rows (calendar_frame dc df)).
  eapply Permutation_Forall;
    [symmetry; apply stable_sort_perm|].
  rewrite calendar_frame_rows by exact Hc. apply Forall_map.
  eapply Forall_impl; [|exact Hd]. intros r. now apply dated_with_calendar.
Qed.

Lemma nth_length_last {A} (a : A) l d : nth (List.length l) (a :: l) d = last (a :: l) d.
Proof.
  revert a. induction l as [|b l IH]; intros a; [reflexivity|].
  change (nth (List.length l) (b :: l) d = last (b :: l) d). apply IH.
Qed.

Lemma nth_pred_last {A} (l : list A) d :
  l <> [] -> nth (List.length l - 1) l d = last l d.
Proof.
  destruct l as [|a l]; [congruence|]. intros _.
  cbn [List.length]. rewrite Nat.sub_succ, Nat.sub_0_r. apply nth_length_last.
Qed.

Lemma last_default {A} (l : list A) d d' : l <> [] -> last l d = last l d'.
Proof.
  induction l as [|a l IH]; intros N; [congruence|].
  destruct l as [|b l]; [reflexivity|]. apply IH. discriminate.
Qed.

Lemma last_map {A B} (f : A -> B) l d : last (map f l) (f d) = f (last l d).
Proof.
  induction l as [|a l IH]; [reflexivity|].
  destruct l as [|b l]; [reflexivity|]. exact IH.
Qed.

(** What [diff] computes for element [i]: nothing when no element of its
    group stands in front of it, else the days since the last such element. *)
Lemma diff_days_value (tk : list (list value * Z)) i :
  (i < List.length tk)%nat ->
  let k := fst (nth i tk ([], 0)) in
  diff_days (group_of fst k tk) (pos_in_group fst k i tk)
  = match filter (same_key fst k) (firstn i tk) with
    | [] => VNA
    | e => VNum (inject_Z ((snd (nth i tk ([], 0)) - snd (last e ([], 0))) / day_ns))
    end.
Proof.
  intros Hi k.
  assert (Hk : same_key fst k (nth i tk ([], 0)) = true)
    by (unfold same_key, k; apply keys_eqb_refl).
  unfold pos_in_group, group_of.
  pose proof (firstn_filter (same_key fst k) tk i) as F.
  pose proof (nth_filter_pos ([], 0) (same_key fst k) tk i Hi Hk) as P.
  remember (filter (same_key fst k) (firstn i tk)) as e eqn:Ee.
  remember (filter (same_key fst k) tk) as g eqn:Eg.
  clear Ee Eg. destruct e as [|x e']; [reflexivity|].
  cbn [List.length] in *. unfold diff_days. rewrite P. do 3 f_equal.
  rewrite <- nth_length_last, <- F.
  rewrite nth_firstn.
  assert ((List.length e' <? S (List.length e'))%nat = true) as ->
    by (apply Nat.ltb_lt; lia).
  reflexivity.
Qed.

Lemma earlier_trades_keys ic dc (table : list Row) i :
  (i < List.length table)%nat ->
  let tk := map (key_time [ic; "ticker"] dc) table in
  filter (same_key fst (fst (nth i tk ([], 0)))) (firstn i tk)
  = map (key_time [ic; "ticker"] dc) (earlier_trades ic table i).
Proof.
  intros Hi tk. unfold tk, earlier_trades.
  rewrite (nth_map_lt (key_time [ic; "ticker"] dc) table i ([], 0) ([] : Row) Hi).
  rewrite firstn_map, filter_map_comm. reflexivity.
Qed.

(** The gap a row of a table receives. *)
Lemma diff_days_cell ic dc (table : list Row) i :
  (i < List.length table)%nat ->
  existsb is_na (key_of [ic; "ticker"] (nth i table [])) = false ->
  nth i (groupby_apply fst ([], 0) diff_days (map (key_time [ic; "ticker"] dc) table)) VNA
  = expected_gap ic dc table i.
Proof.
  intros Hi Hna.
  assert (Hi' : (i < List.length (map (key_time [ic; "ticker"] dc) table))%nat)
    by now rewrite length_map.
  rewrite groupby_apply_nth by exact Hi'.
  rewrite diff_days_value by exact Hi'.
  rewrite earlier_trades_keys by exact Hi.
  rewrite (nth_map_lt (key_time [ic; "ticker"] dc) table i ([], 0) ([] : Row) Hi).
  cbn [key_time fst snd]. rewrite Hna.
  unfold expected_gap.
  destruct (earlier_trades ic table i) as [|x e] eqn:E; [reflexivity|].
  cbn [map]. change (key_time [ic; "ticker"] dc x :: map (key_time [ic; "ticker"] dc) e)
    with (map (key_time [ic; "ticker"] dc) (x :: e)).
  rewrite last_default with (d' := key_time [ic; "ticker"] dc []) by discriminate.
  rewrite last_map. reflexivity.
Qed.

Lemma map_rows_assign_ext {B} (f : Row -> B) c s df :
  (forall r v, f (set_cell c v r) = f r) ->
  List.length s = List.length (rows df) ->
  map f (rows (assign c s df)) = map f (rows df).
Proof.
  intros Hf. rewrite rows_assign. rewrite map_map.
  revert s. induction (rows df) as [|r l IH]; intros [|v s] L; simpl in *;
    try discriminate; [reflexivity|].
  rewrite Hf, IH by lia. reflexivity.
Qed.

Lemma nth_firstn_lt_helper {A} (l : list A) j n (d : A) :
  (j < n)%nat -> nth j (firstn n l) d = nth j l d.
Proof.
  intros H. rewrite nth_firstn.
  assert ((j <? n)%nat = true) as -> by now apply Nat.ltb_lt. reflexivity.
Qed.

(** A row as an observation keyed by the columns [by_]. *)
Definition keyed_obs (by_ : list string) (dc : string) (r : Row) : obs :=
  mkObs (key_of by_ r) (time_of dc r) 0.

Lemma sorted_rows_keyed by_ dc l :
  Forall (dated dc) l ->
  StronglySorted (fun r1 r2 => row_leb (by_ ++ [dc]) r1 r2 = true) l ->
  StronglySorted obs_le (map (keyed_obs by_ dc) l).
Proof.
  intros Ht Hs. apply StronglySorted_map.
  eapply StronglySorted_impl_in; [|exact Hs].
  rewrite Forall_forall in Ht. intros x y Ix Iy.
  unfold row_leb, obs_le, key_of, keyed_obs. cbn [okey otime].
  rewrite !map_app. cbn [map].
  now rewrite (Ht x Ix), (Ht y Iy).
Qed.

(** In a table sorted by the key columns and then the date, the rows of a
    group in front of a row are not later than the row. *)
Lemma earlier_rows_not_later by_ dc (table : list Row) i r' :
  Forall (dated dc) table ->
  StronglySorted (fun r1 r2 => row_leb (by_ ++ [dc]) r1 r2 = true) table ->
  (i < List.length table)%nat ->
  In r' (firstn i table) ->
  keys_eqb (key_of by_ (nth i table [])) (key_of by_ r') = true ->
  time_of dc r' <= time_of dc (nth i table []).
Proof.
  intros Hd Hs Hi Hin Hk.
  pose proof (sorted_rows_keyed by_ dc table Hd Hs) as Hs'.
  assert (Hi' : (i < List.length (map (keyed_obs by_ dc) table))%nat)
    by now rewrite length_map.
  pose proof (sorted_group_prefix_time _ i (keyed_obs by_ dc r') Hs' Hi') as T.
  rewrite (nth_map_lt (keyed_obs by_ dc) table i obs0 ([] : Row) Hi) in T.
  apply T; [|exact Hk].
  rewrite firstn_map. apply in_map.
  destruct (In_firstn_nth _ _ _ ([] : Row) Hin) as (j & Hj & Hl & <-).
  rewrite <- (nth_firstn_lt_helper table j (S i)) by lia.
  apply nth_In. rewrite length_firstn. lia.
Qed.

Lemma del_set_cell c v r : del_cell c (set_cell c v r) = del_cell c r.
Proof.
  induction r as [|[k w] r IH]; simpl.
  - now rewrite String.eqb_refl.
  - destruct (String.eqb k c) eqn:E; simpl; rewrite E; [reflexivity | now rewrite IH].
Qed.

(** The returned frame when there is an actor column and a ticker column:
    the sorted calendar frame with the gaps assigned. *)
Lemma gap_frame_with_actor df dc ic :
  _get_date_column df = Ok dc -> Forall (dated dc) (rows df) ->
  _get_insider_column df = Some ic -> has_column "ticker" df = true ->
  let table := rows (gap_frame dc df) in
  Forall (dated dc) table
  /\ StronglySorted (fun r1 r2 => row_leb ([ic; "ticker"] ++ [dc]) r1 r2 = true) table
  /\ Permutation (map (del_cell "days_since_last_trade") table)
                 (map (del_cell "days_since_last_trade")
                      (map (with_calendar dc) (rows df)))
  /\ forall i, (i < List.length table)%nat ->
       cell "days_since_last_trade" (nth i table [])
       = nth i (groupby_apply fst ([], 0) diff_days
                              (map (key_time [ic; "ticker"] dc) table)) VNA.
Proof.
  intros Hdc Hd Hi Ht table.
  pose proof (get_date_column_contains _ _ Hdc) as Hc.
  assert (Nd : "days_since_last_trade" <> dc)
    by (apply date_column_not_derived; [exact Hc | reflexivity]).
  assert (Ni : "days_since_last_trade" <> ic)
    by (eapply get_insider_column_not_derived; [exact Hi | reflexivity | reflexivity]).
  set (S := stable_sort (row_leb [ic; "ticker"; dc]) (rows (calendar_frame dc df))).
  set (series := groupby_apply fst ([], 0) diff_days (map (key_time [ic; "ticker"] dc) S)).
  set (SF := mkDF (columns (calendar_frame dc df))
                  (sorted_entries [ic; "ticker"; dc]
                                  (entries (calendar_frame dc df)))).
  assert (RS : rows SF = S) by apply rows_sorted_frame.
  assert (Et : table = rows (assign "days_since_last_trade" series SF)).
  { unfold table, gap_frame. rewrite Hi, Ht. cbv zeta. fold SF.
    now rewrite RS. }
  assert (Ls : List.length series = List.length (rows SF))
    by (rewrite RS; unfold series; now rewrite groupby_apply_length, length_map).
  assert (HS : StronglySorted (fun r1 r2 => row_leb [ic; "ticker"; dc] r1 r2 = true) S)
    by (apply stable_sort_sorted; [apply row_leb_total | apply row_leb_trans]).
  assert (PS : Permutation S (map (with_calendar dc) (rows df))).
  { unfold S. rewrite stable_sort_perm. now rewrite calendar_frame_rows. }
  assert (DS : Forall (dated dc) S).
  { eapply Permutation_Forall; [symmetry; exact PS|]. apply Forall_map.
    eapply Forall_impl; [|exact Hd]. intros r. now apply dated_with_calendar. }
  assert (Keys : forall by_,
             ~ In "days_since_last_trade" by_ ->
             map (key_of by_) table = map (key_of by_) S).
  { intros by_ N. rewrite Et, <- RS. apply map_rows_assign_ext; [|exact Ls].
    intros r v. now apply key_of_set_cell. }
  assert (Cells : forall c, "days_since_last_trade" <> c ->
                            map (cell c) table = map (cell c) S).
  { intros c N. rewrite Et, <- RS. apply map_rows_assign_ext; [|exact Ls].
    intros r v. apply cell_set_cell_other. congruence. }
  assert (Len : List.length table = List.length S)
    by (rewrite Et, <- RS; now apply rows_assign_length).
  assert (Rows : forall i, (i < List.length S)%nat ->
                           nth i table [] = set_cell "days_since_last_trade"
                                                     (nth i series VNA) (nth i S [])).
  { intros i Hlt. rewrite Et, <- RS. rewrite <- RS in Hlt.
    now apply nth_rows_assign. }
  repeat split.
  - rewrite Et. rewrite rows_assign, RS. apply Forall_map.
    apply Forall_forall. intros [r v] Hin. cbn [fst snd].
    apply dated_set_cell; [exact Nd|].
    rewrite Forall_forall in DS. apply DS. eapply in_combine_l. exact Hin.
  - rewrite Et. rewrite rows_assign, RS.
    apply StronglySorted_map.
    assert (G : forall l s,
               StronglySorted (fun r1 r2 => row_leb [ic; "ticker"; dc] r1 r2 = true) l ->
               StronglySorted
                 (fun x y : Row * value =>
                    row_leb ([ic; "ticker"] ++ [dc])
                            (set_cell "days_since_last_trade" (snd x) (fst x))
                            (set_cell "days_since_last_trade" (snd y) (fst y)) = true)
                 (combine l s)).
    { induction l as [|r l IH]; intros [|v s] Hl; simpl; try constructor.
      - apply IH. now inversion Hl.
      - inversion Hl as [|? ? _ Hr]; subst.
        apply Forall_forall. intros [r' v'] Hin. cbn [fst snd].
        unfold row_leb. rewrite !key_of_set_cell
          by (simpl; intros [E|[E|[E|[]]]]; congruence).
        rewrite Forall_forall in Hr. apply (Hr r'). eapply in_combine_l. exact Hin. }
    now apply G.
  - rewrite Et. rewrite rows_assign, RS. rewrite map_map.
    rewrite <- PS.
    assert (G : forall l s, List.length s = List.length l ->
               map (fun x : Row * value =>
                      del_cell "days_since_last_trade"
                               (set_cell "days_since_last_trade" (snd x) (fst x)))
                   (combine l s)
               = map (del_cell "days_since_last_trade") l).
    { induction l as [|r l IH]; intros [|v s] L; simpl in *; try discriminate;
        [reflexivity|].
      rewrite IH by lia. f_equal. apply del_set_cell. }
    rewrite G by (rewrite <- RS; exact Ls). reflexivity.
  - intros i Hlt. rewrite Len in Hlt. rewrite (Rows i Hlt), cell_set_cell_same.
    unfold series. do 2 f_equal. symmetry. rewrite Et, <- RS.
    apply map_rows_assign_ext; [|exact Ls].
    intros r v. unfold key_time.
    rewrite key_of_set_cell by (simpl; intros [E|[E|[]]]; congruence).
    now rewrite time_of_set_cell.
Qed.




(** Actor A trades entity X on days 1, 3 and 10; actor B trades X on day 5. *)
Definition actor_trade (actor tk : string) (day : Z) : Row :=
  [("insider", VStr actor); ("ticker", VStr tk); ("date", VDate (days day))].

Definition gap_sample : DataFrame :=
  frame ["insider"; "ticker"; "date"]
       [actor_trade "A" "X" 1; actor_trade "B" "X" 5; actor_trade "A" "X" 3;
        actor_trade "A" "X" 10].

Definition gap_sample_out : DataFrame :=
  Eval vm_compute in result_frame (add_date_features gap_sample).





(** The sequence of the specification's example: A gets missing, 2 and 7
    days; B's trade on day 5 stands apart. *)
Example gap_sequence_of_actor_A :
  map (fun r => (cell "insider" r, cell "days_since_last_trade" r))
      (rows gap_sample_out)
  = [(VStr "A", VNA); (VStr "A", VNum 2); (VStr "A", VNum 7); (VStr "B", VNA)].
Proof. vm_compute. reflexivity. Qed.

(** ** Normalisation *)

(** The column look-ups read the labels only. *)
Lemma get_transaction_column_columns df1 df2 :
  columns df1 = columns df2 ->
  _get_transaction_column df1 = _get_transaction_column df2.
Proof.
  intros E. unfold _get_transaction_column, has_column, find_column. now rewrite E.
Qed.



Lemma get_transaction_column_has df tc :
  _get_transaction_column df = Ok tc -> has_column tc df = true.
Proof.
  unfold _get_transaction_column. destruct (has_column "transaction" df) eqn:H.
  - now intros [= <-].
  - unfold find_column. destruct (find _ _) as [col|] eqn:F; [|discriminate].
    intros [= <-]. apply find_some in F. destruct F as [I _].
    unfold has_column. apply existsb_exists. exists col. split; [exact I|].
    apply String.eqb_refl.
Qed.

Lemma columns_assign_existing c s df :
  has_column c df = true -> columns (assign c s df) = columns df.
Proof. intros H. unfold assign. cbn [columns]. now rewrite H. Qed.

Lemma isin_buy_sale v :
  isin ["Buy"; "Sale"] v = true -> v = VStr "Buy" \/ v = VStr "Sale".
Proof.
  destruct v; simpl; try discriminate.
  destruct (String.eqb_spec s "Buy") as [->|_]; [now left|].
  destruct (String.eqb_spec s "Sale") as [->|_]; [now right|]. discriminate.
Qed.

(** C9 (amended).  In the table [clean_data] returns, the transaction cell
    of every row is ["Buy"] or ["Sale"]: rows whose stripped, title-cased
    transaction is anything else, ["Sell"] included, are removed. *)
Theorem clean_data_keeps_buy_and_sale to_numeric to_datetime repr df out :
  clean_data to_numeric to_datetime repr df = Ok out ->
  exists tc,
    _get_transaction_column out = Ok tc
    /\ Forall (fun r => cell tc r = VStr "Buy" \/ cell tc r = VStr "Sale") (rows out).
Proof.
  unfold clean_data.
  destruct (List.length _ <? 3)%nat; [discriminate|].
  match goal with
  | |- (tc <- _get_transaction_column ?c ;; _) = _ -> _ => set (cleaned := c)
  end.
  destruct (_get_transaction_column cleaned) as [tc|] eqn:Htc; [|discriminate].
  cbn [bind]. intros [= <-]. exists tc. split.
  - rewrite <- Htc. apply get_transaction_column_columns.
    unfold keep_isin, apply_column. cbn [columns].
    apply columns_assign_existing. now apply get_transaction_column_has.
  - rewrite rows_reset_index, rows_keep_isin. apply Forall_forall. intros r Hr.
    apply filter_In in Hr. destruct Hr as [_ Hr]. now apply isin_buy_sale.
Qed.

Definition raw_columns : list string :=
  ["Date"; "Shares"; "Price"; "Transaction"; "Ticker"].

Definition raw_row (transaction : string) : Row :=
  [("Date", VDate (days 3)); ("Shares", VNum 10); ("Price", VNum 2);
   ("Transaction", VStr transaction); ("Ticker", VStr "ACME")].

Definition raw_trades : DataFrame :=
  frame raw_columns [raw_row "sell"; raw_row " sale "; raw_row "BUY"; raw_row "Gift"].

(** The cells of the sample tables have their dtypes already, so that
    [pd.to_numeric] and [pd.to_datetime] return the columns as they are. *)
Definition parsed (column : list value) : list value := column.

Definition no_repr (v : value) : string := "".

Definition cleaned_trades : DataFrame :=
  Eval vm_compute in result_frame (clean_data parsed parsed no_repr raw_trades).

Lemma clean_data_keeps_buy_and_sale_witness :
  exists tc,
    _get_transaction_column cleaned_trades = Ok tc
    /\ Forall (fun r => cell tc r = VStr "Buy" \/ cell tc r = VStr "Sale")
              (rows cleaned_trades).
Proof.
  apply (clean_data_keeps_buy_and_sale parsed parsed no_repr raw_trades).
  vm_compute. reflexivity.
Defined.

(** C9, as stated, fails: of the transactions "sell", " sale ", "BUY" and
    "Gift" the rows kept are "Sale" and "Buy"; "Sale" is not in {Buy, Sell},
    and the row that normalises to "Sell" is removed. *)
Lemma clean_data_drops_sell_keeps_sale :
  clean_data parsed parsed no_repr raw_trades = Ok cleaned_trades
  /\ map (cell "transaction") (rows cleaned_trades) = [VStr "Sale"; VStr "Buy"]
  /\ title (strip "sell") = "Sell"
  /\ ~ In (VStr "Sell") (map (cell "transaction") (rows cleaned_trades))
  /\ ~ Forall (fun r => cell "transaction" r = VStr "Buy"
                        \/ cell "transaction" r = VStr "Sell")
              (rows cleaned_trades).
Proof.
  repeat split; try (vm_compute; reflexivity).
  - vm_compute. intros [H|[H|[]]]; discriminate.
  - intros H. inversion H as [|r l [Hr|Hr] _]; subst; vm_compute in Hr; discriminate.
Qed.

(** ** Missing columns *)

Lemma get_date_column_error df e :
  _get_date_column df = Err e -> e = ValueError "No date column found in dataframe.".
Proof.
  unfold _get_date_column. destruct (has_column "date" df); [discriminate|].
  destruct (find_column _ df); [discriminate|]. now intros [= <-].
Qed.

Lemma get_transaction_column_error df e :
  _get_transaction_column df = Err e ->
  e = ValueError "Transaction column missing from dataframe.".
Proof.
  unfold _get_transaction_column. destruct (has_column "transaction" df); [discriminate|].
  destruct (find_column _ df); [discriminate|]. now intros [= <-].
Qed.

Lemma gap_frame_without_group_columns dc df :
  _get_insider_column df = None \/ has_column "ticker" df = false ->
  gap_frame dc df = assign_scalar "days_since_last_trade" VNA (calendar_frame dc df).
Proof.
  intros [H|H]; unfold gap_frame; [now rewrite H|].
  rewrite H. now destruct (_get_insider_column df).
Qed.

(** C7 (amended).  Without a date column both functions raise the
    [ValueError] of the column look-up and return no table.  Without the
    ticker column [add_statistical_features] raises ([ValueError] or
    [KeyError]) and returns no table, whereas [add_date_features] does not
    fail: on a date column of timestamps it returns the table with the
    calendar columns and [days_since_last_trade] missing in every row. *)
Theorem missing_columns sqrtQ :
  (forall df e,
      _get_date_column df = Err e ->
      add_statistical_features sqrtQ df = Err e /\ add_date_features df = Err e
      /\ is_schema_error e = true)
  /\ (forall df,
         has_column "ticker" df = false ->
         exists e, add_statistical_features sqrtQ df = Err e
                   /\ is_schema_error e = true)
  /\ (forall df dc,
         has_column "ticker" df = false ->
         _get_date_column df = Ok dc -> Forall (dated dc) (rows df) ->
         exists out,
           add_date_features df = Ok out
           /\ List.length (rows out) = List.length (rows df)
           /\ Forall (fun r => cell "days_since_last_trade" r = VNA) (rows out)).
Proof.
  split; [|split].
  - intros df e H. unfold add_statistical_features, add_date_features.
    rewrite H. cbn [bind]. repeat split.
    apply get_date_column_error in H. now subst.
  - intros df Ht. unfold add_statistical_features.
    destruct (_get_date_column df) as [dc|e] eqn:Hdc.
    + cbn [bind]. destruct (_get_transaction_column df) as [tc|e] eqn:Htc.
      * cbn [bind]. unfold sort_values. cbn [find]. rewrite Ht. cbn [negb bind].
        now exists (KeyError "ticker").
      * exists e. split; [reflexivity|].
        apply get_transaction_column_error in Htc. now subst.
    + exists e. split; [reflexivity|]. apply get_date_column_error in Hdc. now subst.
  - intros df dc Ht Hdc Hd. exists (gap_frame dc df).
    split; [now apply add_date_features_eq|].
    rewrite gap_frame_without_group_columns by now right.
    unfold assign_scalar. split.
    + rewrite rows_assign_length by now rewrite length_map.
      rewrite calendar_frame_rows by now apply get_date_column_contains with (df := df).
      now rewrite length_map.
    + rewrite rows_assign_map. apply Forall_map, Forall_forall.
      intros r _. apply cell_set_cell_same.
Qed.

(** A table with an actor and a date, and no ticker column. *)
Definition no_ticker_frame : DataFrame :=
  frame ["insider"; "date"]
       [[("insider", VStr "A"); ("date", VDate (days 1))];
        [("insider", VStr "A"); ("date", VDate (days 3))]].

Definition no_date_frame : DataFrame :=
  frame ["insider"; "ticker"] [[("insider", VStr "A"); ("ticker", VStr "X")]].

Lemma missing_columns_witness :
  add_statistical_features sqrt_floor no_date_frame
  = Err (ValueError "No date column found in dataframe.")
  /\ add_date_features no_date_frame
     = Err (ValueError "No date column found in dataframe.")
  /\ is_schema_error (ValueError "No date column found in dataframe.") = true.
Proof.
  apply (proj1 (missing_columns sqrt_floor) no_date_frame).
  vm_compute. reflexivity.
Defined.

(** C7, as stated, fails for [add_date_features]: a table without the
    entity column is not rejected. *)
Lemma add_date_features_accepts_missing_ticker :
  has_column "ticker" no_ticker_frame = false
  /\ exists out,
       add_date_features no_ticker_frame = Ok out
       /\ map (cell "days_since_last_trade") (rows out) = [VNA; VNA]
       /\ map (cell "year") (rows out) = [VInt 1970; VInt 1970].
Proof.
  split; [reflexivity|]. eexists. repeat split; vm_compute; reflexivity.
Qed.

(** ** The assembler *)

Lemma load_csv_files_none read_csv files :
  (forall p, In p files -> read_csv p = FileNotFound) ->
  _load_csv_files read_csv files = Ok [].
Proof.
  induction files as [|p files IH]; intros H; simpl; [reflexivity|].
  rewrite (H p) by now left. apply IH. intros q Hq. apply H. now right.
Qed.

(** C8 (amended).  [build_feature_matrix] tests the raw table it loaded: if
    that table is empty (or [None]) it is returned at once and no stage is
    called, neither [clean_data] nor a feature function; in particular the
    whole pipeline on no input file yields the empty table without an
    error. *)
Theorem empty_raw_table_short_circuit sqrtQ to_numeric to_datetime repr :
  build_from sqrtQ to_numeric to_datetime repr None = ([], Ok empty_frame)
  /\ (forall raw,
         empty raw = true ->
         build_from sqrtQ to_numeric to_datetime repr (Some raw) = ([], Ok raw))
  /\ (forall read_csv csv_files,
         (forall p, In p csv_files -> read_csv p = FileNotFound) ->
         build_feature_matrix sqrtQ to_numeric to_datetime repr read_csv csv_files
         = ([], Ok empty_frame)).
Proof.
  split; [reflexivity|]. split.
  - intros raw H. unfold build_from. now rewrite H.
  - intros read_csv csv_files H. unfold build_feature_matrix, load_insider_csvs.
    rewrite (load_csv_files_none _ _ H). reflexivity.
Qed.

(** A loaded table with its columns and no row. *)
Definition no_rows_frame : DataFrame := frame raw_columns [].

Lemma empty_raw_table_short_circuit_witness :
  build_from sqrt_floor parsed parsed no_repr (Some no_rows_frame)
  = ([], Ok no_rows_frame).
Proof.
  apply (proj1 (proj2 (empty_raw_table_short_circuit sqrt_floor parsed parsed no_repr))
               no_rows_frame).
  reflexivity.
Defined.

(** A raw table whose only row is neither a purchase nor a sale. *)
Definition gift_frame : DataFrame := frame raw_columns [raw_row "Gift"].

(** C8, as stated, fails: the raw table is not empty, the normalised table
    has no row, and the stages are called all the same. *)
Lemma empty_normalized_table_reaches_engines :
  empty gift_frame = false
  /\ (exists cleaned,
        clean_data parsed parsed no_repr gift_frame = Ok cleaned
        /\ rows cleaned = [])
  /\ existsb (stage_eqb StatisticalFeatures)
             (fst (build_from sqrt_floor parsed parsed no_repr (Some gift_frame)))
     = true
  /\ firstn 3 (fst (build_from sqrt_floor parsed parsed no_repr (Some gift_frame)))
     = [CleanData; BasicFeatures; StatisticalFeatures].
Proof.
  split; [reflexivity|]. split.
  - eexists. split; vm_compute; reflexivity.
  - split; vm_compute; reflexivity.
Qed.

(** ** Row order *)


Lemma has_column_columns c df1 df2 :
  columns df1 = columns df2 -> has_column c df1 = has_column c df2.
Proof. intros E. unfold has_column. now rewrite E. Qed.











(** Trades with an actor and a value, on different days. *)
Definition valued_trade (actor tk : string) (day : Z) (x : Q) : Row :=
  [("insider", VStr actor); ("ticker", VStr tk); ("date", VDate (days day));
   ("transaction", VStr "Buy"); ("trade_value", VNum x)].

Definition valued_trades : DataFrame :=
  frame ["insider"; "ticker"; "date"; "transaction"; "trade_value"]
        [valued_trade "A" "X" 1 10; valued_trade "B" "X" 5 7;
         valued_trade "A" "X" 3 20; valued_trade "A" "Y" 10 5].







(** Two trades of one actor in one ticker on one day, with different share
    counts: the stable sort leaves them in their input order. *)
Definition tied_gap_trades : DataFrame :=
  frame ["insider"; "ticker"; "date"; "shares"]
        [[("insider", VStr "A"); ("ticker", VStr "X"); ("date", VDate (days 1));
          ("shares", VNum 10)];
         [("insider", VStr "A"); ("ticker", VStr "X"); ("date", VDate (days 1));
          ("shares", VNum 20)]].

Definition tied_gap_trades_reversed : DataFrame :=
  mkDF (columns tied_gap_trades) (rev (entries tied_gap_trades)).

Example row_order_kept_among_ties :
  map (cell "shares") (rows (result_frame (add_date_features tied_gap_trades)))
  = [VNum 10; VNum 20]
  /\ map (cell "shares")
         (rows (result_frame (add_date_features tied_gap_trades_reversed)))
     = [VNum 20; VNum 10].
Proof. split; vm_compute; reflexivity. Qed.

(** The same rows numbered afresh in their new order, as a table read
    from a file with its lines in another order: the returned rows are the
    same, and each has the number it came with, so the two tables differ in
    their index. *)
Definition valued_trades_renumbered : DataFrame :=
  frame (columns valued_trades) (rev (rows valued_trades)).

Example row_labels_follow_rows :
  rows (result_frame (add_date_features valued_trades))
  = rows (result_frame (add_date_features valued_trades_renumbered))
  /\ index (result_frame (add_date_features valued_trades)) = [0; 2; 3; 1]
  /\ index (result_frame (add_date_features valued_trades_renumbered)) = [3; 1; 0; 2].
Proof. repeat split; vm_compute; reflexivity. Qed.

(** * Further properties of the code *)

(** ** Column look-up *)

Lemma has_column_In c df : has_column c df = true <-> In c (columns df).
Proof.
  unfold has_column. rewrite existsb_exists. split.
  - intros (x & I & E). apply String.eqb_eq in E. now subst.
  - intros I. exists c. split; [exact I | apply String.eqb_refl].
Qed.

(** [_get_date_column] succeeds exactly when some label contains "date";
    it prefers the label "date" itself wherever it stands, and what it
    returns is a label of the frame that contains "date". *)
Theorem get_date_column_spec df :
  (In "date" (columns df) -> _get_date_column df = Ok "date")
  /\ (forall c, _get_date_column df = Ok c ->
                In c (columns df) /\ contains "date" c = true)
  /\ ((exists e, _get_date_column df = Err e)
      <-> forall c, In c (columns df) -> contains "date" c = false).
Proof.
  repeat split.
  - intros I. unfold _get_date_column.
    now rewrite (proj2 (has_column_In "date" df) I).
  - apply has_column_In. now apply get_date_column_has.
  - now apply get_date_column_contains with (df := df).
  - intros [e H] c I. unfold _get_date_column in H.
    destruct (has_column "date" df); [discriminate|].
    unfold find_column in H. destruct (find _ _) eqn:F; [discriminate|].
    exact (find_none _ _ F c I).
  - intros H. unfold _get_date_column.
    destruct (has_column "date" df) eqn:Hd.
    + apply has_column_In in Hd. specialize (H _ Hd). discriminate.
    + unfold find_column. destruct (find _ _) as [c|] eqn:F; [|now eexists].
      apply find_some in F. destruct F as [I C]. rewrite (H c I) in C. discriminate.
Qed.

Lemma find_first {A} (p : A -> bool) before x after :
  (forall b, In b before -> p b = false) -> p x = true ->
  find p (before ++ x :: after) = Some x.
Proof.
  intros Hb Hx. induction before as [|b before IH]; simpl.
  - now rewrite Hx.
  - rewrite (Hb b) by now left. apply IH. intros b' I. apply Hb. now right.
Qed.

(** [_get_insider_column] returns the first of the labels "insider",
    "insider_name", "reporting_owner" and "owner", in this order, that the
    frame has, wherever the label stands among the columns; when the frame
    has none of the four, the first label in column order that contains
    "insider"; and nothing when there is no such label either. *)
Theorem get_insider_column_spec df :
  let cs := columns df in
  (In "insider" cs -> _get_insider_column df = Some "insider")
  /\ (~ In "insider" cs -> In "insider_name" cs ->
      _get_insider_column df = Some "insider_name")
  /\ (~ In "insider" cs -> ~ In "insider_name" cs -> In "reporting_owner" cs ->
      _get_insider_column df = Some "reporting_owner")
  /\ (~ In "insider" cs -> ~ In "insider_name" cs -> ~ In "reporting_owner" cs ->
      In "owner" cs ->
      _get_insider_column df = Some "owner")
  /\ (forall before c after,
         (forall k, In k insider_candidates -> ~ In k cs) ->
         cs = (before ++ c :: after)%list ->
         (forall b, In b before -> contains "insider" b = false) ->
         contains "insider" c = true ->
         _get_insider_column df = Some c)
  /\ ((forall k, In k insider_candidates -> ~ In k cs) ->
      (forall c, In c cs -> contains "insider" c = false) ->
      _get_insider_column df = None).
Proof.
  intros cs.
  assert (N : forall c, ~ In c cs -> has_column c df = false).
  { intros c H. destruct (has_column c df) eqn:E; [|reflexivity].
    apply has_column_In in E. contradiction. }
  assert (P : forall c, In c cs -> has_column c df = true)
    by (intros c; apply has_column_In).
  assert (NC : (forall k, In k insider_candidates -> ~ In k cs) ->
               find (fun candidate => has_column candidate df) insider_candidates
               = None).
  { intros H. simpl.
    rewrite !N by (apply H; simpl; tauto). reflexivity. }
  repeat split.
  - intros I. unfold _get_insider_column. simpl. now rewrite (P _ I).
  - intros N1 I. unfold _get_insider_column. simpl.
    now rewrite (N _ N1), (P _ I).
  - intros N1 N2 I. unfold _get_insider_column. simpl.
    now rewrite (N _ N1), (N _ N2), (P _ I).
  - intros N1 N2 N3 I. unfold _get_insider_column. simpl.
    now rewrite (N _ N1), (N _ N2), (N _ N3), (P _ I).
  - intros before c after Hk E Hb Hc. unfold _get_insider_column.
    rewrite (NC Hk). unfold find_column. fold cs. rewrite E.
    now apply find_first.
  - intros Hk Hn. unfold _get_insider_column. rewrite (NC Hk).
    unfold find_column. fold cs.
    destruct (find _ cs) as [c|] eqn:F; [|reflexivity].
    apply find_some in F. destruct F as [I C]. rewrite (Hn c I) in C. discriminate.
Qed.

(** ** [clean_data] *)

Lemma columns_apply_column f c df :
  has_column c df = true -> columns (apply_column f c df) = columns df.
Proof. intros H. unfold apply_column. now apply columns_assign_existing. Qed.

Lemma columns_numeric_fold f cs df :
  columns (fold_left (fun acc num_col =>
                        if has_column num_col acc
                        then apply_column f num_col acc else acc) cs df)
  = columns df.
Proof.
  revert df. induction cs as [|c cs IH]; intros df; simpl; [reflexivity|].
  rewrite IH. destruct (has_column c df) eqn:H; [|reflexivity].
  now apply columns_apply_column.
Qed.

Lemma columns_date_fold f cs df :
  (forall c, In c cs -> In c (columns df)) ->
  columns (fold_left (fun acc col => apply_column f col acc) cs df) = columns df.
Proof.
  revert df. induction cs as [|c cs IH]; intros df H; simpl; [reflexivity|].
  assert (E : columns (apply_column f c df) = columns df).
  { apply columns_apply_column, has_column_In, H. now left. }
  rewrite IH; [exact E|]. intros c' I. rewrite E. apply H. now right.
Qed.

Lemma essential_all (p : string -> bool) :
  (List.length (filter p ["date"; "shares"; "price"]) <? 3)%nat = false ->
  filter p ["date"; "shares"; "price"] = ["date"; "shares"; "price"].
Proof.
  simpl. destruct (p "date"), (p "shares"), (p "price"); simpl;
    intros H; try discriminate; reflexivity.
Qed.


(** The table [clean_data] hands to the transaction filter: labels
    normalised, numeric and date columns converted, rows with a missing
    essential cell dropped. *)
Definition converted (to_numeric to_datetime : list value -> list value)
  (df : DataFrame) : DataFrame :=
  let cleaned := rename_columns normalise_label df in
  let essential := ["date"; "shares"; "price"] in
  let cleaned := dropna essential cleaned in
  let cleaned :=
    fold_left (fun acc num_col =>
                 if has_column num_col acc
                 then apply_column to_numeric num_col acc else acc)
              ["shares"; "price"; "value"] cleaned in
  let cleaned :=
    fold_left (fun acc col => apply_column to_datetime col acc)
              (filter (contains "date") (columns cleaned)) cleaned in
  dropna essential cleaned.

Lemma columns_converted to_numeric to_datetime df :
  columns (converted to_numeric to_datetime df)
  = map normalise_label (columns df).
Proof.
  unfold converted. cbv zeta. cbn [columns dropna].
  rewrite columns_date_fold.
  - now rewrite columns_numeric_fold.
  - intros c I. apply filter_In in I. tauto.
Qed.

Lemma clean_data_inv to_numeric to_datetime repr df out :
  clean_data to_numeric to_datetime repr df = Ok out ->
  exists tc,
    _get_transaction_column (converted to_numeric to_datetime df) = Ok tc
    /\ out = reset_index
               (keep_isin tc ["Buy"; "Sale"]
                  (apply_column (map (fun v => VStr (title (strip (astype_str repr v)))))
                                tc (converted to_numeric to_datetime df))).
Proof.
  unfold clean_data.
  destruct (List.length _ <? 3)%nat eqn:L; [discriminate|].
  rewrite (essential_all _ L). fold (converted to_numeric to_datetime df).
  destruct (_get_transaction_column _) as [tc|] eqn:Htc; [|discriminate].
  cbn [bind]. intros [= <-]. now exists tc.
Qed.





Lemma get_transaction_column_contains df tc :
  _get_transaction_column df = Ok tc -> contains "transaction" tc = true.
Proof.
  unfold _get_transaction_column. destruct (has_column "transaction" df).
  - now intros [= <-].
  - unfold find_column. destruct (find _ _) as [col|] eqn:F; [|discriminate].
    intros [= <-]. now apply find_some in F.
Qed.

Lemma dropna_rows subset df r :
  In r (rows (dropna subset df)) ->
  forall c, In c subset -> is_na (cell c r) = false.
Proof.
  rewrite rows_dropna. intros H c Ic. apply filter_In in H.
  destruct H as [_ H]. apply negb_true_iff in H.
  destruct (is_na (cell c r)) eqn:E; [|reflexivity].
  assert (existsb (fun c => is_na (cell c r)) subset = true)
    by (apply existsb_exists; now exists c).
  congruence.
Qed.

Lemma clean_data_columns to_numeric to_datetime repr df out :
  clean_data to_numeric to_datetime repr df = Ok out ->
  columns out = map normalise_label (columns df).
Proof.
  intros H. apply clean_data_inv in H. destruct H as (tc & Htc & ->).
  unfold keep_isin. cbn [columns].
  rewrite columns_apply_column by now apply get_transaction_column_has.
  apply columns_converted.
Qed.

Lemma clean_data_essential_present to_numeric to_datetime repr df out :
  clean_data to_numeric to_datetime repr df = Ok out ->
  has_column "date" out = true /\ has_column "shares" out = true
  /\ has_column "price" out = true.
Proof.
  intros H. pose proof (clean_data_columns _ _ _ _ _ H) as C.
  unfold clean_data in H.
  destruct (List.length _ <? 3)%nat eqn:L; [discriminate|]. clear H.
  assert (E : forall c, has_column c out
                        = has_column c (rename_columns normalise_label df))
    by (intros c; apply has_column_columns; exact C).
  rewrite !E. simpl in L.
  destruct (has_column "date" _), (has_column "shares" _), (has_column "price" _);
    simpl in L; try discriminate; auto.
Qed.

(** In the table [clean_data] returns the labels are the stripped,
    lower-cased labels of the input, in the same order, and no row has a
    missing date, share count or price. *)
Theorem clean_data_labels_and_essentials to_numeric to_datetime repr df out :
  clean_data to_numeric to_datetime repr df = Ok out ->
  columns out = map normalise_label (columns df)
  /\ Forall (fun r => is_na (cell "date" r) = false
                      /\ is_na (cell "shares" r) = false
                      /\ is_na (cell "price" r) = false) (rows out).
Proof.
  intros H. split; [now apply clean_data_columns with (1 := H)|].
  apply clean_data_inv in H. destruct H as (tc & Htc & ->).
  pose proof (get_transaction_column_contains _ _ Htc) as Hc.
  - rewrite rows_reset_index, rows_keep_isin. unfold apply_column. rewrite map_map, rows_assign_map.
    apply Forall_forall. intros r Hr. apply filter_In in Hr. destruct Hr as [Hr _].
    apply in_map_iff in Hr. destruct Hr as (r0 & <- & Hr0).
    assert (E : forall c, In c ["date"; "shares"; "price"] ->
                          is_na (cell c r0) = false).
    { apply dropna_rows with (df :=
        fold_left (fun acc col => apply_column to_datetime col acc)
          (filter (contains "date")
             (columns (fold_left
                         (fun acc num_col =>
                            if has_column num_col acc
                            then apply_column to_numeric num_col acc else acc)
                         ["shares"; "price"; "value"]
                         (dropna ["date"; "shares"; "price"]
                                 (rename_columns normalise_label df)))))
          (fold_left
             (fun acc num_col =>
                if has_column num_col acc
                then apply_column to_numeric num_col acc else acc)
             ["shares"; "price"; "value"]
             (dropna ["date"; "shares"; "price"]
                     (rename_columns normalise_label df)))).
      exact Hr0. }
    assert (Nt : forall c, contains "transaction" c = false -> c <> tc)
      by (intros c Hn ->; congruence).
    rewrite !cell_set_cell_other by (apply Nt; reflexivity).
    repeat split; apply E; simpl; tauto.
Qed.

Lemma clean_data_labels_and_essentials_witness :
  columns cleaned_trades = map normalise_label (columns raw_trades)
  /\ Forall (fun r => is_na (cell "date" r) = false
                      /\ is_na (cell "shares" r) = false
                      /\ is_na (cell "price" r) = false) (rows cleaned_trades).
Proof.
  apply (clean_data_labels_and_essentials parsed parsed no_repr raw_trades).
  vm_compute. reflexivity.
Defined.

(** ** [add_basic_features] *)

Lemma zip_with_map {A B C D} (f : B -> C -> D) (g : A -> B) (h : A -> C) l :
  zip_with f (map g l) (map h l) = map (fun x => f (g x) (h x)) l.
Proof.
  unfold zip_with. induction l as [|a l IH]; simpl; [reflexivity|]. now rewrite IH.
Qed.

(** The relationship column [add_basic_features] reads, if any. *)
Definition relationship_column (df : DataFrame) : option string :=
  if has_column "relationship" df then Some "relationship"
  else find_column (contains "relationship") df.

(** What [add_basic_features] adds to one row. *)
Definition with_basic (repr : value -> string) (tc : string) (rc : option string)
  (r : Row) : Row :=
  let r1 := set_cell "trade_value" (vmul (cell "shares" r) (cell "price" r)) r in
  let r2 := set_cell "is_buy" (str_eq "Buy" (cell tc r1)) r1 in
  let r3 := set_cell "is_sell" (str_eq "Sale" (cell tc r2)) r2 in
  match rc with
  | Some rc => set_cell "insider_role" (VStr (_extract_role repr (cell rc r3))) r3
  | None => r3
  end.

Lemma has_column_assign_new c c' s df :
  has_column c df = true -> has_column c (assign c' s df) = true.
Proof. intros H. now rewrite has_column_assign, H. Qed.

Lemma find_column_assign_fresh p c s df :
  p c = false -> find_column p (assign c s df) = find_column p df.
Proof.
  intros H. unfold find_column, assign. cbn [columns].
  destruct (has_column c df); [reflexivity|].
  induction (columns df) as [|x l IH]; simpl; [now rewrite H|].
  destruct (p x); [reflexivity | exact IH].
Qed.

Lemma Ok_inj {A} (a b : A) : Ok a = Ok b -> a = b.
Proof. now intros [= ->]. Qed.

Lemma rows_assign_map_map {B} c (g : B -> value) (h : Row -> B) df :
  rows (assign c (map g (map h (rows df))) df)
  = map (fun r => set_cell c (g (h r)) r) (rows df).
Proof. rewrite map_map. apply (rows_assign_map c (fun r => g (h r))). Qed.

(** [add_basic_features] works row by row. *)
Lemma add_basic_features_rows repr df out :
  add_basic_features repr df = Ok out ->
  exists tc,
    _get_transaction_column df = Ok tc
    /\ has_column "shares" df = true /\ has_column "price" df = true
    /\ rows out = map (with_basic repr tc (relationship_column df)) (rows df).
Proof.
  unfold add_basic_features.
  destruct (_get_transaction_column df) as [tc|] eqn:Htc; [|discriminate]. cbn [bind].
  pose proof (get_transaction_column_has _ _ Htc) as Hh.
  unfold column at 1. destruct (has_column "shares" df) eqn:Hs; [|discriminate].
  cbn [bind]. unfold column at 1.
  destruct (has_column "price" df) eqn:Hp; [|discriminate]. cbn [bind].
  rewrite zip_with_map.
  set (f1 := assign "trade_value" _ df).
  assert (C1 : column tc f1 = Ok (map (cell tc) (rows f1)))
    by (unfold column, f1; now rewrite has_column_assign_new).
  rewrite C1. cbn [bind].
  set (f2 := assign "is_buy" _ f1).
  assert (C2 : column tc f2 = Ok (map (cell tc) (rows f2)))
    by (unfold column, f2, f1;
        rewrite has_column_assign_new;
        [reflexivity | now rewrite has_column_assign_new]).
  rewrite C2. cbn [bind].
  set (f3 := assign "is_sell" _ f2).
  assert (R : (if has_column "relationship" f3 then Some "relationship"
               else find_column (contains "relationship") f3)
              = relationship_column df).
  { unfold relationship_column, f3, f2, f1.
    rewrite !has_column_assign. cbn [String.eqb Ascii.eqb Bool.eqb orb].
    rewrite !orb_false_r.
    now rewrite !find_column_assign_fresh by reflexivity. }
  rewrite R.
  assert (E3 : rows f3 = map (fun r =>
             let r1 := set_cell "trade_value" (vmul (cell "shares" r) (cell "price" r)) r in
             let r2 := set_cell "is_buy" (str_eq "Buy" (cell tc r1)) r1 in
             set_cell "is_sell" (str_eq "Sale" (cell tc r2)) r2) (rows df)).
  { unfold f3. rewrite rows_assign_map_map.
    unfold f2. rewrite rows_assign_map_map.
    unfold f1. rewrite rows_assign_map, !map_map. reflexivity. }
  intros H. exists tc. repeat split.
  destruct (relationship_column df) as [rc|]; apply Ok_inj in H; rewrite <- H.
  - rewrite (rows_assign_map "insider_role"
               (fun r => VStr (_extract_role repr (cell rc r))) f3).
    rewrite E3, map_map. reflexivity.
  - exact E3.
Qed.


Lemma with_basic_cells repr tc rc r :
  contains "transaction" tc = true ->
  let r' := with_basic repr tc rc r in
  cell "trade_value" r' = vmul (cell "shares" r) (cell "price" r)
  /\ cell "is_buy" r' = str_eq "Buy" (cell tc r)
  /\ cell "is_sell" r' = str_eq "Sale" (cell tc r)
  /\ forall c, ~ In c ["trade_value"; "is_buy"; "is_sell"; "insider_role"] ->
               cell c r' = cell c r.
Proof.
  intros Hc.
  assert (Nt : forall c, contains "transaction" c = false -> tc <> c)
    by (intros c Hn <-; congruence).
  unfold with_basic. cbv zeta.
  repeat split.
  - destruct rc; rewrite !cell_set_cell_other by discriminate;
      apply cell_set_cell_same.
  - destruct rc; rewrite !cell_set_cell_other by discriminate;
      rewrite cell_set_cell_same;
      now rewrite cell_set_cell_other by (apply Nt; reflexivity).
  - destruct rc; rewrite ?cell_set_cell_other by discriminate;
      rewrite cell_set_cell_same;
      now rewrite !cell_set_cell_other by (apply Nt; reflexivity).
  - intros c N. simpl in N.
    destruct rc; rewrite !cell_set_cell_other by (intros ->; tauto); reflexivity.
Qed.

Lemma wrap64_small z : - 2 ^ 63 <= z < 2 ^ 63 -> wrap64 z = z.
Proof. intros H. unfold wrap64. rewrite Z.mod_small; lia. Qed.

(** The product of two numbers. *)
Lemma vmul_numbers a b x y :
  as_num a = Some x -> as_num b = Some y ->
  (forall p q, a = VInt p -> b = VInt q -> - 2 ^ 63 <= p * q < 2 ^ 63) ->
  exists z, as_num (vmul a b) = Some z /\ (z == x * y)%Q.
Proof.
  intros Ha Hb Hr.
  destruct a as [| qa | | p | | |]; try discriminate;
    destruct b as [| qb | | q | | |]; try discriminate;
    simpl in Ha, Hb; injection Ha as <-; injection Hb as <-; simpl;
    try (eexists; split; [reflexivity|]; reflexivity).
  rewrite wrap64_small by now apply Hr.
  eexists. split; [reflexivity|]. rewrite inject_Z_mult. reflexivity.
Qed.

Lemma str_eq_true s v : str_eq s v = VBool true <-> v = VStr s.
Proof.
  destruct v; simpl; try (split; discriminate).
  split.
  - intros [= E]. apply String.eqb_eq in E. now subst.
  - intros [= ->]. now rewrite String.eqb_refl.
Qed.

Lemma str_eq_flag s v : str_eq s v = VBool true \/ str_eq s v = VBool false.
Proof. destruct v; simpl; auto. destruct (String.eqb _ s); auto. Qed.

(** [add_basic_features] keeps the rows in place and computes each row from
    that row alone.  [trade_value] is the product of the share count and
    the price when the two cells are numbers; the product of two [int64]
    cells is an [int64], exact as long as it fits.  The flags [is_buy] and
    [is_sell] are booleans, true exactly when the transaction cell is the
    string "Buy", respectively "Sale".  The other cells are left as they
    are. *)
Theorem add_basic_features_per_row repr df out i :
  add_basic_features repr df = Ok out ->
  (i < List.length (rows df))%nat ->
  exists tc,
    _get_transaction_column df = Ok tc
    /\ List.length (rows out) = List.length (rows df)
    /\ let r := nth i (rows df) [] in
       let r' := nth i (rows out) [] in
       (forall x y,
           as_num (cell "shares" r) = Some x -> as_num (cell "price" r) = Some y ->
           (forall p q, cell "shares" r = VInt p -> cell "price" r = VInt q ->
                        - 2 ^ 63 <= p * q < 2 ^ 63) ->
           exists z, as_num (cell "trade_value" r') = Some z /\ (z == x * y)%Q)
       /\ (cell "is_buy" r' = VBool true \/ cell "is_buy" r' = VBool false)
       /\ (cell "is_buy" r' = VBool true <-> cell tc r = VStr "Buy")
       /\ (cell "is_sell" r' = VBool true \/ cell "is_sell" r' = VBool false)
       /\ (cell "is_sell" r' = VBool true <-> cell tc r = VStr "Sale")
       /\ forall c, ~ In c ["trade_value"; "is_buy"; "is_sell"; "insider_role"] ->
                    cell c r' = cell c r.
Proof.
  intros H Hi. destruct (add_basic_features_rows _ _ _ H) as (tc & Htc & _ & _ & E).
  exists tc. split; [exact Htc|]. split; [now rewrite E, length_map|].
  cbv zeta. rewrite E.
  rewrite (nth_map_lt (with_basic repr tc (relationship_column df)) (rows df) i
                      [] ([] : Row) Hi).
  destruct (with_basic_cells repr tc (relationship_column df) (nth i (rows df) []))
    as (Hv & Hb & Hs & Ho).
  { now apply get_transaction_column_contains with (df := df). }
  rewrite Hv, Hb, Hs. repeat split.
  - intros x y Hx Hy Hr. now apply vmul_numbers.
  - apply str_eq_flag.
  - now apply str_eq_true.
  - now apply str_eq_true.
  - apply str_eq_flag.
  - now apply str_eq_true.
  - now apply str_eq_true.
  - exact Ho.
Qed.

(** A purchase of 100 shares, an [int64] cell, at 2.5. *)
Definition whole_shares : DataFrame :=
  frame ["ticker"; "shares"; "price"; "transaction"]
        [[("ticker", VStr "ACME"); ("shares", VInt 100); ("price", VNum (5 # 2));
          ("transaction", VStr "Buy")]].

Definition whole_shares_basic : DataFrame :=
  Eval vm_compute in result_frame (add_basic_features no_repr whole_shares).

Lemma add_basic_features_per_row_witness :
  cell "trade_value" (nth 0 (rows whole_shares_basic) []) = VNum (500 # 2)
  /\ exists tc,
    _get_transaction_column whole_shares = Ok tc
    /\ List.length (rows whole_shares_basic) = List.length (rows whole_shares)
    /\ let r := nth 0 (rows whole_shares) [] in
       let r' := nth 0 (rows whole_shares_basic) [] in
       (forall x y,
           as_num (cell "shares" r) = Some x -> as_num (cell "price" r) = Some y ->
           (forall p q, cell "shares" r = VInt p -> cell "price" r = VInt q ->
                        - 2 ^ 63 <= p * q < 2 ^ 63) ->
           exists z, as_num (cell "trade_value" r') = Some z /\ (z == x * y)%Q)
       /\ (cell "is_buy" r' = VBool true \/ cell "is_buy" r' = VBool false)
       /\ (cell "is_buy" r' = VBool true <-> cell tc r = VStr "Buy")
       /\ (cell "is_sell" r' = VBool true \/ cell "is_sell" r' = VBool false)
       /\ (cell "is_sell" r' = VBool true <-> cell tc r = VStr "Sale")
       /\ forall c, ~ In c ["trade_value"; "is_buy"; "is_sell"; "insider_role"] ->
                    cell c r' = cell c r.
Proof.
  split; [vm_compute; reflexivity|].
  apply (add_basic_features_per_row no_repr whole_shares whole_shares_basic 0).
  - vm_compute. reflexivity.
  - vm_compute. lia.
Defined.




(** ** The order of the result *)

Definition derived_columns : list string :=
  ["trade_value_7d_mean"; "trade_value_30d_mean"; "trade_value_zscore";
   "trade_value_pct_rank"; "unusual_volume"].

(** [add_statistical_features] returns the rows of its input in the order
    of ticker and date, with the cells of every column other than the five
    it computes unchanged. *)
Theorem add_statistical_features_sorted_rows sqrtQ df out dc :
  add_statistical_features sqrtQ df = Ok out ->
  _get_date_column df = Ok dc ->
  exists sorted_rows,
    Permutation sorted_rows (rows df)
    /\ StronglySorted (fun r1 r2 => row_leb ["ticker"; dc] r1 r2 = true) sorted_rows
    /\ List.length (rows out) = List.length sorted_rows
    /\ forall i c, (i < List.length sorted_rows)%nat -> ~ In c derived_columns ->
                   cell c (nth i (rows out) []) = cell c (nth i sorted_rows []).
Proof.
  intros H Hdc.
  destruct (stats_context _ _ _ _ H Hdc) as (sorted & E & Hs & L & _).
  exists (rows sorted). repeat split.
  - now apply sort_values_perm with (by_ := ["ticker"; dc]).
  - now apply sort_values_sorted with (df := df).
  - exact L.
  - intros i c Hi N. rewrite E, stats_frame_cell by exact Hi.
    simpl in N.
    repeat match goal with
    | |- context [String.eqb c ?n] =>
        replace (String.eqb c n) with false
          by (symmetry; apply String.eqb_neq; intros ->; tauto)
    end.
    reflexivity.
Qed.

Lemma add_statistical_features_sorted_rows_witness :
  exists sorted_rows,
    Permutation sorted_rows (rows sample_frame)
    /\ StronglySorted (fun r1 r2 => row_leb ["ticker"; "date"] r1 r2 = true) sorted_rows
    /\ List.length (rows sample_stats) = List.length sorted_rows
    /\ forall i c, (i < List.length sorted_rows)%nat -> ~ In c derived_columns ->
                   cell c (nth i (rows sample_stats) []) = cell c (nth i sorted_rows []).
Proof.
  apply (add_statistical_features_sorted_rows sqrt_floor sample_frame sample_stats
           "date").
  - vm_compute. reflexivity.
  - vm_compute. reflexivity.
Defined.

(** [add_statistical_features] returns a table only for an input that has a
    date column, a transaction column (which it looks up and never reads), a
    ticker column and a [trade_value] column. *)
Theorem add_statistical_features_needs_columns sqrtQ df out :
  add_statistical_features sqrtQ df = Ok out ->
  (exists dc, _get_date_column df = Ok dc)
  /\ (exists tc, _get_transaction_column df = Ok tc)
  /\ has_column "ticker" df = true
  /\ has_column "trade_value" df = true.
Proof.
  intros H.
  assert (Ht : exists tc, _get_transaction_column df = Ok tc).
  { unfold add_statistical_features in H.
    destruct (_get_date_column df); [|discriminate]. cbn [bind] in H.
    destruct (_get_transaction_column df) as [tc|]; [now exists tc | discriminate]. }
  destruct (add_statistical_features_inv _ _ _ H) as (dc & sorted & Hdc & Hs & Hobs & _).
  apply observations_inv in Hobs. destruct Hobs as (_ & _ & Hv & _).
  pose proof (sort_values_inv _ _ _ Hs) as (C & _ & Hb).
  simpl in Hb. apply andb_true_iff in Hb. destruct Hb as [Hb _].
  repeat split; auto.
  - now exists dc.
  - now rewrite <- (has_column_columns "trade_value" sorted df C).
Qed.

Lemma add_statistical_features_needs_columns_witness :
  (exists dc, _get_date_column sample_frame = Ok dc)
  /\ (exists tc, _get_transaction_column sample_frame = Ok tc)
  /\ has_column "ticker" sample_frame = true
  /\ has_column "trade_value" sample_frame = true.
Proof.
  apply (add_statistical_features_needs_columns sqrt_floor sample_frame sample_stats).
  vm_compute. reflexivity.
Defined.

(** ** Rows that share a timestamp *)

Lemma Permutation_filter_same {A} (p : A -> bool) l l' :
  Permutation l l' -> Permutation (filter p l) (filter p l').
Proof.
  induction 1 as [|x l l' P IH|x y l|l l1 l2 P1 IH1 P2 IH2]; simpl.
  - constructor.
  - destruct (p x); [now constructor | exact IH].
  - destruct (p x), (p y); try reflexivity. apply perm_swap.
  - now transitivity (filter p l1).
Qed.

Lemma traverse_row_obs by_ dc (l : list Row) :
  Forall (fun r => dated dc r
                   /\ as_num (cell "trade_value" r) = Some (trade_value_of r)) l ->
  traverse (row_obs by_ dc "trade_value") l = Some (map (to_obs by_ dc) l).
Proof.
  induction 1 as [|r l [Hd Hv] Hl IH]; simpl; [reflexivity|].
  rewrite IH. unfold row_obs, to_obs. rewrite Hd, Hv. reflexivity.
Qed.

(** The grouped operations read a frame that has the columns and the
    dtypes. *)
Lemma observations_ok by_ dc df :
  forallb (fun c => has_column c df) (by_ ++ [dc]) = true ->
  has_column "trade_value" df = true ->
  Forall (fun r => dated dc r
                   /\ as_num (cell "trade_value" r) = Some (trade_value_of r))
         (rows df) ->
  observations by_ dc "trade_value" df = Ok (map (to_obs by_ dc) (rows df)).
Proof.
  intros Hc Hv Ht. unfold observations.
  destruct (find _ (by_ ++ [dc])%list) as [c|] eqn:F.
  { apply find_some in F. destruct F as [I N].
    rewrite forallb_forall in Hc. rewrite (Hc c I) in N. discriminate. }
  rewrite (traverse_as_date dc (rows df))
    by (eapply Forall_impl; [|exact Ht]; now intros r [? _]).
  rewrite Hv. now rewrite traverse_row_obs.
Qed.

(** [add_statistical_features] raises on every table, well-formed
    otherwise, in which two rows that have a ticker carry the same
    timestamp, whether or not the ticker is the same: the rolled Series
    has that timestamp twice among its labels and cannot be aligned on the
    rows of the table. *)
Theorem add_statistical_features_raises_on_shared_timestamp sqrtQ df dc tc :
  _get_date_column df = Ok dc ->
  _get_transaction_column df = Ok tc ->
  has_column "ticker" df = true ->
  has_column "trade_value" df = true ->
  Forall (fun r => dated dc r
                   /\ as_num (cell "trade_value" r) = Some (trade_value_of r))
         (rows df) ->
  ~ NoDup (ticker_dates dc (rows df)) ->
  add_statistical_features sqrtQ df
  = Err (PandasValueError "cannot reindex on an axis with duplicate labels").
Proof.
  intros Hdc Htc Hk Hv Ht Hn.
  pose proof (get_date_column_has _ _ Hdc) as Hd.
  assert (Hcols : forallb (fun c => has_column c df) ["ticker"; dc] = true)
    by (simpl; now rewrite Hk, Hd).
  unfold add_statistical_features. rewrite Hdc, Htc. cbn [bind].
  rewrite (sort_values_ok _ _ Hcols). cbn [bind].
  set (sorted := mkDF (columns df) (sorted_entries ["ticker"; dc] (entries df))).
  assert (R : rows sorted = stable_sort (row_leb ["ticker"; dc]) (rows df))
    by apply rows_sorted_frame.
  assert (P : Permutation (rows sorted) (rows df))
    by (rewrite R; apply stable_sort_perm).
  assert (Hobs : observations ["ticker"] dc "trade_value" sorted
                 = Ok (map (to_obs ["ticker"] dc) (rows sorted))).
  { apply observations_ok.
    - exact Hcols.
    - exact Hv.
    - eapply Permutation_Forall; [symmetry; exact P | exact Ht]. }
  rewrite !(grouped_rolling_ok _ _ _ _ Hobs). cbn [bind].
  assert (Hu : unique (labels (dated_series (rolling_mean (days 7))
                                 (map (to_obs ["ticker"] dc) (rows sorted))))
               = false).
  { destruct (unique _) eqn:U; [|reflexivity]. exfalso. apply Hn.
    rewrite dated_series_labels_rows in U. apply unique_dates in U.
    eapply Permutation_NoDup; [|exact U].
    unfold ticker_dates. apply Permutation_map. now apply Permutation_filter_same. }
  assert (Hne : entries sorted <> []).
  { intros E. apply Hn. assert (rows df = []) as ->; [|constructor].
    apply Permutation_nil. rewrite <- P. unfold rows. now rewrite E. }
  unfold setitem at 1.
  destruct (entries sorted) as [|e es] eqn:Ee; [congruence|].
  assert (F : labels_eqb (labels (dated_series (rolling_mean (days 7))
                                    (map (to_obs ["ticker"] dc) (rows sorted))))
                         (map LInt (index sorted)) = false).
  { destruct (labels_eqb _ _) eqn:L; [|reflexivity].
    destruct (labels_eqb_kinds _ _ (dated_series_labels_dates _ _) (int_labels _) L)
      as [_ X].
    unfold index in X. rewrite Ee in X. discriminate. }
  rewrite F, Hu. reflexivity.
Qed.

Lemma add_statistical_features_raises_on_shared_timestamp_witness :
  ~ NoDup (ticker_dates "date" (rows tied_frame))
  /\ add_statistical_features sqrt_floor tied_frame
     = Err (PandasValueError "cannot reindex on an axis with duplicate labels").
Proof.
  assert (N : ~ NoDup (ticker_dates "date" (rows tied_frame))).
  { intros D. inversion D as [|? ? X _]. apply X. vm_compute. now left. }
  split; [exact N|].
  apply (add_statistical_features_raises_on_shared_timestamp sqrt_floor tied_frame
           "date" "transaction").
  - vm_compute. reflexivity.
  - vm_compute. reflexivity.
  - vm_compute. reflexivity.
  - vm_compute. reflexivity.
  - repeat (constructor; [split; reflexivity|]). constructor.
  - exact N.
Defined.

(** ** Loading ([src/ingest.py]) *)

(** The frame a path contributes. *)
Definition loaded (read_csv : string -> read_result) (p : string) : list DataFrame :=
  match read_csv p with
  | ReadOk df => [df]
  | _ => []
  end.

(** [_load_csv_files] returns the frames of the paths that can be read, in
    the order of the paths, and skips the paths that are not found; any
    other failure of a read is raised, the first one in path order. *)
Theorem load_csv_files_skips_missing read_csv :
  (forall paths,
      (forall p e, In p paths -> read_csv p <> ReadError e) ->
      _load_csv_files read_csv paths = Ok (flat_map (loaded read_csv) paths))
  /\ (forall before p after e,
         (forall q e', In q before -> read_csv q <> ReadError e') ->
         read_csv p = ReadError e ->
         _load_csv_files read_csv (before ++ p :: after) = Err e).
Proof.
  split.
  - induction paths as [|p paths IH]; intros H; simpl; [reflexivity|].
    unfold loaded at 1.
    assert (IH' : _load_csv_files read_csv paths = Ok (flat_map (loaded read_csv) paths))
      by (apply IH; intros q e I; apply H; now right).
    destruct (read_csv p) as [df| |e] eqn:E.
    + now rewrite IH'.
    + exact IH'.
    + exfalso. apply (H p e); [now left | exact E].
  - induction before as [|q before IH]; intros p after e H Hp; simpl.
    + now rewrite Hp.
    + assert (IH' : _load_csv_files read_csv (before ++ p :: after) = Err e)
        by (apply IH; [intros x e' I; apply H; now right | exact Hp]).
      destruct (read_csv q) as [df| |e'] eqn:E.
      * now rewrite IH'.
      * exact IH'.
      * exfalso. apply (H q e'); [now left | exact E].
Qed.

Lemma union_columns_incl l1 l2 c :
  In c (union_columns l1 l2) <-> In c l1 \/ In c l2.
Proof.
  unfold union_columns. revert l1. induction l2 as [|x l2 IH]; intros l1; simpl.
  - tauto.
  - rewrite IH. destruct (existsb (String.eqb x) l1) eqn:E.
    + apply existsb_exists in E. destruct E as (y & Iy & Ey).
      apply String.eqb_eq in Ey. subst y. intuition (subst; auto).
    + rewrite in_app_iff. simpl. intuition (subst; auto).
Qed.

Lemma concat_columns_incl frames acc c :
  In c (fold_left (fun acc df => union_columns acc (columns df)) frames acc)
  <-> In c acc \/ exists f, In f frames /\ In c (columns f).
Proof.
  revert acc. induction frames as [|f frames IH]; intros acc; simpl.
  - split; [tauto | intros [H|(f & [] & _)]; exact H].
  - rewrite IH, union_columns_incl. split.
    + intros [[H|H]|(g & Ig & Hg)]; [now left | right; exists f; auto
                                    | right; exists g; auto].
    + intros [H|(g & [<-|Ig] & Hg)]; [left; now left | left; now right
                                     | right; exists g; auto].
Qed.

Lemma cell_reindex_row cols c r :
  cell c (reindex_row cols r) = if existsb (String.eqb c) cols then cell c r else VNA.
Proof.
  unfold reindex_row. induction cols as [|x cols IH]; simpl; [reflexivity|].
  rewrite String.eqb_sym. destruct (String.eqb_spec c x) as [->|N]; simpl;
    [reflexivity | exact IH].
Qed.

(** [pd.concat]: the result has the rows of all frames, in order; its
    labels are exactly the labels that occur in some frame; every row
    carries all the labels, a cell under a label of the result is the
    cell of the original row, and is missing where the row's frame lacks
    the column. *)
Lemma concat_union_of_columns frames :
  let df := concat frames in
  List.length (rows df) = list_sum (map (fun f => List.length (rows f)) frames)
  /\ (forall c, In c (columns df) <-> exists f, In f frames /\ In c (columns f))
  /\ Forall (fun r => map fst r = columns df) (rows df)
  /\ (forall i c, (i < List.length (rows df))%nat -> In c (columns df) ->
                  cell c (nth i (rows df) [])
                  = cell c (nth i (flat_map rows frames) [])).
Proof.
  intros df. unfold df, concat. cbv zeta.
  set (cols := fold_left _ frames []). rewrite rows_frame, columns_frame.
  repeat split.
  - rewrite length_map. clear cols. induction frames as [|f frames IH]; simpl;
      [reflexivity|]. now rewrite length_app, IH.
  - intros H. apply concat_columns_incl in H. destruct H as [[]|H]. exact H.
  - intros H. apply concat_columns_incl. now right.
  - apply Forall_map, Forall_forall. intros r _. unfold reindex_row.
    rewrite map_map. simpl. apply map_id.
  - intros i c Hi Hc. rewrite length_map in Hi.
    rewrite (nth_map_lt (reindex_row cols) _ i [] ([] : Row) Hi).
    rewrite cell_reindex_row.
    assert (existsb (String.eqb c) cols = true) as ->; [|reflexivity].
    apply existsb_exists. exists c. split; [exact Hc | apply String.eqb_refl].
Qed.

Lemma load_csv_files_inv read_csv paths frames :
  _load_csv_files read_csv paths = Ok frames ->
  frames = flat_map (loaded read_csv) paths.
Proof.
  revert frames. induction paths as [|p paths IH]; intros frames; simpl.
  - now intros [= <-].
  - unfold loaded at 1. destruct (read_csv p) as [df| |e].
    + destruct (_load_csv_files read_csv paths) as [fs|]; [|discriminate].
      cbn [bind]. intros [= <-]. now rewrite (IH fs eq_refl).
    + apply IH.
    + discriminate.
Qed.

(** [load_insider_csvs] returns the empty table when no file could be read,
    and otherwise the concatenation of the tables read: all their rows in
    path order, the union of their labels, and under each label of the
    result the cell of the original row. *)
Theorem load_insider_csvs_concatenates read_csv csv_files df :
  load_insider_csvs read_csv csv_files = Ok df ->
  let frames := flat_map (loaded read_csv) csv_files in
  (frames = [] -> df = empty_frame)
  /\ List.length (rows df) = list_sum (map (fun f => List.length (rows f)) frames)
  /\ (forall c, In c (columns df) <-> exists f, In f frames /\ In c (columns f))
  /\ (forall i c, (i < List.length (rows df))%nat -> In c (columns df) ->
                  cell c (nth i (rows df) [])
                  = cell c (nth i (flat_map rows frames) [])).
Proof.
  unfold load_insider_csvs.
  destruct (_load_csv_files read_csv csv_files) as [fs|] eqn:L; [|discriminate].
  apply load_csv_files_inv in L. subst fs. cbn [bind]. cbv zeta. intros H.
  destruct (flat_map (loaded read_csv) csv_files) as [|f fs] eqn:F.
  - apply Ok_inj in H. subst df. repeat split; simpl; try tauto; try lia.
    intros (f & [] & _).
  - apply Ok_inj in H. subst df.
    destruct (concat_union_of_columns (f :: fs)) as (H1 & H2 & _ & H4).
    repeat split; try discriminate; auto; apply H2.
Qed.

Definition csv_a : DataFrame :=
  frame ["Date"; "Ticker"] [[("Date", VStr "2024-01-02"); ("Ticker", VStr "ACME")]].

Definition csv_b : DataFrame :=
  frame ["Ticker"; "Price"] [[("Ticker", VStr "BOLT"); ("Price", VNum 3)]].

Definition sample_reader (p : string) : read_result :=
  if String.eqb p "a.csv" then ReadOk csv_a
  else if String.eqb p "b.csv" then ReadOk csv_b
  else FileNotFound.

Definition sample_loaded : DataFrame :=
  Eval vm_compute in
    result_frame (load_insider_csvs sample_reader ["a.csv"; "gone.csv"; "b.csv"]).

Lemma load_insider_csvs_concatenates_witness :
  let frames := flat_map (loaded sample_reader) ["a.csv"; "gone.csv"; "b.csv"] in
  (frames = [] -> sample_loaded = empty_frame)
  /\ List.length (rows sample_loaded)
     = list_sum (map (fun f => List.length (rows f)) frames)
  /\ (forall c, In c (columns sample_loaded)
                <-> exists f, In f frames /\ In c (columns f))
  /\ (forall i c, (i < List.length (rows sample_loaded))%nat ->
                  In c (columns sample_loaded) ->
                  cell c (nth i (rows sample_loaded) [])
                  = cell c (nth i (flat_map rows frames) [])).
Proof.
  apply (load_insider_csvs_concatenates sample_reader ["a.csv"; "gone.csv"; "b.csv"]
           sample_loaded).
  vm_compute. reflexivity.
Defined.

(** ** The assembled table *)

Lemma tbind_ok {A B} (m : Traced A) (k : A -> Traced B) b :
  snd (tbind m k) = Ok b -> exists a, snd m = Ok a /\ snd (k a) = Ok b.
Proof.
  unfold tbind. destruct (snd m) as [a|e]; simpl; [|discriminate].
  intros H. now exists a.
Qed.

Lemma has_column_drop_columns c cs df :
  has_column c (drop_columns cs df)
  = has_column c df && negb (existsb (String.eqb c) cs).
Proof.
  unfold has_column, drop_columns. cbn [columns].
  induction (columns df) as [|x l IH]; simpl; [reflexivity|].
  destruct (existsb (String.eqb x) cs) eqn:Ex; simpl.
  - rewrite IH. destruct (String.eqb_spec c x) as [->|N]; simpl; [|reflexivity].
    rewrite Ex. simpl. now rewrite andb_false_r.
  - rewrite IH. destruct (String.eqb_spec c x) as [->|N]; simpl; [|reflexivity].
    now rewrite Ex.
Qed.

(** When the raw table is not empty and the stages succeed, the table
    [build_feature_matrix] returns has none of the identifier and free-text
    columns "relationship", "insider", "insider_name", "reporting_owner",
    "owner" and "remarks", and the four stages were called in order. *)
Theorem build_from_prunes_identifier_columns
  sqrtQ to_numeric to_datetime repr raw out :
  empty raw = false ->
  snd (build_from sqrtQ to_numeric to_datetime repr (Some raw)) = Ok out ->
  (forall c, In c drop_list -> has_column c out = false)
  /\ fst (build_from sqrtQ to_numeric to_datetime repr (Some raw))
     = [CleanData; BasicFeatures; StatisticalFeatures; DateFeatures].
Proof.
  intros He. unfold build_from. rewrite He. intros H.
  apply tbind_ok in H. destruct H as (d1 & H1 & H).
  apply tbind_ok in H. destruct H as (d2 & H2 & H).
  apply tbind_ok in H. destruct H as (d3 & H3 & H).
  apply tbind_ok in H. destruct H as (d4 & H4 & H).
  unfold call in H1, H2, H3, H4. cbn [snd] in H1, H2, H3, H4. split.
  - intros c Ic.
    destruct (filter (fun col => has_column col d4) drop_list) as [|x l] eqn:F.
    + apply Ok_inj in H. subst out.
      destruct (has_column c d4) eqn:E; [|reflexivity].
      assert (I : In c (filter (fun col => has_column col d4) drop_list))
        by (apply filter_In; auto).
      rewrite F in I. destruct I.
    + apply Ok_inj in H. subst out. rewrite has_column_drop_columns, <- F.
      destruct (has_column c d4) eqn:E; [|reflexivity]. cbn [andb].
      apply negb_false_iff, existsb_exists. exists c.
      split; [apply filter_In; auto | apply String.eqb_refl].
  - unfold tbind, call. cbn [fst snd]. rewrite H1. cbn [fst snd].
    rewrite H2. cbn [fst snd]. rewrite H3. cbn [fst snd]. rewrite H4.
    cbn [fst snd]. now destruct (filter _ drop_list).
Qed.

Definition insider_raw : DataFrame :=
  frame ["Date"; "Shares"; "Price"; "Transaction"; "Ticker"; "Insider"; "Remarks"]
       [[("Date", VDate (days 3)); ("Shares", VNum 10); ("Price", VNum 2);
         ("Transaction", VStr "Buy"); ("Ticker", VStr "ACME");
         ("Insider", VStr "A"); ("Remarks", VStr "none")]].

Definition insider_features : DataFrame :=
  Eval vm_compute in
    result_frame (snd (build_from sqrt_floor parsed parsed no_repr (Some insider_raw))).

Lemma build_from_prunes_identifier_columns_witness :
  (forall c, In c drop_list -> has_column c insider_features = false)
  /\ fst (build_from sqrt_floor parsed parsed no_repr (Some insider_raw))
     = [CleanData; BasicFeatures; StatisticalFeatures; DateFeatures].
Proof.
  apply (build_from_prunes_identifier_columns sqrt_floor parsed parsed no_repr
           insider_raw insider_features).
  - reflexivity.
  - vm_compute. reflexivity.
Defined.

(** ** The calendar columns and the gap of [add_date_features] *)

(** The day number of a civil date, counted from 1970-01-01: what a
    (year, month, day) triple denotes. *)
Definition days_from_civil (y m d : Z) : Z :=
  let y := if m <=? 2 then y - 1 else y in
  let era := y / 400 in
  let yoe := y - era * 400 in
  let mp := if 2 <? m then m - 3 else m + 9 in
  let doy := (153 * mp + 2) / 5 + d - 1 in
  let doe := yoe * 365 + yoe / 4 - yoe / 100 + doy in
  era * 146097 + doe - 719468.

Lemma civil_from_days_spec z :
  let '(y, m, d) := civil_from_days z in
  1 <= m <= 12 /\ 1 <= d <= 31 /\ days_from_civil y m d = z.
Proof.
  unfold civil_from_days.
  set (z' := z + 719468).
  set (era := z' / 146097).
  set (doe := z' - era * 146097).
  assert (Hz : z = era * 146097 + doe - 719468) by (unfold doe, z'; lia).
  assert (Hdoe : 0 <= doe < 146097).
  { unfold doe, era. pose proof (Z.mod_pos_bound z' 146097 ltac:(lia)) as M.
    rewrite Z.mod_eq in M by lia. lia. }
  clearbody doe. clearbody era. clear z'. subst z.
  set (yoe := (doe - doe / 1460 + doe / 36524 - doe / 146096) / 365).
  set (doy := doe - (365 * yoe + yoe / 4 - yoe / 100)).
  assert (Hyoe : 0 <= yoe <= 399)
    by (unfold yoe; Z.to_euclidean_division_equations; lia).
  assert (Hdoy : 0 <= doy <= 365)
    by (unfold doy, yoe; Z.to_euclidean_division_equations; lia).
  assert (Hdoe' : doe = yoe * 365 + yoe / 4 - yoe / 100 + doy) by (unfold doy; lia).
  clearbody doy. clearbody yoe. subst doe.
  set (mp := (5 * doy + 2) / 153).
  assert (Hmp : 0 <= mp <= 11) by (unfold mp; Z.to_euclidean_division_equations; lia).
  set (d := doy - (153 * mp + 2) / 5 + 1).
  assert (Hd : 1 <= d <= 31) by (unfold d, mp; Z.to_euclidean_division_equations; lia).
  assert (Hdoy' : doy = (153 * mp + 2) / 5 + d - 1) by (unfold d; lia).
  set (m := if mp <? 10 then mp + 3 else mp - 9).
  assert (Hm : 1 <= m <= 12 /\ mp = if 2 <? m then m - 3 else m + 9).
  { unfold m. destruct (mp <? 10) eqn:E.
    - apply Z.ltb_lt in E.
      assert (L : (2 <? mp + 3) = true) by (apply Z.ltb_lt; lia).
      rewrite L. lia.
    - apply Z.ltb_ge in E.
      assert (L : (2 <? mp - 9) = false) by (apply Z.ltb_ge; lia).
      rewrite L. lia. }
  destruct Hm as [Hm1 Hm2].
  split; [exact Hm1 | split; [exact Hd|]].
  unfold days_from_civil. rewrite <- Hm2.
  set (y := if m <=? 2 then yoe + era * 400 + 1 else yoe + era * 400).
  assert (Hy : (if m <=? 2 then y - 1 else y) = yoe + era * 400)
    by (unfold y; destruct (m <=? 2); lia).
  rewrite Hy.
  assert (He : (yoe + era * 400) / 400 = era)
    by (rewrite Z.div_add by lia; rewrite Z.div_small by lia; lia).
  rewrite He.
  replace (yoe + era * 400 - era * 400) with yoe by lia.
  rewrite <- Hdoy'. reflexivity.
Qed.

Lemma assign_row_shape c s df r :
  In r (rows (assign c s df)) ->
  exists r0 v, In r0 (rows df) /\ r = set_cell c v r0.
Proof.
  rewrite rows_assign. intros H. apply in_map_iff in H.
  destruct H as ([r0 v] & <- & H). exists r0, v. split; [|reflexivity].
  eapply in_combine_l. exact H.
Qed.

(** Every returned row is a row of the input with the calendar columns and
    the gap set. *)
Lemma gap_frame_row_shape dc df r :
  contains "date" dc = true ->
  In r (rows (gap_frame dc df)) ->
  exists r0 v, In r0 (rows df)
               /\ r = set_cell "days_since_last_trade" v (with_calendar dc r0).
Proof.
  intros Hc H.
  assert (G : exists r1 v, In r1 (rows (calendar_frame dc df))
                           /\ r = set_cell "days_since_last_trade" v r1).
  { unfold gap_frame in H. cbv zeta in H.
    destruct (_get_insider_column df) as [ic|];
      [destruct (has_column "ticker" df)|];
      try (now apply assign_row_shape in H).
    apply assign_row_shape in H. destruct H as (r1 & v & I & E).
    rewrite rows_sorted_frame in I. fold (rows (calendar_frame dc df)) in I.
    exists r1, v. split; [|exact E].
    eapply Permutation_in; [apply stable_sort_perm | exact I]. }
  destruct G as (r1 & v & I & E). rewrite calendar_frame_rows in I by exact Hc.
  apply in_map_iff in I. destruct I as (r0 & <- & I). now exists r0, v.
Qed.

(** On a date column of timestamps [add_date_features] succeeds, keeps the
    number of rows, and in every returned row the calendar columns hold
    integers read off the date of that row alone: a month from 1 to 12, a
    day from 1 to 31, a (year, month, day) triple that denotes exactly the
    day of the timestamp, and a weekday from 0 (Monday) to 6 that agrees
    with that day (1970-01-01, day 0, being a Thursday). *)
Theorem add_date_features_calendar_columns df dc :
  _get_date_column df = Ok dc -> Forall (dated dc) (rows df) ->
  exists out,
    add_date_features df = Ok out
    /\ List.length (rows out) = List.length (rows df)
    /\ Forall (fun r =>
         exists y m d w,
           cell "year" r = VInt y /\ cell "month" r = VInt m
           /\ cell "day" r = VInt d /\ cell "weekday" r = VInt w
           /\ 1 <= m <= 12 /\ 1 <= d <= 31 /\ 0 <= w <= 6
           /\ days_from_civil y m d = epoch_day (time_of dc r)
           /\ w = (days_from_civil y m d + 3) mod 7) (rows out).
Proof.
  intros Hdc Hd. exists (gap_frame dc df).
  pose proof (get_date_column_contains _ _ Hdc) as Hc.
  split; [now apply add_date_features_eq|]. split.
  - unfold gap_frame. cbv zeta.
    assert (L : List.length (rows (calendar_frame dc df)) = List.length (rows df))
      by (rewrite calendar_frame_rows by exact Hc; apply length_map).
    destruct (_get_insider_column df) as [ic|];
      [destruct (has_column "ticker" df)|];
      try (unfold assign_scalar; rewrite rows_assign_length by (now rewrite length_map);
           exact L).
    rewrite rows_assign_length
      by (rewrite groupby_apply_length, length_map; reflexivity).
    rewrite rows_sorted_frame. fold (rows (calendar_frame dc df)).
    rewrite <- L. apply Permutation_length. apply stable_sort_perm.
  - apply Forall_forall. intros r Hr.
    destruct (gap_frame_row_shape dc df r Hc Hr) as (r0 & v & _ & ->).
    assert (T : time_of dc (set_cell "days_since_last_trade" v (with_calendar dc r0))
                = time_of dc r0).
    { unfold with_calendar.
      rewrite !time_of_set_cell
        by (apply date_column_not_derived; [exact Hc | reflexivity]).
      reflexivity. }
    rewrite T. set (t := time_of dc r0).
    pose proof (civil_from_days_spec (epoch_day t)) as S.
    destruct (civil_from_days (epoch_day t)) as [[y m] d] eqn:E.
    exists y, m, d, ((epoch_day t + 3) mod 7).
    unfold with_calendar. fold t.
    repeat (first [ rewrite cell_set_cell_same
                  | rewrite cell_set_cell_other by discriminate ]).
    unfold dt_year, dt_month, dt_day, dt_weekday. rewrite E. cbn [fst snd].
    destruct S as (S1 & S2 & S3). rewrite S3.
    pose proof (Z.mod_pos_bound (epoch_day t + 3) 7 ltac:(lia)).
    repeat split; try reflexivity; lia.
Qed.

Lemma add_date_features_calendar_columns_witness :
  exists out,
    add_date_features gap_sample = Ok out
    /\ List.length (rows out) = List.length (rows gap_sample)
    /\ Forall (fun r =>
         exists y m d w,
           cell "year" r = VInt y /\ cell "month" r = VInt m
           /\ cell "day" r = VInt d /\ cell "weekday" r = VInt w
           /\ 1 <= m <= 12 /\ 1 <= d <= 31 /\ 0 <= w <= 6
           /\ days_from_civil y m d = epoch_day (time_of "date" r)
           /\ w = (days_from_civil y m d + 3) mod 7) (rows out).
Proof.
  apply (add_date_features_calendar_columns gap_sample "date").
  - reflexivity.
  - repeat constructor.
Defined.

Lemma last_In {A} (a : A) l d : In (last (a :: l) d) (a :: l).
Proof.
  revert a. induction l as [|b l IH]; intros a; [now left|].
  right. apply IH.
Qed.

(** On a date column of timestamps, [days_since_last_trade] of a returned
    row is either missing or a whole number of days that is not negative:
    the sort by actor, ticker and date puts the earlier trade of a group in
    front. *)
Theorem days_since_last_trade_not_negative df dc :
  _get_date_column df = Ok dc -> Forall (dated dc) (rows df) ->
  exists out,
    add_date_features df = Ok out
    /\ Forall (fun r =>
         cell "days_since_last_trade" r = VNA
         \/ exists k : Z, (0 <= k)%Z
              /\ cell "days_since_last_trade" r = VNum (inject_Z k)) (rows out).
Proof.
  intros Hdc Hd. exists (gap_frame dc df).
  split; [now apply add_date_features_eq|].
  destruct (_get_insider_column df) as [ic|] eqn:Hic;
    [destruct (has_column "ticker" df) eqn:Ht|].
  - destruct (gap_frame_with_actor df dc ic Hdc Hd Hic Ht) as (Dt & St & _ & Hcell).
    set (table := rows (gap_frame dc df)) in *.
    apply Forall_forall. intros r Hr.
    destruct (In_nth _ _ ([] : Row) Hr) as (i & Hi & <-).
    rewrite Hcell by exact Hi.
    destruct (existsb is_na (key_of [ic; "ticker"] (nth i table []))) eqn:Hna.
    + left. rewrite groupby_apply_nth by now rewrite length_map.
      rewrite (nth_map_lt (key_time [ic; "ticker"] dc) table i ([], 0%Z) ([] : Row) Hi).
      cbn [key_time fst]. now rewrite Hna.
    + rewrite diff_days_cell by assumption. unfold expected_gap.
      destruct (earlier_trades ic table i) as [|x e] eqn:E; [now left|].
      right. unfold gap_days.
      exists ((time_of dc (nth i table []) - time_of dc (last (x :: e) [])) / day_ns)%Z.
      split; [|reflexivity].
      apply Z.div_pos; [|reflexivity].
      assert (I : In (last (x :: e) []) (earlier_trades ic table i))
        by (rewrite E; apply last_In).
      unfold earlier_trades in I. apply filter_In in I. destruct I as [I K].
      pose proof (earlier_rows_not_later [ic; "ticker"] dc table i _ Dt St Hi I K).
      lia.
  - unfold gap_frame. rewrite Hic, Ht. cbv zeta. unfold assign_scalar.
    rewrite rows_assign_map. apply Forall_map, Forall_forall.
    intros r _. left. apply cell_set_cell_same.
  - unfold gap_frame. rewrite Hic. cbv zeta. unfold assign_scalar.
    rewrite rows_assign_map. apply Forall_map, Forall_forall.
    intros r _. left. apply cell_set_cell_same.
Qed.

Lemma days_since_last_trade_not_negative_witness :
  exists out,
    add_date_features gap_sample = Ok out
    /\ Forall (fun r =>
         cell "days_since_last_trade" r = VNA
         \/ exists k : Z, (0 <= k)%Z
              /\ cell "days_since_last_trade" r = VNum (inject_Z k)) (rows out).
Proof.
  apply (days_since_last_trade_not_negative gap_sample "date").
  - reflexivity.
  - repeat constructor.
Defined.

(** ** The percentile rank follows the order of the values *)

Lemma filter_two_below {A} (f g h : A -> bool) l :
  (forall x, f x = true -> g x = false) ->
  (forall x, f x = true -> h x = true) ->
  (forall x, g x = true -> h x = true) ->
  (List.length (filter f l) + List.length (filter g l)
   <= List.length (filter h l))%nat.
Proof.
  intros Hfg Hfh Hgh. induction l as [|a l IH]; simpl; [lia|].
  destruct (f a) eqn:Ef.
  - rewrite (Hfg a Ef), (Hfh a Ef). simpl. lia.
  - destruct (g a) eqn:Eg.
    + rewrite (Hgh a Eg). simpl. lia.
    + destruct (h a); simpl; lia.
Qed.

Lemma average_pct_rank_monotone (table : list Row) i j :
  (i < List.length table)%nat -> (j < List.length table)%nat ->
  same_entity (nth i table []) (nth j table []) = true ->
  ((trade_value_of (nth i table []) < trade_value_of (nth j table []))%Q ->
   (average_pct_rank table (nth i table [])
    < average_pct_rank table (nth j table []))%Q)
  /\ ((trade_value_of (nth i table []) == trade_value_of (nth j table []))%Q ->
      (average_pct_rank table (nth i table [])
       == average_pct_rank table (nth j table []))%Q).
Proof.
  intros Hi Hj Hs.
  set (ri := nth i table []) in *. set (rj := nth j table []) in *.
  pose proof (same_entity_group table ri rj Hs) as G.
  pose proof (count_equal_pos table i Hi) as Pi. fold ri in Pi.
  pose proof (count_equal_pos table j Hj) as Pj. fold rj in Pj.
  assert (Hn : (0 < Qlen (entity_group table ri))%Q).
  { apply Qlen_pos. intros N.
    pose proof (row_in_own_group table i Hi) as I. fold ri in I.
    rewrite N in I. destruct I. }
  unfold average_pct_rank. rewrite G. split.
  - intros Hlt.
    assert (B : (count_below table ri + count_equal table ri
                 <= count_below table rj)%nat).
    { unfold count_below, count_equal. rewrite G. apply filter_two_below.
      - intros x. apply Qltb_not_eq.
      - intros x Hx. apply Qltb_lt. apply Qltb_lt in Hx.
        eapply Qlt_trans; eassumption.
      - intros x Hx. apply Qltb_lt. apply Qeq_bool_iff in Hx. now rewrite Hx. }
    apply Qnat_le in B. rewrite Qnat_add in B.
    pose proof (Qnat_le _ _ Pi) as Ei. pose proof (Qnat_le _ _ Pj) as Ej.
    change (Qnat 1) with 1%Q in Ei, Ej.
    set (bi := Qnat (count_below table ri)) in *.
    set (ei := Qnat (count_equal table ri)) in *.
    set (bj := Qnat (count_below table rj)) in *.
    set (ej := Qnat (count_equal table rj)) in *.
    set (n := Qlen (entity_group table ri)) in *.
    apply Qmult_lt_r with (z := n); [exact Hn|].
    assert (Nn : ~ (n == 0)%Q) by lra. field_simplify; [lra | exact Nn | exact Nn].
  - intros Heq.
    assert (Eb : count_below table ri = count_below table rj).
    { unfold count_below. rewrite G. f_equal. apply filter_ext. intros x.
      apply eq_true_iff_eq. rewrite !Qltb_lt. now rewrite Heq. }
    assert (Ee : count_equal table ri = count_equal table rj).
    { unfold count_equal. rewrite G. f_equal. apply filter_ext. intros x.
      apply eq_true_iff_eq. rewrite !Qeq_bool_iff. now rewrite Heq. }
    rewrite Eb, Ee. reflexivity.
Qed.

(** Inside a ticker group the percentile rank follows the order of
    [trade_value]: of two rows of one group the one with the larger value has
    the strictly larger rank, and rows with equal values have equal ranks. *)
Theorem pct_rank_follows_trade_value sqrtQ df out i j :
  add_statistical_features sqrtQ df = Ok out ->
  (i < List.length (rows out))%nat -> (j < List.length (rows out))%nat ->
  is_na (ticker_of (nth i (rows out) [])) = false ->
  is_na (ticker_of (nth j (rows out) [])) = false ->
  same_entity (nth i (rows out) []) (nth j (rows out) []) = true ->
  exists qi qj,
    cell "trade_value_pct_rank" (nth i (rows out) []) = VNum qi
    /\ cell "trade_value_pct_rank" (nth j (rows out) []) = VNum qj
    /\ ((trade_value_of (nth i (rows out) [])
         < trade_value_of (nth j (rows out) []))%Q -> (qi < qj)%Q)
    /\ ((trade_value_of (nth i (rows out) [])
         == trade_value_of (nth j (rows out) []))%Q -> (qi == qj)%Q).
Proof.
  intros H Hi Hj Nai Naj Hs.
  destruct (add_statistical_features_inv _ _ _ H) as (dc & _ & Hdc & _).
  destruct (stats_context _ _ _ _ H Hdc) as (sorted & E & _ & L & Hos & Hsd & Ht).
  destruct (rank_pct_cell dc (rows out) i Hi Nai) as (qi & Hqi & Hqi').
  destruct (rank_pct_cell dc (rows out) j Hj Naj) as (qj & Hqj & Hqj').
  destruct (average_pct_rank_monotone (rows out) i j Hi Hj Hs) as [M1 M2].
  exists qi, qj. repeat split.
  - rewrite <- Hqi, Hos. rewrite E. rewrite stats_frame_cell by lia. reflexivity.
  - rewrite <- Hqj, Hos. rewrite E. rewrite stats_frame_cell by lia. reflexivity.
  - intros Hlt. rewrite Hqi', Hqj'. now apply M1.
  - intros Heq. rewrite Hqi', Hqj'. now apply M2.
Qed.

Lemma pct_rank_follows_trade_value_witness :
  exists qi qj,
    cell "trade_value_pct_rank" (nth 0 (rows sample_stats) []) = VNum qi
    /\ cell "trade_value_pct_rank" (nth 2 (rows sample_stats) []) = VNum qj
    /\ ((trade_value_of (nth 0 (rows sample_stats) [])
         < trade_value_of (nth 2 (rows sample_stats) []))%Q -> (qi < qj)%Q)
    /\ ((trade_value_of (nth 0 (rows sample_stats) [])
         == trade_value_of (nth 2 (rows sample_stats) []))%Q -> (qi == qj)%Q).
Proof.
  apply (pct_rank_follows_trade_value sqrt_floor sample_frame sample_stats 0 2).
  - vm_compute. reflexivity.
  - vm_compute. lia.
  - vm_compute. lia.
  - vm_compute. reflexivity.
  - vm_compute. reflexivity.
  - vm_compute. reflexivity.
Defined.

(** ** The columns and the size of the assembled table *)

(** The columns the four stages add, apart from [insider_role], which needs
    a relationship column. *)
Definition feature_columns : list string :=
  ["trade_value"; "is_buy"; "is_sell";
   "trade_value_7d_mean"; "trade_value_30d_mean"; "trade_value_zscore";
   "trade_value_pct_rank"; "unusual_volume";
   "year"; "month"; "day"; "weekday"; "days_since_last_trade"].

Lemma rows_apply_column_le f c df :
  (List.length (rows (apply_column f c df)) <= List.length (rows df))%nat.
Proof.
  unfold apply_column. rewrite rows_assign. rewrite length_map, length_combine. lia.
Qed.

Lemma rows_dropna_le cs df :
  (List.length (rows (dropna cs df)) <= List.length (rows df))%nat.
Proof. rewrite rows_dropna. apply filter_length_le. Qed.

Lemma rows_converted_le to_numeric to_datetime df :
  (List.length (rows (converted to_numeric to_datetime df))
   <= List.length (rows df))%nat.
Proof.
  unfold converted. cbv zeta.
  assert (F1 : forall cs d,
             (List.length
                (rows (fold_left (fun acc num_col =>
                                    if has_column num_col acc
                                    then apply_column to_numeric num_col acc
                                    else acc) cs d))
              <= List.length (rows d))%nat).
  { induction cs as [|c cs IH]; intros d; simpl; [lia|].
    etransitivity; [apply IH|].
    destruct (has_column c d); [apply rows_apply_column_le | lia]. }
  assert (F2 : forall cs d,
             (List.length
                (rows (fold_left (fun acc col => apply_column to_datetime col acc)
                                 cs d))
              <= List.length (rows d))%nat).
  { induction cs as [|c cs IH]; intros d; simpl; [lia|].
    etransitivity; [apply IH | apply rows_apply_column_le]. }
  etransitivity; [apply rows_dropna_le|].
  etransitivity; [apply F2|].
  etransitivity; [apply F1|].
  etransitivity; [apply rows_dropna_le|].
  rewrite rows_rename_columns. now rewrite length_map.
Qed.

Lemma clean_data_rows_le to_numeric to_datetime repr df out :
  clean_data to_numeric to_datetime repr df = Ok out ->
  (List.length (rows out) <= List.length (rows df))%nat.
Proof.
  intros H. apply clean_data_inv in H. destruct H as (tc & _ & ->).
  rewrite rows_reset_index, rows_keep_isin.
  etransitivity; [apply filter_length_le|].
  etransitivity; [apply rows_apply_column_le | apply rows_converted_le].
Qed.

Lemma add_basic_features_columns repr df out c :
  add_basic_features repr df = Ok out ->
  has_column c df = true
  \/ In c ["trade_value"; "is_buy"; "is_sell"] ->
  has_column c out = true.
Proof.
  unfold add_basic_features.
  destruct (_get_transaction_column df) as [tc|]; [|discriminate]. cbn [bind].
  destruct (column "shares" df) as [sh|]; [|discriminate]. cbn [bind].
  destruct (column "price" df) as [pr|]; [|discriminate]. cbn [bind].
  set (f1 := assign "trade_value" _ df).
  destruct (column tc f1) as [tx1|]; [|discriminate]. cbn [bind].
  set (f2 := assign "is_buy" _ f1).
  destruct (column tc f2) as [tx2|]; [|discriminate]. cbn [bind].
  set (f3 := assign "is_sell" _ f2).
  intros H Hc. apply Ok_inj in H. subst out.
  assert (H3 : has_column c f3 = true).
  { unfold f3, f2, f1. rewrite !has_column_assign.
    destruct Hc as [Hc|[<-|[<-|[<-|[]]]]]; [rewrite Hc| | |];
      cbn; now rewrite ?orb_true_r. }
  destruct (if has_column "relationship" f3 then Some "relationship"
            else find_column (contains "relationship") f3) as [rc|];
    [|exact H3].
  rewrite has_column_assign, H3. reflexivity.
Qed.

Lemma add_statistical_features_columns sqrtQ df out c :
  add_statistical_features sqrtQ df = Ok out ->
  has_column c df = true \/ In c derived_columns ->
  has_column c out = true.
Proof.
  intros H Hc. apply add_statistical_features_inv in H.
  destruct H as (dc & sorted & _ & Hs & _ & -> & _).
  apply sort_values_inv in Hs. destruct Hs as (Hcols & _ & _).
  assert (E : has_column c sorted = has_column c df)
    by (unfold has_column; now rewrite Hcols).
  unfold stats_frame, assign_scalar. rewrite !has_column_assign, E.
  destruct Hc as [Hc|[<-|[<-|[<-|[<-|[<-|[]]]]]]]; [rewrite Hc| | | | |];
    cbn; now rewrite ?orb_true_r.
Qed.

Lemma has_column_gap_frame c dc df :
  has_column c (gap_frame dc df)
  = has_column c df
    || existsb (String.eqb c)
               ["year"; "month"; "day"; "weekday"; "days_since_last_trade"].
Proof.
  assert (G : has_column c (gap_frame dc df)
              = has_column c (calendar_frame dc df)
                || String.eqb c "days_since_last_trade").
  { unfold gap_frame. cbv zeta.
    destruct (_get_insider_column df) as [ic|];
      [destruct (has_column "ticker" df)|];
      try (unfold assign_scalar; apply has_column_assign).
    rewrite has_column_assign. reflexivity. }
  rewrite G, has_column_calendar. simpl.
  rewrite !orb_false_r, <- !orb_assoc. reflexivity.
Qed.

Lemma gap_frame_length dc df :
  contains "date" dc = true ->
  List.length (rows (gap_frame dc df)) = List.length (rows df).
Proof.
  intros Hc. unfold gap_frame. cbv zeta.
  assert (L : List.length (rows (calendar_frame dc df)) = List.length (rows df))
    by (rewrite calendar_frame_rows by exact Hc; apply length_map).
  destruct (_get_insider_column df) as [ic|];
    [destruct (has_column "ticker" df)|];
    try (unfold assign_scalar; rewrite rows_assign_length by (now rewrite length_map);
         exact L).
  rewrite rows_assign_length
    by (rewrite groupby_apply_length, length_map; reflexivity).
  rewrite rows_sorted_frame. fold (rows (calendar_frame dc df)).
  rewrite <- L. apply Permutation_length. apply stable_sort_perm.
Qed.

Lemma add_date_features_gap_frame df out :
  add_date_features df = Ok out ->
  exists dc, _get_date_column df = Ok dc /\ out = gap_frame dc df.
Proof.
  intros H. destruct (_get_date_column df) as [dc|] eqn:Hdc;
    [|unfold add_date_features in H; rewrite Hdc in H; discriminate].
  pose proof (add_date_features_dated _ _ _ H Hdc) as Hd.
  rewrite (add_date_features_eq _ _ Hdc Hd) in H. apply Ok_inj in H.
  now exists dc.
Qed.

Lemma existsb_filter_false {A} (p f : A -> bool) l :
  existsb p l = false -> existsb p (filter f l) = false.
Proof.
  induction l as [|a l IH]; simpl; [reflexivity|].
  intros H. apply orb_false_iff in H. destruct H as [Ha Hl].
  destruct (f a); simpl; [rewrite Ha|]; now apply IH.
Qed.

Lemma add_statistical_features_length sqrtQ df out :
  add_statistical_features sqrtQ df = Ok out ->
  List.length (rows out) = List.length (rows df).
Proof.
  intros H. destruct (add_statistical_features_inv _ _ _ H) as (dc & _ & Hdc & _).
  destruct (stats_context _ _ _ _ H Hdc) as (sorted & _ & Hs & L & _).
  apply sort_values_inv in Hs. destruct Hs as (_ & Hr & _).
  rewrite L, Hr. apply Permutation_length, stable_sort_perm.
Qed.

(** When the raw table is not empty and the stages succeed, the table
    [build_feature_matrix] returns holds the essential columns "date",
    "shares" and "price" and every feature column of the three feature
    functions, and it has at most as many rows as the raw table: rows are
    only ever removed, by [clean_data]. *)
Theorem build_from_feature_columns
  sqrtQ to_numeric to_datetime repr raw out :
  empty raw = false ->
  snd (build_from sqrtQ to_numeric to_datetime repr (Some raw)) = Ok out ->
  (forall c, In c (["date"; "shares"; "price"] ++ feature_columns) ->
             has_column c out = true)
  /\ (List.length (rows out) <= List.length (rows raw))%nat.
Proof.
  intros He. unfold build_from. rewrite He. intros H.
  apply tbind_ok in H. destruct H as (d1 & H1 & H).
  apply tbind_ok in H. destruct H as (d2 & H2 & H).
  apply tbind_ok in H. destruct H as (d3 & H3 & H).
  apply tbind_ok in H. destruct H as (d4 & H4 & H).
  unfold call in H1, H2, H3, H4. cbn [snd] in H1, H2, H3, H4.
  destruct (clean_data_essential_present _ _ _ _ _ H1) as (Ed & Es & Ep).
  destruct (add_date_features_gap_frame _ _ H4) as (dc & Hdc & E4).
  assert (C4 : forall c, In c (["date"; "shares"; "price"] ++ feature_columns) ->
                         has_column c d4 = true).
  { intros c Ic. rewrite E4, has_column_gap_frame.
    unfold feature_columns in Ic. cbn [app] in Ic.
    repeat (destruct Ic as [<-|Ic]; [|]); [..|destruct Ic];
      first
        [ solve [cbn; now rewrite ?orb_true_r]
        | apply orb_true_iff; left;
          eapply add_statistical_features_columns; [exact H3|];
          first
            [ solve [right; unfold derived_columns; simpl; auto 10]
            | left; eapply add_basic_features_columns; [exact H2|];
              first [ solve [right; simpl; auto 10] | left; assumption ] ] ]. }
  assert (L4 : (List.length (rows d4) <= List.length (rows raw))%nat).
  { rewrite E4, gap_frame_length by now apply get_date_column_contains with (df := d3).
    rewrite (add_statistical_features_length _ _ _ H3).
    destruct (add_basic_features_rows _ _ _ H2) as (tc & _ & _ & _ & R2).
    rewrite R2, length_map. now apply clean_data_rows_le in H1. }
  destruct (filter (fun col => has_column col d4) drop_list) as [|x l] eqn:F.
  - apply Ok_inj in H. subst out. split; [exact C4 | exact L4].
  - apply Ok_inj in H. subst out. rewrite <- F. split.
    + intros c Ic. rewrite has_column_drop_columns, (C4 c Ic). cbn [andb].
      apply negb_true_iff, existsb_filter_false.
      unfold feature_columns in Ic. cbn [app] in Ic.
      repeat (destruct Ic as [<-|Ic]; [reflexivity|]). destruct Ic.
    + rewrite rows_drop_columns. now rewrite length_map.
Qed.

Lemma build_from_feature_columns_witness :
  (forall c, In c (["date"; "shares"; "price"] ++ feature_columns) ->
             has_column c insider_features = true)
  /\ (List.length (rows insider_features) <= List.length (rows insider_raw))%nat.
Proof.
  apply (build_from_feature_columns sqrt_floor parsed parsed no_repr
           insider_raw insider_features).
  - reflexivity.
  - vm_compute. reflexivity.
Defined.

(** ** The role column of [add_basic_features] *)

Lemma relationship_column_spec df rc :
  relationship_column df = Some rc ->
  In rc (columns df) /\ contains "relationship" rc = true.
Proof.
  unfold relationship_column.
  destruct (has_column "relationship" df) eqn:H.
  - intros [= <-]. split; [now apply has_column_In | reflexivity].
  - unfold find_column. intros F. now apply find_some in F.
Qed.

Lemma extract_role_labels repr v :
  In (_extract_role repr v) ["CEO"; "CFO"; "Director"; "Officer"; "Other"].
Proof.
  unfold _extract_role.
  repeat match goal with
         | |- context [if ?b then _ else _] => destruct b
         end; simpl; auto 10.
Qed.

(** [add_basic_features] reads the role from the column "relationship" when
    the table has one, else from the first column whose label contains
    "relationship"; [insider_role] of a row is then one of the five labels
    CEO, CFO, Director, Officer and Other, computed from the cell of that
    row alone.  Without such a column no role is written. *)
Theorem insider_role_from_relationship repr df out i :
  add_basic_features repr df = Ok out ->
  (i < List.length (rows df))%nat ->
  let r := nth i (rows df) [] in
  let r' := nth i (rows out) [] in
  (In "relationship" (columns df) ->
   cell "insider_role" r' = VStr (_extract_role repr (cell "relationship" r)))
  /\ (forall rc, relationship_column df = Some rc ->
        In rc (columns df) /\ contains "relationship" rc = true
        /\ cell "insider_role" r' = VStr (_extract_role repr (cell rc r))
        /\ In (_extract_role repr (cell rc r))
              ["CEO"; "CFO"; "Director"; "Officer"; "Other"])
  /\ ((forall c, In c (columns df) -> contains "relationship" c = false) ->
      cell "insider_role" r' = cell "insider_role" r).
Proof.
  intros H Hi r r'.
  destruct (add_basic_features_rows _ _ _ H) as (tc & Htc & _ & _ & E).
  assert (R : r' = with_basic repr tc (relationship_column df) r).
  { unfold r', r. rewrite E.
    apply (nth_map_lt (with_basic repr tc (relationship_column df)) (rows df) i
                      [] ([] : Row) Hi). }
  assert (Some_case : forall rc, relationship_column df = Some rc ->
            cell "insider_role" r' = VStr (_extract_role repr (cell rc r))).
  { intros rc Hrc. rewrite R, Hrc. unfold with_basic. cbv zeta.
    rewrite cell_set_cell_same.
    destruct (relationship_column_spec _ _ Hrc) as [_ C].
    rewrite !cell_set_cell_other by (intros ->; discriminate). reflexivity. }
  split; [|split].
  - intros I. apply Some_case. unfold relationship_column.
    now rewrite (proj2 (has_column_In "relationship" df) I).
  - intros rc Hrc. destruct (relationship_column_spec _ _ Hrc) as [I C].
    repeat split; [exact I | exact C | now apply Some_case |].
    apply extract_role_labels.
  - intros N.
    assert (Hn : relationship_column df = None).
    { destruct (relationship_column df) as [rc|] eqn:Hrc; [|reflexivity].
      destruct (relationship_column_spec _ _ Hrc) as [I C].
      rewrite (N rc I) in C. discriminate. }
    rewrite R, Hn. unfold with_basic. cbv zeta.
    now rewrite !cell_set_cell_other by discriminate.
Qed.

(** A trade by a chief financial officer who is no CFO by the letters. *)
Definition role_frame : DataFrame :=
  frame ["transaction"; "shares"; "price"; "insider_relationship"]
       [[("transaction", VStr "Buy"); ("shares", VNum 10); ("price", VNum 2);
         ("insider_relationship", VStr "Chief Financial Officer")]].

Definition role_out : DataFrame :=
  Eval vm_compute in result_frame (add_basic_features no_repr role_frame).

Lemma insider_role_from_relationship_witness :
  let r := nth 0 (rows role_frame) [] in
  let r' := nth 0 (rows role_out) [] in
  (In "relationship" (columns role_frame) ->
   cell "insider_role" r' = VStr (_extract_role no_repr (cell "relationship" r)))
  /\ (forall rc, relationship_column role_frame = Some rc ->
        In rc (columns role_frame) /\ contains "relationship" rc = true
        /\ cell "insider_role" r' = VStr (_extract_role no_repr (cell rc r))
        /\ In (_extract_role no_repr (cell rc r))
              ["CEO"; "CFO"; "Director"; "Officer"; "Other"])
  /\ ((forall c, In c (columns role_frame) -> contains "relationship" c = false) ->
      cell "insider_role" r' = cell "insider_role" r).
Proof.
  apply (insider_role_from_relationship no_repr role_frame role_out 0).
  - vm_compute. reflexivity.
  - vm_compute. lia.
Defined.

(** ** The transaction column *)

(** [_get_transaction_column] prefers the label "transaction" itself
    wherever it stands; without it, it returns the first label, in column
    order, that contains "transaction"; it raises its [ValueError] exactly
    when no label contains "transaction". *)
Theorem get_transaction_column_spec df :
  (In "transaction" (columns df) -> _get_transaction_column df = Ok "transaction")
  /\ (forall before c after,
         columns df = (before ++ c :: after)%list ->
         ~ In "transaction" (columns df) ->
         (forall x, In x before -> contains "transaction" x = false) ->
         contains "transaction" c = true ->
         _get_transaction_column df = Ok c)
  /\ (forall c, _get_transaction_column df = Ok c ->
                In c (columns df) /\ contains "transaction" c = true)
  /\ (_get_transaction_column df
      = Err (ValueError "Transaction column missing from dataframe.")
      <-> forall c, In c (columns df) -> contains "transaction" c = false).
Proof.
  split; [|split; [|split; [|split]]].
  - intros I. unfold _get_transaction_column.
    now rewrite (proj2 (has_column_In "transaction" df) I).
  - intros before c after E N Hb Hc. unfold _get_transaction_column.
    destruct (has_column "transaction" df) eqn:H;
      [apply has_column_In in H; contradiction|].
    unfold find_column. rewrite E. now rewrite (find_first _ before c after Hb Hc).
  - intros c H. split.
    + apply has_column_In. now apply get_transaction_column_has.
    + now apply get_transaction_column_contains with (df := df).
  - intros H c I. unfold _get_transaction_column in H.
    destruct (has_column "transaction" df); [discriminate|].
    unfold find_column in H. destruct (find _ _) eqn:F; [discriminate|].
    exact (find_none _ _ F c I).
  - intros H. unfold _get_transaction_column.
    destruct (has_column "transaction" df) eqn:Hd.
    + apply has_column_In in Hd. specialize (H _ Hd). discriminate.
    + unfold find_column. destruct (find _ _) as [c|] eqn:F; [|reflexivity].
      apply find_some in F. destruct F as [I C]. rewrite (H c I) in C. discriminate.
Qed.
